(** * Late-interest engine: interest accrual, allocation and orchestration

    A shallow embedding of the calculation core of the late-interest
    engine:

    - [backend/app/models/data_models.py]
    - [backend/app/calculators/interest_rate_calculator.py]
    - [backend/app/calculators/late_interest_calculator.py]
    - [backend/app/calculators/allocation_calculator.py]
    - [dev/late_interest_engine.py] ([LateInterestEngine.run_complete_calculation])

    Currency and rates are Python [decimal.Decimal] values.  They are
    modelled as finite decimals (sign, coefficient, exponent) under the
    default arithmetic context, which the code never changes: 28
    significant digits, rounding mode ROUND_HALF_EVEN, exponent range
    [-999999, 999999], traps on InvalidOperation, DivisionByZero and
    Overflow.  Dates are proleptic Gregorian ordinals ([date.toordinal]).
    Exceptions are the [Raise] branch of an error monad.  Dictionaries
    that are only looked up are finite maps; dictionaries whose
    iteration order reaches the output are association lists in
    insertion order.

    The first part holds the model, the inputs of the scenarios and the
    specification-level definitions; the second part the properties,
    each numbered claim [Cn] being one theorem, and after them further
    properties [Xn] of the code. *)

From Stdlib Require Import ZArith Lia.
From stdpp Require Import base option list sorting gmap strings.

Local Open Scope Z_scope.

(** ** Exceptions *)

Inductive exn : Type :=
  | ValueError (msg : string)
  | TypeError
  | InvalidOperation
  | DivisionByZero
  | Overflow.

Inductive result (A : Type) : Type :=
  | Ok (a : A)
  | Raise (e : exn).
Arguments Ok {A} a.
Arguments Raise {A} e.

(** The error monad: [x ← m; k] runs [k] on the value of [m] and
    propagates an exception of [m]. *)
Global Instance result_ret : MRet result := fun A a => Ok a.
Global Instance result_bind : MBind result := fun A B k m =>
  match m with
  | Ok a => k a
  | Raise e => Raise e
  end.

(** An arithmetic error: the decimal signals, all subclasses of Python's
    [ArithmeticError]. *)
Definition arithmetic_error (e : exn) : bool :=
  match e with
  | ValueError _ | TypeError => false
  | InvalidOperation | DivisionByZero | Overflow => true
  end.

(** ** Decimal arithmetic under the default context *)

Module Dec.

(** [d_sign] is [true] for a negative number; the value is
    [(-1)^d_sign * d_int * 10^d_exp] with [0 <= d_int]. *)
Record Decimal : Type := mkDec { d_sign : bool; d_int : Z; d_exp : Z }.

Definition prec : Z := 28.
Definition Emax : Z := 999999.
Definition Emin : Z := -999999.
Definition Etiny : Z := Emin - prec + 1.
Definition Etop : Z := Emax - prec + 1.

(** Number of decimal digits of a coefficient ([len(self._int)]); the
    coefficient [0] has one digit. *)
Fixpoint ndigits_fuel (fuel : nat) (n : Z) : Z :=
  match fuel with
  | O => 1
  | S f => if n <? 10 then 1 else 1 + ndigits_fuel f (n / 10)
  end.

Definition ndigits (n : Z) : Z := ndigits_fuel (Z.to_nat (Z.log2 n)) n.

(** [self.adjusted()]: exponent of the most significant digit. *)
Definition adjusted (d : Decimal) : Z := d_exp d + ndigits (d_int d) - 1.

Definition is_zero (d : Decimal) : bool := d_int d =? 0.

(** Drop the last [k] digits of the coefficient [c] ([0 < k]), rounding
    half to even: the [_round_half_even] of the library, on numbers
    instead of digit strings. *)
Definition round_half_even (c k : Z) : Z :=
  let q := c / 10 ^ k in
  let r := c mod 10 ^ k in
  if (2 * r >? 10 ^ k) then q + 1
  else if (2 * r =? 10 ^ k) then (if Z.even q then q else q + 1)
  else q.

(** [Decimal._fix]: round to the context precision and check the
    exponent range ([clamp = 0]). *)
Definition _fix (d : Decimal) : result Decimal :=
  if is_zero d then
    Ok (mkDec (d_sign d) 0 (Z.min (Z.max (d_exp d) Etiny) Emax))
  else
    let exp_min0 := ndigits (d_int d) + d_exp d - prec in
    if exp_min0 >? Etop then Raise Overflow
    else
      let exp_min := Z.max exp_min0 Etiny in
      if d_exp d <? exp_min then
        let coeff := round_half_even (d_int d) (exp_min - d_exp d) in
        let '(coeff, exp_min) :=
          if ndigits coeff >? prec then (coeff / 10, exp_min + 1)
          else (coeff, exp_min) in
        if exp_min >? Etop then Raise Overflow
        else Ok (mkDec (d_sign d) coeff exp_min)
      else Ok d.

(** [Decimal(n)] for a Python int. *)
Definition of_Z (n : Z) : Decimal := mkDec (n <? 0) (Z.abs n) 0.

(** [Decimal('0')], [Decimal('1')], [Decimal('100')], [Decimal('365')]. *)
Definition zero : Decimal := of_Z 0.
Definition one : Decimal := of_Z 1.
Definition hundred : Decimal := of_Z 100.
Definition d365 : Decimal := of_Z 365.

(** The signed coefficient of [d] once written at exponent [e <= d_exp d]. *)
Definition signed_at (e : Z) (d : Decimal) : Z :=
  (if d_sign d then -1 else 1) * (d_int d * 10 ^ (d_exp d - e)).

(** [__add__]: the exact sum at the smaller exponent, then [_fix]. *)
Definition add (x y : Decimal) : result Decimal :=
  let e := Z.min (d_exp x) (d_exp y) in
  let s := signed_at e x + signed_at e y in
  if s =? 0 then _fix (mkDec (d_sign x && d_sign y) 0 e)
  else _fix (mkDec (s <? 0) (Z.abs s) e).

Definition neg (x : Decimal) : Decimal :=
  mkDec (negb (d_sign x)) (d_int x) (d_exp x).

(** [__sub__]: [self + (-other)]. *)
Definition sub (x y : Decimal) : result Decimal := add x (neg y).

(** [__mul__]. *)
Definition mul (x y : Decimal) : result Decimal :=
  _fix (mkDec (xorb (d_sign x) (d_sign y)) (d_int x * d_int y) (d_exp x + d_exp y)).

(** Strip trailing zeros of an exact quotient while the exponent is
    below the ideal one. *)
Fixpoint strip_to_ideal (fuel : nat) (coeff exp ideal : Z) : Z * Z :=
  match fuel with
  | O => (coeff, exp)
  | S f =>
      if (exp <? ideal) && (coeff mod 10 =? 0)
      then strip_to_ideal f (coeff / 10) (exp + 1) ideal
      else (coeff, exp)
  end.

(** [__truediv__]. *)
Definition div (x y : Decimal) : result Decimal :=
  let sign := xorb (d_sign x) (d_sign y) in
  if is_zero y then
    if is_zero x then Raise InvalidOperation else Raise DivisionByZero
  else if is_zero x then
    _fix (mkDec sign 0 (d_exp x - d_exp y))
  else
    let shift := ndigits (d_int y) - ndigits (d_int x) + prec + 1 in
    let exp := d_exp x - d_exp y - shift in
    let num := if 0 <=? shift then d_int x * 10 ^ shift else d_int x in
    let den := if 0 <=? shift then d_int y else d_int y * 10 ^ (- shift) in
    let coeff := num / den in
    let remainder := num mod den in
    if negb (remainder =? 0) then
      _fix (mkDec sign (if coeff mod 5 =? 0 then coeff + 1 else coeff) exp)
    else
      let '(coeff, exp) :=
        strip_to_ideal (Z.to_nat (d_exp x - d_exp y - exp)) coeff exp
                       (d_exp x - d_exp y) in
      _fix (mkDec sign coeff exp).

(** Numerical comparison ([_cmp]). *)
Definition compare (x y : Decimal) : comparison :=
  let e := Z.min (d_exp x) (d_exp y) in
  signed_at e x ?= signed_at e y.

Definition eqb (x y : Decimal) : bool :=
  match compare x y with Eq => true | _ => false end.
Definition ltb (x y : Decimal) : bool :=
  match compare x y with Lt => true | _ => false end.
Definition gtb (x y : Decimal) : bool := ltb y x.

(** [Decimal._rescale(exp, ROUND_HALF_EVEN)]. *)
Definition rescale (d : Decimal) (exp : Z) : Decimal :=
  if is_zero d then mkDec (d_sign d) 0 exp
  else if exp <=? d_exp d then mkDec (d_sign d) (d_int d * 10 ^ (d_exp d - exp)) exp
  else mkDec (d_sign d) (round_half_even (d_int d) (exp - d_exp d)) exp.

(** [self.quantize(q)] with no [rounding] argument: the context rounding
    (ROUND_HALF_EVEN) applies. *)
Definition quantize (d q : Decimal) : result Decimal :=
  if negb ((Etiny <=? d_exp q) && (d_exp q <=? Emax)) then Raise InvalidOperation
  else if is_zero d then _fix (mkDec (d_sign d) 0 (d_exp q))
  else if adjusted d >? Emax then Raise InvalidOperation
  else if adjusted d - d_exp q + 1 >? prec then Raise InvalidOperation
  else
    let ans := rescale d (d_exp q) in
    if adjusted ans >? Emax then Raise InvalidOperation
    else if ndigits (d_int ans) >? prec then Raise InvalidOperation
    else _fix ans.

(** [Decimal('0.1') ** n] for a Python int [n]: the exact power [1E-n],
    passed through [_fix]; [x ** 0] is [Decimal('1')]. *)
Definition pow_tenth (n : Z) : result Decimal :=
  if n =? 0 then Ok one else _fix (mkDec false 1 (- n)).

(** [sum(...)] of decimals: Python starts from the int [0]. *)
Definition sum (l : list Decimal) : result Decimal :=
  foldl (fun acc x => a ← acc; add a x) (Ok zero) l.

End Dec.

Abbreviation Decimal := Dec.Decimal.

(** A decimal literal [m * 10^e] with a signed mantissa, as
    [Decimal('...')] reads it. *)
Definition dec (m e : Z) : Decimal := Dec.mkDec (m <? 0) (Z.abs m) e.

(** ** Dates

    A [datetime.date] is its proleptic Gregorian ordinal; subtraction of
    dates followed by [.days] is subtraction of ordinals, and dates
    compare as their ordinals do. *)

Definition date : Type := Z.

Definition is_leap (y : Z) : bool :=
  (y mod 4 =? 0) && (negb (y mod 100 =? 0) || (y mod 400 =? 0)).

Definition days_before_year (y : Z) : Z :=
  let y' := y - 1 in y' * 365 + y' / 4 - y' / 100 + y' / 400.

Definition days_before_month (y m : Z) : Z :=
  nth (Z.to_nat m) [0; 0; 31; 59; 90; 120; 151; 181; 212; 243; 273; 304; 334] 0
  + (if (2 <? m) && is_leap y then 1 else 0).

(** [date(y, m, d)]. *)
Definition mkdate (y m d : Z) : date :=
  days_before_year y + days_before_month y m + d.

(** [(d2 - d1).days]. *)
Definition days (d2 d1 : date) : Z := d2 - d1.

(** ** Sorting and insertion-ordered dictionaries *)

(** [list.sort(key=...)] and [sorted(..., key=...)] are stable: equal
    keys keep their order.  [insert_sorted le x l] puts [x] in front of
    the first element [y] with [le x y]. *)
Fixpoint insert_sorted {A : Type} (le : A -> A -> bool) (x : A) (l : list A) : list A :=
  match l with
  | [] => [x]
  | y :: l' => if le x y then x :: y :: l' else y :: insert_sorted le x l'
  end.

Definition stable_sort {A : Type} (le : A -> A -> bool) (l : list A) : list A :=
  foldr (insert_sorted le) [] l.

(** [sorted(l, key=key)]. *)
Definition sort_by {A : Type} (key : A -> Z) (l : list A) : list A :=
  stable_sort (fun x y => key x <=? key y) l.

(** [sorted(l, key=key, reverse=True)]: descending, still stable. *)
Definition sort_by_reverse {A : Type} (key : A -> Z) (l : list A) : list A :=
  stable_sort (fun x y => key y <=? key x) l.

(** A Python [dict] whose iteration order is observed: the association
    list of its items in insertion order. *)
Fixpoint dict_get {K V : Type} `{EqDecision K} (k : K) (d : list (K * V)) : option V :=
  match d with
  | [] => None
  | (k', v) :: d' => if decide (k = k') then Some v else dict_get k d'
  end.

(** [d[k] = v]: an existing key keeps its place. *)
Fixpoint dict_set {K V : Type} `{EqDecision K} (k : K) (v : V) (d : list (K * V)) : list (K * V) :=
  match d with
  | [] => [(k, v)]
  | (k', v') :: d' =>
      if decide (k = k') then (k, v) :: d' else (k', v') :: dict_set k v d'
  end.

(** ** Data models ([data_models.py]) *)

Inductive InterestCompounding : Type := SIMPLE | COMPOUND.
Inductive InterestBase : Type := PRIME | FLAT.
Inductive EndDateCalculation : Type := ISSUE_DATE | DUE_DATE.

Record PrimeRateChange : Type := mkPrimeRateChange {
  effective_date : date;
  rate : Decimal
}.

Record FundAssumptions : Type := mkFundAssumptions {
  fund_name : string;
  late_interest_compounding : InterestCompounding;
  late_interest_base : InterestBase;
  late_spread : Decimal;
  end_date_calculation : EndDateCalculation;
  mgmt_fee_allocated_interest : bool;
  allocated_to_all_existing_lps : bool;
  calc_rounding : Z;
  sum_rounding : Z;
  prime_rate_history : list PrimeRateChange;
  flat_rate : option Decimal
}.

Record Partner : Type := mkPartner {
  name : string;
  issue_date : date;
  commitment : Decimal;
  close_number : Z
}.

Record CapitalCall : Type := mkCapitalCall {
  call_number : Z;
  due_date : date;
  call_percentage : Decimal
}.

(** [CapitalCall.get_call_amount]. *)
Definition get_call_amount (self : CapitalCall) (commitment : Decimal) : result Decimal :=
  pct ← Dec.div (call_percentage self) Dec.hundred;
  Dec.mul commitment pct.

Record LateInterestDetail : Type := mkLateInterestDetail {
  lid_call_number : Z;
  lid_due_date : date;
  lid_call_percentage : Decimal;
  capital_amount : Decimal;
  late_interest : Decimal;
  days_late : Z;
  effective_rate : Decimal
}.

Record NewLPCalculation : Type := mkNewLPCalculation {
  nlp_partner_name : string;
  nlp_issue_date : date;
  nlp_commitment : Decimal;
  nlp_close_number : Z;
  total_catch_up : Decimal;
  total_late_interest_due : Decimal;
  breakdown_by_capital_call : list LateInterestDetail
}.

Record ExistingLPAllocation : Type := mkExistingLPAllocation {
  partner_name : string;
  ela_commitment : Decimal;
  ela_close_number : Z;
  total_allocation : Decimal;
  allocation_by_admitting_close : list (Z * Decimal)
}.

(** ** [interest_rate_calculator.py] *)

(** The accrual of one period, written three times in the source:
    [principal * (rate / Decimal('100')) * (Decimal(days) / Decimal('365'))]. *)
Definition period_interest (principal rate : Decimal) (ndays : Z) : result Decimal :=
  r ← Dec.div rate Dec.hundred;
  pr ← Dec.mul principal r;
  t ← Dec.div (Dec.of_Z ndays) Dec.d365;
  Dec.mul pr t.

(** The keys of [periods_per_year]. *)
Inductive frequency : Type := daily | monthly | quarterly | annual.

Definition periods_per_year (f : frequency) : Z :=
  match f with
  | daily => 365
  | monthly => 12
  | quarterly => 4
  | annual => 1
  end.

Module InterestRateCalculator.

Record t : Type := mk {
  compounding : InterestCompounding;
  is_flat_rate : bool;
  flat_rate : option Decimal;
  rate_history : option (list PrimeRateChange);
  spread : Decimal
}.

(** [__init__]. *)
Definition __init__ (compounding : InterestCompounding)
    (rate_history : option (list PrimeRateChange))
    (spread flat_rate : option Decimal) : result t :=
  match flat_rate with
  | Some fr => Ok (mk compounding true (Some fr) None Dec.zero)
  | None =>
      match rate_history with
      | Some h =>
          Ok (mk compounding false None
                (Some (sort_by_reverse effective_date h))
                (match spread with
                 | Some s => if Dec.is_zero s then Dec.zero else s
                 | None => Dec.zero
                 end))
      | None => Raise (ValueError "Must provide either rate_history or flat_rate")
      end
  end.

(** The [for] loop of [get_rate_at_date]: the first entry of the
    (descending) history that is not after the target date. *)
Fixpoint first_applicable (history : list PrimeRateChange) (target_date : date)
    : option PrimeRateChange :=
  match history with
  | [] => None
  | rate_change :: rest =>
      if effective_date rate_change <=? target_date then Some rate_change
      else first_applicable rest target_date
  end.

Definition get_rate_at_date (self : t) (target_date : date) : result Decimal :=
  if is_flat_rate self then
    match flat_rate self with
    | Some fr => Ok fr
    | None => Raise TypeError
    end
  else
    match rate_history self with
    | None => Raise TypeError
    | Some history =>
        match first_applicable history target_date with
        | Some rate_change => Dec.add (rate rate_change) (spread self)
        | None =>
            match last history with
            | Some oldest => Dec.add (rate oldest) (spread self)
            | None => Raise (ValueError "No rate history available")
            end
        end
    end.

(** [rate_changes_in_period] of both accrual methods. *)
Definition rate_changes_in_period (self : t) (start_date end_date : date)
    : result (list PrimeRateChange) :=
  match rate_history self with
  | None => Raise TypeError
  | Some history =>
      Ok (sort_by effective_date
            (filter (fun rc => start_date < effective_date rc <= end_date) history))
  end.

(** The segment loop of [_calculate_simple_interest]; the state is
    [(total_interest, current_date)]. *)
Fixpoint simple_segments (self : t) (principal : Decimal)
    (changes : list PrimeRateChange) (total_interest : Decimal)
    (current_date : date) : result (Decimal * date) :=
  match changes with
  | [] => Ok (total_interest, current_date)
  | rate_change :: rest =>
      let segment_days := days (effective_date rate_change) current_date in
      total_interest ←
        (if 0 <? segment_days then
           rate ← get_rate_at_date self current_date;
           segment_interest ← period_interest principal rate segment_days;
           Dec.add total_interest segment_interest
         else Ok total_interest);
      simple_segments self principal rest total_interest (effective_date rate_change)
  end.

Definition _calculate_simple_interest (self : t) (principal : Decimal)
    (start_date end_date : date) : result (Decimal * Decimal) :=
  let total_days := days end_date start_date + 1 in
  if total_days <=? 0 then Ok (Dec.zero, Dec.zero)
  else if is_flat_rate self then
    match flat_rate self with
    | None => Raise TypeError
    | Some rate =>
        interest ← period_interest principal rate total_days;
        Ok (interest, rate)
    end
  else
    changes ← rate_changes_in_period self start_date end_date;
    '(total_interest, current_date) ←
      simple_segments self principal changes Dec.zero start_date;
    let final_days := days end_date current_date + 1 in
    total_interest ←
      (if 0 <? final_days then
         rate ← get_rate_at_date self current_date;
         segment_interest ← period_interest principal rate final_days;
         Dec.add total_interest segment_interest
       else Ok total_interest);
    q ← Dec.div total_interest principal;
    y ← Dec.div Dec.d365 (Dec.of_Z total_days);
    qy ← Dec.mul q y;
    weighted_avg_rate ← Dec.mul qy Dec.hundred;
    Ok (total_interest, weighted_avg_rate).

Section Compound.

(** [x ** y] for a fractional exponent is the library's correctly
    rounded [exp(y * ln x)]; it is a parameter of the compound path. *)
Context (dec_power : Decimal -> Decimal -> result Decimal).

(** [balance * ((Decimal('1') + rate / n) ** (n * t))], with [rate] the
    percentage already divided by 100. *)
Definition grow (balance rate n t : Decimal) : result Decimal :=
  rn ← Dec.div rate n;
  base ← Dec.add Dec.one rn;
  e ← Dec.mul n t;
  factor ← dec_power base e;
  Dec.mul balance factor.

Fixpoint compound_segments (self : t) (n : Decimal)
    (changes : list PrimeRateChange) (current_balance : Decimal)
    (current_date : date) : result (Decimal * date) :=
  match changes with
  | [] => Ok (current_balance, current_date)
  | rate_change :: rest =>
      let segment_days := days (effective_date rate_change) current_date in
      current_balance ←
        (if 0 <? segment_days then
           r ← get_rate_at_date self current_date;
           rate ← Dec.div r Dec.hundred;
           t ← Dec.div (Dec.of_Z segment_days) Dec.d365;
           grow current_balance rate n t
         else Ok current_balance);
      compound_segments self n rest current_balance (effective_date rate_change)
  end.

Definition _calculate_compound_interest (self : t) (principal : Decimal)
    (start_date end_date : date) (compounding_frequency : frequency)
    : result (Decimal * Decimal) :=
  let total_days := days end_date start_date + 1 in
  if total_days <=? 0 then Ok (Dec.zero, Dec.zero)
  else
    let n := Dec.of_Z (periods_per_year compounding_frequency) in
    if is_flat_rate self then
      match flat_rate self with
      | None => Raise TypeError
      | Some fr =>
          rate ← Dec.div fr Dec.hundred;
          t ← Dec.div (Dec.of_Z total_days) Dec.d365;
          amount ← grow principal rate n t;
          interest ← Dec.sub amount principal;
          Ok (interest, fr)
      end
    else
      changes ← rate_changes_in_period self start_date end_date;
      '(current_balance, current_date) ←
        compound_segments self n changes principal start_date;
      let final_days := days end_date current_date + 1 in
      current_balance ←
        (if 0 <? final_days then
           r ← get_rate_at_date self current_date;
           rate ← Dec.div r Dec.hundred;
           t ← Dec.div (Dec.of_Z final_days) Dec.d365;
           grow current_balance rate n t
         else Ok current_balance);
      interest ← Dec.sub current_balance principal;
      t_total ← Dec.div (Dec.of_Z total_days) Dec.d365;
      ratio ← Dec.div current_balance principal;
      inv ← Dec.div Dec.one t_total;
      p ← dec_power ratio inv;
      p1 ← Dec.sub p Dec.one;
      effective_rate ← Dec.mul p1 Dec.hundred;
      Ok (interest, effective_rate).

Definition calculate_interest (self : t) (principal : Decimal)
    (start_date end_date : date) : result (Decimal * Decimal) :=
  if end_date <? start_date then Raise (ValueError "End date must be after start date")
  else
    match compounding self with
    | SIMPLE => _calculate_simple_interest self principal start_date end_date
    | COMPOUND => _calculate_compound_interest self principal start_date end_date daily
    end.

End Compound.

End InterestRateCalculator.

(** ** The rounding helper

    [_round_amount] has the same body in [LateInterestCalculator] and in
    [AllocationCalculator]; [quantize] is called without a [rounding]
    argument. *)
Definition _round_amount (amount : Decimal) (decimal_places : Z) : result Decimal :=
  if decimal_places =? 0 then Dec.quantize amount Dec.one
  else
    quantizer ← Dec.pow_tenth decimal_places;
    Dec.quantize amount quantizer.

(** ** [late_interest_calculator.py] *)

Module LateInterestCalculator.

Record t : Type := mk {
  assumptions : FundAssumptions;
  rate_calculator : InterestRateCalculator.t
}.

Definition __init__ (assumptions : FundAssumptions) : result t :=
  rc ←
    match late_interest_base assumptions with
    | PRIME =>
        InterestRateCalculator.__init__
          (late_interest_compounding assumptions)
          (Some (prime_rate_history assumptions))
          (Some (late_spread assumptions))
          None
    | FLAT =>
        InterestRateCalculator.__init__
          (late_interest_compounding assumptions)
          None None
          (flat_rate assumptions)
    end;
  Ok (mk assumptions rc).

(** [missed_calls], filtered and then sorted by call number. *)
Definition missed_calls (new_lp : Partner) (capital_calls : list CapitalCall)
    : list CapitalCall :=
  sort_by call_number
    (filter (fun call => due_date call < issue_date new_lp) capital_calls).

Section Compound.

Context (dec_power : Decimal -> Decimal -> result Decimal).

Definition _calculate_late_interest_for_call (self : t) (new_lp : Partner)
    (call : CapitalCall) : result LateInterestDetail :=
  capital_amount ← get_call_amount call (commitment new_lp);
  let end_date :=
    match end_date_calculation (assumptions self) with
    | ISSUE_DATE => issue_date new_lp
    | DUE_DATE => due_date call
    end in
  let days_late := days end_date (due_date call) in
  if days_late <=? 0 then
    Ok (mkLateInterestDetail (call_number call) (due_date call)
          (call_percentage call) capital_amount Dec.zero 0 Dec.zero)
  else
    '(late_interest, effective_rate) ←
      InterestRateCalculator.calculate_interest dec_power
        (rate_calculator self) capital_amount (due_date call) end_date;
    late_interest ← _round_amount late_interest (calc_rounding (assumptions self));
    effective_rate ← _round_amount effective_rate (calc_rounding (assumptions self));
    capital_amount ← _round_amount capital_amount (calc_rounding (assumptions self));
    Ok (mkLateInterestDetail (call_number call) (due_date call)
          (call_percentage call) capital_amount late_interest days_late
          effective_rate).

(** The loop over the missed calls; the state is
    [(breakdown, total_catch_up, total_late_interest)]. *)
Fixpoint breakdown_loop (self : t) (new_lp : Partner) (calls : list CapitalCall)
    (breakdown : list LateInterestDetail)
    (total_catch_up total_late_interest : Decimal)
    : result (list LateInterestDetail * Decimal * Decimal) :=
  match calls with
  | [] => Ok (breakdown, total_catch_up, total_late_interest)
  | call :: rest =>
      detail ← _calculate_late_interest_for_call self new_lp call;
      total_catch_up ← Dec.add total_catch_up (capital_amount detail);
      total_late_interest ← Dec.add total_late_interest (late_interest detail);
      breakdown_loop self new_lp rest (breakdown ++ [detail])
        total_catch_up total_late_interest
  end.

Definition calculate_late_interest_for_new_lp (self : t) (new_lp : Partner)
    (capital_calls : list CapitalCall) : result NewLPCalculation :=
  '(breakdown, total_catch_up, total_late_interest) ←
    breakdown_loop self new_lp (missed_calls new_lp capital_calls)
      [] Dec.zero Dec.zero;
  total_catch_up ← _round_amount total_catch_up (sum_rounding (assumptions self));
  total_late_interest ←
    _round_amount total_late_interest (sum_rounding (assumptions self));
  Ok (mkNewLPCalculation (name new_lp) (issue_date new_lp) (commitment new_lp)
        (close_number new_lp) total_catch_up total_late_interest breakdown).

(** [calculate_for_multiple_new_lps]: the list comprehension evaluates
    the LPs in order and stops at the first exception. *)
Fixpoint calculate_for_multiple_new_lps (self : t) (new_lps : list Partner)
    (capital_calls : list CapitalCall) : result (list NewLPCalculation) :=
  match new_lps with
  | [] => Ok []
  | lp :: rest =>
      calc ← calculate_late_interest_for_new_lp self lp capital_calls;
      calcs ← calculate_for_multiple_new_lps self rest capital_calls;
      Ok (calc :: calcs)
  end.

End Compound.

End LateInterestCalculator.

(** ** [allocation_calculator.py] *)

Module AllocationCalculator.

Record t : Type := mk { assumptions : FundAssumptions }.

Definition existing_partners (all_partners : list Partner)
    (admitting_close_number : Z) : list Partner :=
  filter (fun p => close_number p < admitting_close_number) all_partners.

(** [sum(new_lp.total_late_interest_due for new_lp in new_lps
         if new_lp.close_number == admitting_close_number)]. *)
Definition total_late_interest (new_lps : list NewLPCalculation)
    (admitting_close_number : Z) : result Decimal :=
  Dec.sum (map total_late_interest_due
             (filter (fun c => nlp_close_number c = admitting_close_number) new_lps)).

(** The allocation loop shared by both contracts: [basis] gives the
    commitment that enters the pro-rata share; the state is
    [(allocations, total_allocated)]. *)
Fixpoint allocation_loop (self : t) (basis : Partner -> Decimal)
    (total_late_interest total_existing_commitment : Decimal)
    (admitting_close_number : Z) (partners : list Partner)
    (allocations : list ExistingLPAllocation) (total_allocated : Decimal)
    : result (list ExistingLPAllocation * Decimal) :=
  match partners with
  | [] => Ok (allocations, total_allocated)
  | partner :: rest =>
      pro_rata_percentage ← Dec.div (basis partner) total_existing_commitment;
      allocation_amount ← Dec.mul total_late_interest pro_rata_percentage;
      allocation_amount ←
        _round_amount allocation_amount (calc_rounding (assumptions self));
      let allocation :=
        mkExistingLPAllocation (name partner) (commitment partner)
          (close_number partner) allocation_amount
          [(admitting_close_number, allocation_amount)] in
      total_allocated ← Dec.add total_allocated allocation_amount;
      allocation_loop self basis total_late_interest total_existing_commitment
        admitting_close_number rest (allocations ++ [allocation]) total_allocated
  end.

(** The body common to [calculate_allocations] and
    [calculate_allocations_with_increases], which differ in [basis] only. *)
Definition allocate (self : t) (basis : Partner -> Decimal)
    (new_lps : list NewLPCalculation) (all_partners : list Partner)
    (admitting_close_number : Z)
    : result (list ExistingLPAllocation * Decimal) :=
  let existing := existing_partners all_partners admitting_close_number in
  match existing with
  | [] => Ok ([], Dec.zero)
  | _ :: _ =>
      total_late_interest ← total_late_interest new_lps admitting_close_number;
      if Dec.eqb total_late_interest Dec.zero then Ok ([], Dec.zero)
      else
        total_existing_commitment ← Dec.sum (map basis existing);
        if Dec.eqb total_existing_commitment Dec.zero
        then Raise (ValueError "Total existing commitment cannot be zero")
        else
          '(allocations, total_allocated) ←
            allocation_loop self basis total_late_interest
              total_existing_commitment admitting_close_number existing
              [] Dec.zero;
          total_allocated ←
            _round_amount total_allocated (sum_rounding (assumptions self));
          Ok (allocations, total_allocated)
  end.

Definition calculate_allocations (self : t) (new_lps : list NewLPCalculation)
    (all_partners : list Partner) (admitting_close_number : Z)
    : result (list ExistingLPAllocation * Decimal) :=
  allocate self commitment new_lps all_partners admitting_close_number.

(** The local function [get_allocation_commitment]. *)
Definition get_allocation_commitment (commitment_increases : gmap string Decimal)
    (partner : Partner) : Decimal :=
  match commitment_increases !! name partner with
  | Some original => original
  | None => commitment partner
  end.

Definition calculate_allocations_with_increases (self : t)
    (new_lps : list NewLPCalculation) (all_partners : list Partner)
    (commitment_increases : gmap string Decimal) (admitting_close_number : Z)
    : result (list ExistingLPAllocation * Decimal) :=
  allocate self (get_allocation_commitment commitment_increases)
    new_lps all_partners admitting_close_number.

(** One step of the aggregation: the record of [allocation] at close
    [close_num] is added to the entry of its partner, created on first
    sight. *)
Definition aggregate_one (close_num : Z) (allocation : ExistingLPAllocation)
    (partner_allocations : list (string * ExistingLPAllocation))
    : result (list (string * ExistingLPAllocation)) :=
  let key := partner_name allocation in
  let partner_alloc :=
    match dict_get key partner_allocations with
    | Some pa => pa
    | None =>
        mkExistingLPAllocation key (ela_commitment allocation)
          (ela_close_number allocation) Dec.zero []
    end in
  total ← Dec.add (total_allocation partner_alloc) (total_allocation allocation);
  Ok (dict_set key
        (mkExistingLPAllocation (partner_name partner_alloc)
           (ela_commitment partner_alloc) (ela_close_number partner_alloc) total
           (dict_set close_num (total_allocation allocation)
              (allocation_by_admitting_close partner_alloc)))
        partner_allocations).

Fixpoint aggregate_close (close_num : Z) (allocations : list ExistingLPAllocation)
    (partner_allocations : list (string * ExistingLPAllocation))
    : result (list (string * ExistingLPAllocation)) :=
  match allocations with
  | [] => Ok partner_allocations
  | allocation :: rest =>
      pa ← aggregate_one close_num allocation partner_allocations;
      aggregate_close close_num rest pa
  end.

Fixpoint aggregate_closes (items : list (Z * list ExistingLPAllocation))
    (partner_allocations : list (string * ExistingLPAllocation))
    : result (list (string * ExistingLPAllocation)) :=
  match items with
  | [] => Ok partner_allocations
  | (close_num, allocations) :: rest =>
      pa ← aggregate_close close_num allocations partner_allocations;
      aggregate_closes rest pa
  end.

Fixpoint round_totals (self : t) (values : list ExistingLPAllocation)
    : result (list ExistingLPAllocation) :=
  match values with
  | [] => Ok []
  | partner_alloc :: rest =>
      total ← _round_amount (total_allocation partner_alloc)
                (sum_rounding (assumptions self));
      rest ← round_totals self rest;
      Ok (mkExistingLPAllocation (partner_name partner_alloc)
            (ela_commitment partner_alloc) (ela_close_number partner_alloc) total
            (allocation_by_admitting_close partner_alloc) :: rest)
  end.

Definition aggregate_allocations_across_closes (self : t)
    (allocations_by_close : list (Z * list ExistingLPAllocation))
    : result (list ExistingLPAllocation) :=
  partner_allocations ← aggregate_closes allocations_by_close [];
  round_totals self (map snd partner_allocations).

End AllocationCalculator.

(** ** [late_interest_engine.py]: [LateInterestEngine]

    [run_complete_calculation] is modelled with [verbose=False] (the
    console tables are not part of the result).  The dictionaries of
    the output keep the values whose [str(...)] the source stores, and
    the clock ([date.today()]) is an argument. *)

Module LateInterestEngine.

Record t : Type := mk {
  assumptions : FundAssumptions;
  late_calc : LateInterestCalculator.t;
  alloc_calc : AllocationCalculator.t
}.

Definition __init__ (assumptions : FundAssumptions) : result t :=
  late_calc ← LateInterestCalculator.__init__ assumptions;
  Ok (mk assumptions late_calc (AllocationCalculator.mk assumptions)).

(** An entry of [summary_by_close]. *)
Record CloseSummary : Type := mkCloseSummary {
  cs_close_number : Z;
  new_lps_count : nat;
  existing_lps_count : nat;
  cs_total_collected : Decimal;
  cs_total_allocated : Decimal;
  difference : Decimal
}.

Record EngineOutput : Type := mkEngineOutput {
  eo_fund_name : string;
  calculation_date : date;
  total_late_interest_collected : Decimal;
  total_late_interest_allocated : Decimal;
  new_lps : list NewLPCalculation;
  existing_lps : list ExistingLPAllocation;
  summary_by_close : list CloseSummary;
  settings : FundAssumptions
}.

(** The two list objects the caller passes in; the function returns
    their final contents next to its result. *)
Record Lists : Type := mkLists {
  partners : list Partner;
  capital_calls : list CapitalCall
}.

(** [partners_by_close], filled in the order of the (sorted) list. *)
Definition group_by_close (partners : list Partner) : gmap Z (list Partner) :=
  foldl (fun (m : gmap Z (list Partner)) p =>
           <[close_number p := default [] (m !! close_number p) ++ [p]]> m)
        ∅ partners.

(** [sorted(partners_by_close.keys())]. *)
Definition all_closes (partners_by_close : gmap Z (list Partner)) : list Z :=
  sort_by id (elements (dom partners_by_close)).

(** [all_closes[1:]]. *)
Definition closes_to_process (partners_by_close : gmap Z (list Partner)) : list Z :=
  drop 1 (all_closes partners_by_close).

(** The accumulators of the loop over the closes. *)
Record Totals : Type := mkTotals {
  all_new_lp_results : list NewLPCalculation;
  all_allocations_by_close : list (Z * list ExistingLPAllocation);
  grand_total_collected : Decimal;
  grand_total_allocated : Decimal;
  close_summaries : list CloseSummary
}.

Section Compound.

Context (dec_power : Decimal -> Decimal -> result Decimal).

(** The loop over the new LPs of one close; the state is
    [(new_lp_calcs, total_collected, all_new_lp_results)]. *)
Fixpoint new_lp_loop (self : t) (capital_calls : list CapitalCall)
    (new_lps_at_close : list Partner) (new_lp_calcs : list NewLPCalculation)
    (total_collected : Decimal) (results : list NewLPCalculation)
    : result (list NewLPCalculation * Decimal * list NewLPCalculation) :=
  match new_lps_at_close with
  | [] => Ok (new_lp_calcs, total_collected, results)
  | new_lp :: rest =>
      calc ← LateInterestCalculator.calculate_late_interest_for_new_lp dec_power
                (late_calc self) new_lp capital_calls;
      total_collected ← Dec.add total_collected (total_late_interest_due calc);
      new_lp_loop self capital_calls rest (new_lp_calcs ++ [calc])
        total_collected (results ++ [calc])
  end.

(** The body of the loop over [closes_to_process];
    [if commitment_increases:] holds for a dictionary that is neither
    [None] nor empty. *)
Definition process_close (self : t) (lists : Lists)
    (partners_by_close : gmap Z (list Partner))
    (commitment_increases : option (gmap string Decimal))
    (acc : Totals) (close_num : Z) : result Totals :=
  let new_lps_at_close := default [] (partners_by_close !! close_num) in
  let existing_partners :=
    filter (fun p => close_number p < close_num) (partners lists) in
  '(new_lp_calcs, total_collected, results) ←
    new_lp_loop self (capital_calls lists) new_lps_at_close [] Dec.zero
      (all_new_lp_results acc);
  grand_total_collected ← Dec.add (grand_total_collected acc) total_collected;
  '(by_close, total_allocated, grand_total_allocated) ←
    (match existing_partners with
     | _ :: _ =>
         if Dec.gtb total_collected Dec.zero then
           '(allocations, total_allocated) ←
             (match commitment_increases with
              | Some m =>
                  if negb (bool_decide (m = ∅)) then
                    AllocationCalculator.calculate_allocations_with_increases
                      (alloc_calc self) new_lp_calcs (partners lists) m close_num
                  else
                    AllocationCalculator.calculate_allocations
                      (alloc_calc self) new_lp_calcs (partners lists) close_num
              | None =>
                  AllocationCalculator.calculate_allocations
                    (alloc_calc self) new_lp_calcs (partners lists) close_num
              end);
           grand_total_allocated ←
             Dec.add (grand_total_allocated acc) total_allocated;
           Ok (dict_set close_num allocations (all_allocations_by_close acc),
               total_allocated, grand_total_allocated)
         else Ok (all_allocations_by_close acc, Dec.zero, grand_total_allocated acc)
     | [] => Ok (all_allocations_by_close acc, Dec.zero, grand_total_allocated acc)
     end);
  diff ← Dec.sub total_collected total_allocated;
  Ok (mkTotals results by_close grand_total_collected grand_total_allocated
        (close_summaries acc ++
           [mkCloseSummary close_num (length new_lps_at_close)
              (length existing_partners) total_collected total_allocated diff])).

Fixpoint closes_loop (self : t) (lists : Lists)
    (partners_by_close : gmap Z (list Partner))
    (commitment_increases : option (gmap string Decimal))
    (closes : list Z) (acc : Totals) : result Totals :=
  match closes with
  | [] => Ok acc
  | close_num :: rest =>
      acc ← process_close self lists partners_by_close commitment_increases
              acc close_num;
      closes_loop self lists partners_by_close commitment_increases rest acc
  end.

(** The part of [run_complete_calculation] after [partners.sort(...)]. *)
Definition calculation (self : t) (today : date) (lists : Lists)
    (commitment_increases : option (gmap string Decimal)) : result EngineOutput :=
  let partners_by_close := group_by_close (partners lists) in
  acc ← closes_loop self lists partners_by_close commitment_increases
          (closes_to_process partners_by_close)
          (mkTotals [] [] Dec.zero Dec.zero []);
  aggregated_allocations ←
    (match all_allocations_by_close acc with
     | [] => Ok []
     | _ :: _ =>
         AllocationCalculator.aggregate_allocations_across_closes
           (alloc_calc self) (all_allocations_by_close acc)
     end);
  Ok (mkEngineOutput (fund_name (assumptions self)) today
        (grand_total_collected acc) (grand_total_allocated acc)
        (all_new_lp_results acc) aggregated_allocations (close_summaries acc)
        (assumptions self)).

(** [run_complete_calculation]: the caller's [partners] list is sorted
    in place first; the lists as the call leaves them are returned with
    the result. *)
Definition run_complete_calculation (self : t) (today : date) (lists : Lists)
    (commitment_increases : option (gmap string Decimal))
    : Lists * result EngineOutput :=
  let lists :=
    mkLists (sort_by close_number (partners lists)) (capital_calls lists) in
  (lists, calculation self today lists commitment_increases).

End Compound.

End LateInterestEngine.

(** ** Inputs of the scenarios *)

Definition scenario1_start : date := mkdate 2022 4 20.
Definition scenario1_end : date := mkdate 2025 10 31.

(** The flat-rate, simple-interest accrual of scenario 1 at 9.25%. *)
Definition scenario1_interest : result (Decimal * Decimal) :=
  self ← InterestRateCalculator.__init__ SIMPLE None None (Some (dec 925 (-2)));
  InterestRateCalculator._calculate_simple_interest self (dec 1000000 0)
    scenario1_start scenario1_end.

(** Assumptions with simple interest through the issue date, rounding to
    the cent; prime 7.5% + 2% spread, or a flat 9.5%. *)
Definition zero_call_assumptions (base : InterestBase) : FundAssumptions :=
  mkFundAssumptions "Fund" SIMPLE base (dec 20 (-1)) ISSUE_DATE false true 2 2
    [mkPrimeRateChange (mkdate 2020 1 1) (dec 75 (-1))]
    (match base with PRIME => None | FLAT => Some (dec 95 (-1)) end).

Definition zero_call_lp : Partner :=
  mkPartner "New LP" (mkdate 2025 10 31) (dec 1000000 0) 2.

Definition zero_call : CapitalCall :=
  mkCapitalCall 1 (mkdate 2022 4 20) (dec 0 0).

(** A two-entry prime history (7.5% from 2022-01-01, 8% from 2023-01-01)
    with a 2% spread, and the calculator built from it. *)
Definition two_rate_history : list PrimeRateChange :=
  [mkPrimeRateChange (mkdate 2022 1 1) (dec 75 (-1));
   mkPrimeRateChange (mkdate 2023 1 1) (dec 80 (-1))].

Definition two_rate_sorted : list PrimeRateChange :=
  [mkPrimeRateChange (mkdate 2023 1 1) (dec 80 (-1));
   mkPrimeRateChange (mkdate 2022 1 1) (dec 75 (-1))].

Definition two_rate_calculator : InterestRateCalculator.t :=
  InterestRateCalculator.mk SIMPLE false None (Some two_rate_sorted) (dec 20 (-1)).

(** An accrual on $1,000,000 from 2022-06-01 through 2023-06-30, across
    the rate change of 2023-01-01. *)
Definition two_rate_start : date := mkdate 2022 6 1.
Definition two_rate_end : date := mkdate 2023 6 30.

(** The examples all accrue simple interest; the library power they
    never reach is this stand-in. *)
Definition no_power (x y : Decimal) : result Decimal := Raise InvalidOperation.

(** The late-interest calculator of the PRIME fund above, as [__init__]
    builds it. *)
Definition prime_calculator : LateInterestCalculator.t :=
  LateInterestCalculator.mk (zero_call_assumptions PRIME)
    (InterestRateCalculator.mk SIMPLE false None
       (Some [mkPrimeRateChange (mkdate 2020 1 1) (dec 75 (-1))])
       (dec 20 (-1))).

(** An LP admitted on 2022-07-01, and three calls of which the second
    falls due on that very day. *)
Definition boundary_lp : Partner :=
  mkPartner "New Investor LLC" (mkdate 2022 7 1) (dec 3000000 0) 2.

Definition boundary_call : CapitalCall :=
  mkCapitalCall 2 (mkdate 2022 7 1) (dec 15 0).

Definition boundary_calls : list CapitalCall :=
  [mkCapitalCall 3 (mkdate 2022 12 15) (dec 20 0);
   boundary_call;
   mkCapitalCall 1 (mkdate 2022 1 15) (dec 10 0)].

(** Scenario 3: partner A committed $1,000,000 at close 1 and raises it
    to $2,000,000 at close 2; B committed $2,000,000 at close 1; $9,000
    of late interest is collected at close 2. *)
Definition increase_partners : list Partner :=
  [mkPartner "Partner A" (mkdate 2022 4 1) (dec 2000000 0) 1;
   mkPartner "Partner B" (mkdate 2022 4 1) (dec 2000000 0) 1;
   mkPartner "Partner C" (mkdate 2023 6 1) (dec 500000 0) 2].

Definition increase_new_lps : list NewLPCalculation :=
  [mkNewLPCalculation "Partner C" (mkdate 2023 6 1) (dec 500000 0) 2
     (dec 20000000 (-2)) (dec 900000 (-2)) []].

Definition increase_map : gmap string Decimal :=
  {[ "Partner A" := dec 1000000 0 ]}.

Definition increase_allocations : list ExistingLPAllocation :=
  [mkExistingLPAllocation "Partner A" (dec 2000000 0) 1 (dec 300000 (-2))
     [(2, dec 300000 (-2))];
   mkExistingLPAllocation "Partner B" (dec 2000000 0) 1 (dec 600000 (-2))
     [(2, dec 600000 (-2))]].




Definition cent_calculator : AllocationCalculator.t :=
  AllocationCalculator.mk (zero_call_assumptions PRIME).

(** ** The variable-rate simple accrual, as the design words it

    The interval is cut at the boundary dates, the effective dates [d]
    of the history with [start_date < d <= end_date], in ascending
    order.  A segment is a pair of its first day and its day count: a
    segment that ends at a boundary counts the days up to the boundary
    (exclusive), the last one counts through [end_date] (inclusive).
    Every segment with a positive day count accrues at the rate
    effective on its first day, and the interests are summed up in
    order.  The rate effective on a day is that of the first entry of
    the history (kept latest first) that took effect on or before that
    day, or of the oldest entry when the day precedes them all, plus
    the spread; a segment contributes
    [principal * (rate / 100) * (days / 365)]. *)

Definition rate_in_effect (history : list PrimeRateChange) (spread : Decimal)
    (day : date) : result Decimal :=
  match filter (fun rc => effective_date rc <= day) history with
  | rc :: _ => Dec.add (rate rc) spread
  | [] =>
      match last history with
      | Some oldest => Dec.add (rate oldest) spread
      | None => Raise (ValueError "No rate history available")
      end
  end.

Definition segment_contribution (principal rate : Decimal) (ndays : Z)
    : result Decimal :=
  fraction ← Dec.div rate Dec.hundred;
  per_year ← Dec.mul principal fraction;
  years ← Dec.div (Dec.of_Z ndays) Dec.d365;
  Dec.mul per_year years.

Definition boundaries (history : list PrimeRateChange) (start_date end_date : date)
    : list date :=
  map effective_date
    (sort_by effective_date
       (filter (fun rc => start_date < effective_date rc <= end_date) history)).

Fixpoint segments (current : date) (bs : list date) (end_date : date)
    : list (date * Z) :=
  match bs with
  | [] => [(current, days end_date current + 1)]
  | b :: bs' => (current, days b current) :: segments b bs' end_date
  end.

Fixpoint accrue_segments (history : list PrimeRateChange)
    (spread principal : Decimal) (segs : list (date * Z)) (total : Decimal)
    : result Decimal :=
  match segs with
  | [] => Ok total
  | (first_day, ndays) :: rest =>
      if 0 <? ndays then
        rate ← rate_in_effect history spread first_day;
        interest ← segment_contribution principal rate ndays;
        total ← Dec.add total interest;
        accrue_segments history spread principal rest total
      else accrue_segments history spread principal rest total
  end.

(** [(total_interest / principal) * (365 / total_days) * 100]. *)
Definition implied_flat_rate (total_interest principal : Decimal) (total_days : Z)
    : result Decimal :=
  q ← Dec.div total_interest principal;
  y ← Dec.div Dec.d365 (Dec.of_Z total_days);
  qy ← Dec.mul q y;
  Dec.mul qy Dec.hundred.

Definition segmented_simple_interest (self : InterestRateCalculator.t)
    (history : list PrimeRateChange) (principal : Decimal)
    (start_date end_date : date) : result (Decimal * Decimal) :=
  total_interest ←
    accrue_segments history (InterestRateCalculator.spread self) principal
      (segments start_date (boundaries history start_date end_date) end_date)
      Dec.zero;
  effective_rate ←
    implied_flat_rate total_interest principal (days end_date start_date + 1);
  Ok (total_interest, effective_rate).

(** The total of the day counts of a list of segments. *)
Definition total_days (segs : list (date * Z)) : Z :=
  foldr (fun seg acc => seg.2 + acc) 0 segs.

(** The fund of the programmatic example: two partners of close 1 and
    one admitted at close 2, and its three capital calls. *)
Definition example_partners : list Partner :=
  [mkPartner "ABC Partners" (mkdate 2022 1 15) (dec 5000000 0) 1;
   mkPartner "XYZ Capital" (mkdate 2022 1 15) (dec 5000000 0) 1;
   mkPartner "New Investor LLC" (mkdate 2022 7 1) (dec 3000000 0) 2].

Definition example_calls : list CapitalCall :=
  [mkCapitalCall 1 (mkdate 2022 1 15) (dec 10 0);
   mkCapitalCall 2 (mkdate 2022 6 15) (dec 15 0);
   mkCapitalCall 3 (mkdate 2022 12 15) (dec 20 0)].

Definition example_engine : LateInterestEngine.t :=
  LateInterestEngine.mk (zero_call_assumptions PRIME) prime_calculator
    cent_calculator.

(** The same fund with its first close numbered 0: one partner of
    close 0 and one admitted at close 1. *)
Definition early_close_partners : list Partner :=
  [mkPartner "ABC Partners" (mkdate 2022 1 15) (dec 5000000 0) 0;
   mkPartner "New Investor LLC" (mkdate 2022 7 1) (dec 3000000 0) 1].

(** ** Rounding to a number of decimal places, as a relation

    [r] is a rounding of [amount] to [places] decimal places when it
    has the sign of [amount], the exponent [- places] and a coefficient
    nearest to the exact one.  Both coefficients are compared at the
    smaller of the two exponents: [rounding_error] is the distance from
    the magnitude of [amount] to that of [r], in that unit, and
    [rounding_unit] is one unit of the last place of [r]. *)

Definition rounding_unit (amount : Decimal) (places : Z) : Z :=
  10 ^ Z.max 0 (- places - Dec.d_exp amount).

Definition rounding_error (amount : Decimal) (places : Z) (r : Decimal) : Z :=
  Dec.d_int r * rounding_unit amount places
  - Dec.d_int amount * 10 ^ Z.max 0 (Dec.d_exp amount + places).

Definition rounded_to_nearest (amount : Decimal) (places : Z) (r : Decimal) : Prop :=
  Dec.d_sign r = Dec.d_sign amount /\
  Dec.d_exp r = - places /\
  2 * Z.abs (rounding_error amount places r) <= rounding_unit amount places.

Definition halfway (amount : Decimal) (places : Z) (r : Decimal) : Prop :=
  2 * Z.abs (rounding_error amount places r) = rounding_unit amount places.

(** Round half up: a value halfway between two results goes to the one
    away from zero. *)
Definition rounded_half_up (amount : Decimal) (places : Z) (r : Decimal) : Prop :=
  rounded_to_nearest amount places r /\
  (halfway amount places r -> 0 < rounding_error amount places r).

(** Round half even: a value halfway between two results goes to the one
    whose last digit is even. *)
Definition rounded_half_even (amount : Decimal) (places : Z) (r : Decimal) : Prop :=
  rounded_to_nearest amount places r /\
  (halfway amount places r -> Z.even (Dec.d_int r) = true).

(** 25 cents of late interest for two existing partners of equal
    commitment. *)
Definition quarter_new_lps : list NewLPCalculation :=
  [mkNewLPCalculation "Partner C" (mkdate 2023 6 1) (dec 500000 0) 2
     (dec 20000000 (-2)) (dec 25 (-2)) []].

Definition equal_partners : list Partner :=
  [mkPartner "Partner A" (mkdate 2022 4 1) (dec 1000000 0) 1;
   mkPartner "Partner B" (mkdate 2022 4 1) (dec 1000000 0) 1].

(** What the allocation loop records for one existing partner. *)
Definition allocation_of (self : AllocationCalculator.t) (basis : Partner -> Decimal)
    (total_late_interest total_existing_commitment : Decimal)
    (admitting_close_number : Z) (p : Partner) (a : ExistingLPAllocation) : Prop :=
  partner_name a = name p /\
  ela_commitment a = commitment p /\
  ela_close_number a = close_number p /\
  allocation_by_admitting_close a = [(admitting_close_number, total_allocation a)] /\
  exists share amount,
    Dec.div (basis p) total_existing_commitment = Ok share /\
    Dec.mul total_late_interest share = Ok amount /\
    _round_amount amount (calc_rounding (AllocationCalculator.assumptions self))
      = Ok (total_allocation a).

(** A map of commitment increases that names a new LP only. *)
Definition new_lp_increase_map : gmap string Decimal :=
  {[ "Partner C" := dec 250000 0 ]}.

(** A PRIME fund whose prime-rate history is empty, and a flat fund
    whose interest runs to the due date only. *)
Definition empty_history_assumptions : FundAssumptions :=
  mkFundAssumptions "Fund" SIMPLE PRIME (dec 20 (-1)) ISSUE_DATE false true 2 2
    [] None.

Definition due_date_assumptions : FundAssumptions :=
  mkFundAssumptions "Fund" SIMPLE FLAT (dec 20 (-1)) DUE_DATE false true 2 2
    [] (Some (dec 95 (-1))).

(** ** What the loop over the closes records for one close

    [allocates s] reads the guard [if existing_partners and
    total_collected > 0] off the summary of a close.  [close_report]
    relates a close number to the new-LP records and the summary the
    loop appends for it. *)

Definition allocates (s : LateInterestEngine.CloseSummary) : bool :=
  negb (LateInterestEngine.existing_lps_count s =? 0)%nat
  && Dec.gtb (LateInterestEngine.cs_total_collected s) Dec.zero.

Definition close_report (dec_power : Decimal -> Decimal -> result Decimal)
    (self : LateInterestEngine.t) (lists : LateInterestEngine.Lists)
    (partners_by_close : gmap Z (list Partner)) (close_num : Z)
    (report : list NewLPCalculation * LateInterestEngine.CloseSummary) : Prop :=
  let new_lps_at_close := default [] (partners_by_close !! close_num) in
  let existing_partners :=
    filter (fun p => close_number p < close_num) (LateInterestEngine.partners lists) in
  Forall2 (fun new_lp calc =>
    LateInterestCalculator.calculate_late_interest_for_new_lp dec_power
      (LateInterestEngine.late_calc self) new_lp
      (LateInterestEngine.capital_calls lists) = Ok calc)
    new_lps_at_close report.1 /\
  LateInterestEngine.cs_close_number report.2 = close_num /\
  LateInterestEngine.new_lps_count report.2 = length new_lps_at_close /\
  LateInterestEngine.existing_lps_count report.2 = length existing_partners /\
  Dec.sum (map total_late_interest_due report.1)
    = Ok (LateInterestEngine.cs_total_collected report.2) /\
  Dec.sub (LateInterestEngine.cs_total_collected report.2)
      (LateInterestEngine.cs_total_allocated report.2)
    = Ok (LateInterestEngine.difference report.2) /\
  (allocates report.2 = false ->
   LateInterestEngine.cs_total_allocated report.2 = Dec.zero).

(** ** Aggregation across closes, as a relation

    [allocations_seen] lists the allocations in the order in which
    [aggregate_allocations_across_closes] visits them, each with the
    close it is filed under.  [first_occurrences] keeps the first
    occurrence of every element, in order.  [entry_of seen n total pa]
    says what the entry [pa] of partner [n] holds once the allocations
    [seen] have been visited: the running total of the partner's
    allocations, the commitment and close number of the first of them,
    and per close (in order of first appearance) the amount of the last
    allocation filed under it. *)

Definition allocations_seen (items : list (Z * list ExistingLPAllocation))
    : list (Z * ExistingLPAllocation) :=
  concat (map (fun item => map (pair item.1) item.2) items).

Definition first_occurrences {A : Type} `{EqDecision A} (l : list A) : list A :=
  reverse (remove_dups (reverse l)).

Definition entry_of (seen : list (Z * ExistingLPAllocation)) (n : string)
    (total : Decimal) (pa : ExistingLPAllocation) : Prop :=
  let mine := filter (fun ka => partner_name ka.2 = n) seen in
  partner_name pa = n /\
  Dec.sum (map (fun ka => total_allocation ka.2) mine) = Ok total /\
  (exists first, head mine = Some first /\
     ela_commitment pa = ela_commitment first.2 /\
     ela_close_number pa = ela_close_number first.2) /\
  map fst (allocation_by_admitting_close pa) = first_occurrences (map fst mine) /\
  forall k, dict_get k (allocation_by_admitting_close pa)
            = (fun ka => total_allocation ka.2)
                <$> last (filter (fun ka => ka.1 = k) mine).



(** A variable-rate calculator in compound mode over the two-entry
    history, and a power that returns one. *)
Definition two_rate_compound_calculator : InterestRateCalculator.t :=
  InterestRateCalculator.mk COMPOUND false None (Some two_rate_sorted) (dec 20 (-1)).

Definition unit_power (x y : Decimal) : result Decimal := Ok Dec.one.

(** * Properties *)

(** ** The error monad *)

Lemma bind_Ok {A B : Type} (m : result A) (k : A -> result B) (b : B) :
  (x ← m; k x) = Ok b -> exists a, m = Ok a /\ k a = Ok b.
Proof. destruct m as [a|e]; simpl; [eauto | discriminate]. Qed.

Lemma bind_Raise {A B : Type} (m : result A) (k : A -> result B) (e : exn) :
  (x ← m; k x) = Raise e -> m = Raise e \/ exists a, m = Ok a /\ k a = Raise e.
Proof. destruct m as [a|e']; simpl; [eauto | intros [= ->]; auto]. Qed.

(** ** Scenario 1: simple interest at a flat rate *)

(** C3, as the code computes it: the inclusive day count of scenario 1
    is 1291, and the interest returned for principal 1,000,000 at 9.25%
    is 1,000,000 x 0.0925 x 1291/365 = 327171.2328767123287671232877,
    that is 327,171.23 to the cent (with effective rate 9.25). *)
Theorem scenario1_simple_interest :
  days scenario1_end scenario1_start + 1 = 1291 /\
  period_interest (dec 1000000 0) (dec 925 (-2)) 1291
    = Ok (dec 3271712328767123287671232877 (-22)) /\
  scenario1_interest = Ok (dec 3271712328767123287671232877 (-22), dec 925 (-2)) /\
  _round_amount (dec 3271712328767123287671232877 (-22)) 2 = Ok (dec 32717123 (-2)).
Proof. split; [|split; [|split]]; vm_compute; reflexivity. Qed.

(** C3 as stated fails: the interest of scenario 1 is not 327,210.27,
    neither as returned nor once rounded to the cent. *)
Lemma scenario1_interest_not_327210_27 :
  ~ (exists interest rate,
       scenario1_interest = Ok (interest, rate) /\
       (Dec.eqb interest (dec 32721027 (-2)) = true \/
        _round_amount interest 2 = Ok (dec 32721027 (-2)))).
Proof.
  intros (interest & r & H & Hv).
  assert (Hi : scenario1_interest
               = Ok (dec 3271712328767123287671232877 (-22), dec 925 (-2)))
    by (vm_compute; reflexivity).
  rewrite Hi in H. injection H as <- <-. clear Hi.
  destruct Hv as [Hv|Hv]; vm_compute in Hv; discriminate Hv.
Qed.

(** ** A missed call of zero percent *)

(** C9: a missed call with [call_percentage = 0], 1290 days late.  Its
    capital amount is zero; with the variable (PRIME) rate in simple
    mode the accrual divides by that principal and the calculation of
    the call, and of the whole LP, raises [InvalidOperation] (an
    [ArithmeticError]); with the flat rate the same call yields a detail
    with zero late interest. *)
Theorem zero_percent_call_variable_rate_raises
    (dec_power : Decimal -> Decimal -> result Decimal) :
  get_call_amount zero_call (commitment zero_call_lp) = Ok (dec 0 0) /\
  0 < days (issue_date zero_call_lp) (due_date zero_call) /\
  (self ← LateInterestCalculator.__init__ (zero_call_assumptions PRIME);
   LateInterestCalculator._calculate_late_interest_for_call dec_power self
     zero_call_lp zero_call) = Raise InvalidOperation /\
  (self ← LateInterestCalculator.__init__ (zero_call_assumptions PRIME);
   LateInterestCalculator.calculate_late_interest_for_new_lp dec_power self
     zero_call_lp [zero_call]) = Raise InvalidOperation /\
  arithmetic_error InvalidOperation = true /\
  (self ← LateInterestCalculator.__init__ (zero_call_assumptions FLAT);
   LateInterestCalculator._calculate_late_interest_for_call dec_power self
     zero_call_lp zero_call)
  = Ok (mkLateInterestDetail 1 (mkdate 2022 4 20) (dec 0 0) (dec 0 (-2))
          (dec 0 (-2)) 1290 (dec 950 (-2))).
Proof.
  split; [|split; [|split; [|split; [|split]]]]; vm_compute; reflexivity.
Qed.

(** ** Stable sorting *)

Section Sorting.
Context {A : Type} (le : A -> A -> bool).

Lemma insert_sorted_perm (x : A) (l : list A) :
  insert_sorted le x l ≡ₚ x :: l.
Proof.
  induction l as [|y l IH]; simpl; [done|].
  destruct (le x y); [done|].
  rewrite IH. apply Permutation_swap.
Qed.

Lemma stable_sort_perm (l : list A) : stable_sort le l ≡ₚ l.
Proof.
  induction l as [|x l IH]; simpl; [done|].
  rewrite insert_sorted_perm. by rewrite IH.
Qed.

Hypothesis le_total : forall x y, le x y = true \/ le y x = true.
Hypothesis le_trans : forall x y z, le x y = true -> le y z = true -> le x z = true.

Lemma insert_sorted_sorted (x : A) (l : list A) :
  StronglySorted (fun a b => le a b = true) l ->
  StronglySorted (fun a b => le a b = true) (insert_sorted le x l).
Proof.
  induction 1 as [|y l Hs IH Hy]; simpl.
  - repeat constructor.
  - destruct (le x y) eqn:Hxy.
    + constructor; [by constructor|].
      constructor; [done|].
      eapply Forall_impl; [exact Hy|]. intros z Hz. by eapply le_trans.
    + constructor; [done|].
      rewrite insert_sorted_perm. constructor; [|done].
      destruct (le_total x y) as [H|H]; [congruence|done].
Qed.

Lemma stable_sort_sorted (l : list A) :
  StronglySorted (fun a b => le a b = true) (stable_sort le l).
Proof.
  induction l as [|x l IH]; simpl; [constructor|].
  by apply insert_sorted_sorted.
Qed.

(** A list that is already in order is left as it is. *)
Lemma stable_sort_id (l : list A) :
  StronglySorted (fun a b => le a b = true) l -> stable_sort le l = l.
Proof.
  induction 1 as [|x l Hs IH Hx]; simpl; [done|].
  rewrite IH. destruct Hx as [|y l' Hxy _]; simpl; [done|]. by rewrite Hxy.
Qed.
End Sorting.

Lemma StronglySorted_impl {A : Type} (R S : A -> A -> Prop) (l : list A) :
  (forall x y, R x y -> S x y) -> StronglySorted R l -> StronglySorted S l.
Proof.
  intros HRS. induction 1 as [|x l Hs IH Hx]; constructor; [done|].
  eapply Forall_impl; [exact Hx|]. auto.
Qed.

Lemma sort_by_perm {A : Type} (key : A -> Z) (l : list A) : sort_by key l ≡ₚ l.
Proof. apply stable_sort_perm. Qed.

Lemma sort_by_sorted {A : Type} (key : A -> Z) (l : list A) :
  StronglySorted (fun a b => key a <= key b) (sort_by key l).
Proof.
  eapply StronglySorted_impl; [|apply stable_sort_sorted].
  - intros x y H. simpl in H. lia.
  - intros x y. simpl. lia.
  - intros x y z. simpl. lia.
Qed.

Lemma sort_by_id {A : Type} (key : A -> Z) (l : list A) :
  StronglySorted (fun a b => key a <= key b) l -> sort_by key l = l.
Proof.
  intros H. apply stable_sort_id.
  eapply StronglySorted_impl; [|exact H]. intros x y Hxy. by apply Z.leb_le.
Qed.

Lemma sort_by_reverse_perm {A : Type} (key : A -> Z) (l : list A) :
  sort_by_reverse key l ≡ₚ l.
Proof. apply stable_sort_perm. Qed.

Lemma sort_by_reverse_sorted {A : Type} (key : A -> Z) (l : list A) :
  StronglySorted (fun a b => key b <= key a) (sort_by_reverse key l).
Proof.
  eapply StronglySorted_impl; [|apply stable_sort_sorted].
  - intros x y H. simpl in H. lia.
  - intros x y. simpl. lia.
  - intros x y z. simpl. lia.
Qed.

Lemma elem_of_sort_by {A : Type} (key : A -> Z) (l : list A) (x : A) :
  x ∈ sort_by key l <-> x ∈ l.
Proof. by rewrite sort_by_perm. Qed.

Lemma elem_of_sort_by_reverse {A : Type} (key : A -> Z) (l : list A) (x : A) :
  x ∈ sort_by_reverse key l <-> x ∈ l.
Proof. by rewrite sort_by_reverse_perm. Qed.

(** ** The caller's lists after a run *)

(** C10: [run_complete_calculation] leaves the caller's [partners] list
    sorted by close number: a permutation of the records passed in
    (none is changed), in ascending order of [close_number], unchanged
    when it was already in that order and in a different order
    otherwise; the [capital_calls] list is as it was passed. *)
Theorem run_complete_calculation_sorts_partners_in_place
    (dec_power : Decimal -> Decimal -> result Decimal)
    (self : LateInterestEngine.t) (today : date)
    (lists : LateInterestEngine.Lists)
    (commitment_increases : option (gmap string Decimal)) :
  let after :=
    (LateInterestEngine.run_complete_calculation dec_power self today lists
       commitment_increases).1 in
  (LateInterestEngine.partners after ≡ₚ LateInterestEngine.partners lists) /\
  StronglySorted (fun p q => close_number p <= close_number q)
    (LateInterestEngine.partners after) /\
  (StronglySorted (fun p q => close_number p <= close_number q)
     (LateInterestEngine.partners lists) <->
   LateInterestEngine.partners after = LateInterestEngine.partners lists) /\
  LateInterestEngine.capital_calls after = LateInterestEngine.capital_calls lists /\
  (exists p q calls,
     let before := LateInterestEngine.mkLists [p; q] calls in
     LateInterestEngine.partners
       (LateInterestEngine.run_complete_calculation dec_power self today before
          commitment_increases).1 = [q; p] /\ p <> q).
Proof.
  simpl. split; [apply sort_by_perm|].
  split; [apply sort_by_sorted|].
  split; [|split; [done|]].
  - split; [apply sort_by_id|].
    intros <-. apply sort_by_sorted.
  - exists (mkPartner "B" 0 Dec.one 2), (mkPartner "A" 0 Dec.one 1), [].
    split; [reflexivity|]. intros [=].
Qed.

(** ** The rate resolver *)

Lemma compare_refl (x : Decimal) : Dec.compare x x = Eq.
Proof. apply Z.compare_refl. Qed.

Lemma eqb_refl (x : Decimal) : Dec.eqb x x = true.
Proof. unfold Dec.eqb. by rewrite compare_refl. Qed.

Lemma eqb_zero_l (x : Decimal) : Dec.is_zero x = true -> Dec.eqb Dec.zero x = true.
Proof.
  unfold Dec.is_zero, Dec.eqb, Dec.compare, Dec.signed_at. intros H%Z.eqb_eq.
  rewrite H. simpl Dec.d_int. rewrite !Z.mul_0_l, !Z.mul_0_r. done.
Qed.

Lemma first_applicable_Some (history : list PrimeRateChange) (target : date)
    (e : PrimeRateChange) :
  InterestRateCalculator.first_applicable history target = Some e ->
  effective_date e <= target /\
  exists l1 l2, history = l1 ++ e :: l2 /\
    Forall (fun x => target < effective_date x) l1.
Proof.
  induction history as [|x l IH]; simpl; [done|].
  destruct (effective_date x <=? target) eqn:Hx.
  - intros [= ->]. split; [lia|]. exists [], l. by split.
  - intros H. destruct (IH H) as (He & l1 & l2 & -> & Hl1).
    split; [done|]. exists (x :: l1), l2. split; [done|].
    constructor; [lia|done].
Qed.

Lemma first_applicable_None (history : list PrimeRateChange) (target : date) :
  InterestRateCalculator.first_applicable history target = None ->
  Forall (fun x => target < effective_date x) history.
Proof.
  induction history as [|x l IH]; simpl; [constructor|].
  destruct (effective_date x <=? target) eqn:Hx; [done|].
  intros H. constructor; [lia|auto].
Qed.

Lemma StronglySorted_app_r {A : Type} (R : A -> A -> Prop) (l1 l2 : list A) (x y : A) :
  StronglySorted R (l1 ++ x :: l2) -> y ∈ l2 -> R x y.
Proof.
  induction l1 as [|z l1 IH]; simpl; intros Hs Hy.
  - apply StronglySorted_inv in Hs as [_ Hx].
    rewrite Forall_forall in Hx. by apply Hx.
  - apply StronglySorted_inv in Hs as [Hs _]. auto.
Qed.

Lemma elem_of_middle {A : Type} (l1 l2 : list A) (x : A) : x ∈ l1 ++ x :: l2.
Proof. apply elem_of_app. right. by left. Qed.

Lemma StronglySorted_last {A : Type} (R : A -> A -> Prop) (l : list A) (e x : A) :
  StronglySorted R l -> last l = Some e -> x ∈ l -> x = e \/ R x e.
Proof.
  intros Hs Hl Hx. apply last_Some in Hl as [l' ->].
  apply elem_of_app in Hx as [Hx|Hx%list_elem_of_singleton]; [|auto].
  right. apply list_elem_of_split in Hx as (l1 & l2 & ->).
  rewrite <- app_assoc in Hs. simpl in Hs.
  eapply StronglySorted_app_r; [exact Hs|]. apply elem_of_middle.
Qed.

(** C6: in variable mode (built from a non-empty history) the resolver
    returns [rate + spread] for an entry of the history which, when some
    entry is effective on or before the target date, is a latest such
    entry, and which is an earliest entry of the whole history when the
    target date precedes every entry; the spread added is the configured
    one.  In flat mode it returns the configured flat rate for every
    date. *)
Theorem get_rate_at_date_resolves :
  (forall compounding history spread self target,
     InterestRateCalculator.__init__ compounding (Some history) spread None = Ok self ->
     history <> [] ->
     exists e, e ∈ history /\
       InterestRateCalculator.get_rate_at_date self target
         = Dec.add (rate e) (InterestRateCalculator.spread self) /\
       match spread with
       | Some s => Dec.eqb (InterestRateCalculator.spread self) s = true
       | None => InterestRateCalculator.spread self = Dec.zero
       end /\
       ((exists e', e' ∈ history /\ effective_date e' <= target) ->
        effective_date e <= target /\
        forall e', e' ∈ history -> effective_date e' <= target ->
                   effective_date e' <= effective_date e) /\
       ((forall e', e' ∈ history -> target < effective_date e') ->
        forall e', e' ∈ history -> effective_date e <= effective_date e')) /\
  (forall compounding history spread fr self target,
     InterestRateCalculator.__init__ compounding history spread (Some fr) = Ok self ->
     InterestRateCalculator.get_rate_at_date self target = Ok fr).
Proof.
  split.
  - intros compounding history spread self target Hinit Hne.
    injection Hinit as <-.
    unfold InterestRateCalculator.get_rate_at_date. simpl.
    set (h := sort_by_reverse effective_date history).
    assert (Hs : StronglySorted
                   (fun a b => effective_date b <= effective_date a) h)
      by apply sort_by_reverse_sorted.
    assert (Hin : forall x, x ∈ h <-> x ∈ history)
      by (intros x; apply elem_of_sort_by_reverse).
    assert (Hspread :
      match spread with
      | Some s =>
          Dec.eqb (if Dec.is_zero s then Dec.zero else s) s = true
      | None => Dec.zero = Dec.zero
      end).
    { destruct spread as [s|]; [|done].
      destruct (Dec.is_zero s) eqn:Hz; [by apply eqb_zero_l|apply eqb_refl]. }
    destruct (InterestRateCalculator.first_applicable h target) as [e|] eqn:Hf.
    + apply first_applicable_Some in Hf as (He & l1 & l2 & Hh & Hl1).
      exists e. split; [apply Hin; rewrite Hh; apply elem_of_middle|].
      split; [done|]. split; [by destruct spread|].
      split.
      * intros _. split; [done|]. intros e' He' Hle.
        apply Hin in He'. rewrite Hh in He', Hs.
        apply elem_of_app in He' as [He'|He'].
        { rewrite Forall_forall in Hl1. apply Hl1 in He'. lia. }
        apply elem_of_cons in He' as [->|He']; [lia|].
        apply (StronglySorted_app_r _ _ _ _ _ Hs He').
      * intros Hall. assert (e ∈ history) as He'
          by (apply Hin; rewrite Hh; apply elem_of_middle).
        apply Hall in He'. lia.
    + apply first_applicable_None in Hf.
      destruct (last h) as [e|] eqn:Hl.
      * assert (He : e ∈ h).
        { apply last_Some in Hl as [l' ->]. apply elem_of_middle. }
        exists e. split; [by apply Hin|]. split; [done|].
        split; [by destruct spread|].
        split.
        { intros (e' & He' & Hle). apply Hin in He'.
          rewrite Forall_forall in Hf. apply Hf in He'. lia. }
        intros _ e' He'. apply Hin in He'.
        destruct (StronglySorted_last _ _ _ _ Hs Hl He') as [->|H]; [lia|done].
      * apply last_None in Hl. destruct history as [|x l]; [done|].
        assert (x ∈ h) as Hx by (apply Hin; by left).
        rewrite Hl in Hx. by apply elem_of_nil in Hx.
  - intros compounding history spread fr self target Hinit.
    injection Hinit as <-. reflexivity.
Qed.

Lemma get_rate_at_date_resolves_witness :
  exists e, e ∈ two_rate_history /\
    InterestRateCalculator.get_rate_at_date two_rate_calculator (mkdate 2022 6 1)
      = Dec.add (rate e) (InterestRateCalculator.spread two_rate_calculator) /\
    Dec.eqb (InterestRateCalculator.spread two_rate_calculator) (dec 20 (-1)) = true /\
    ((exists e', e' ∈ two_rate_history /\ effective_date e' <= mkdate 2022 6 1) ->
     effective_date e <= mkdate 2022 6 1 /\
     forall e', e' ∈ two_rate_history -> effective_date e' <= mkdate 2022 6 1 ->
                effective_date e' <= effective_date e) /\
    ((forall e', e' ∈ two_rate_history -> mkdate 2022 6 1 < effective_date e') ->
     forall e', e' ∈ two_rate_history -> effective_date e <= effective_date e').
Proof.
  apply (proj1 get_rate_at_date_resolves SIMPLE two_rate_history
           (Some (dec 20 (-1))) two_rate_calculator (mkdate 2022 6 1)).
  - vm_compute. reflexivity.
  - discriminate.
Defined.

(** ** Missed calls and the call due on the issue date *)

Lemma late_interest_for_call_inv dec_power self new_lp call d :
  LateInterestCalculator._calculate_late_interest_for_call dec_power self new_lp call
    = Ok d ->
  lid_call_number d = call_number call /\
  lid_due_date d = due_date call /\
  0 <= days_late d /\
  (days_late d = 0 -> late_interest d = Dec.zero /\ effective_rate d = Dec.zero).
Proof.
  unfold LateInterestCalculator._calculate_late_interest_for_call.
  intros H. apply bind_Ok in H as (capital & _ & H).
  destruct (_ <=? 0) eqn:Hd in H.
  - injection H as <-. simpl. repeat split; lia.
  - apply bind_Ok in H as ([li er] & _ & H).
    apply bind_Ok in H as (li' & _ & H).
    apply bind_Ok in H as (er' & _ & H).
    apply bind_Ok in H as (cap' & _ & H).
    injection H as <-. simpl. repeat split; lia.
Qed.

Lemma breakdown_loop_inv dec_power self new_lp calls acc tc tl b tc' tl' :
  LateInterestCalculator.breakdown_loop dec_power self new_lp calls acc tc tl
    = Ok (b, tc', tl') ->
  exists ds, b = acc ++ ds /\
    Forall2 (fun c d =>
      LateInterestCalculator._calculate_late_interest_for_call dec_power self
        new_lp c = Ok d) calls ds.
Proof.
  revert acc tc tl. induction calls as [|c calls IH]; simpl; intros acc tc tl H.
  - injection H as <- _ _. exists []. split; [by rewrite app_nil_r|constructor].
  - apply bind_Ok in H as (d & Hd & H).
    apply bind_Ok in H as (tc1 & _ & H).
    apply bind_Ok in H as (tl1 & _ & H).
    apply IH in H as (ds & -> & Hds).
    exists (d :: ds). split; [by rewrite <- app_assoc|by constructor].
Qed.

(** C8: for a call due on the LP's issue date, the per-call calculation
    yields [days_late = 0] with zero late interest and zero rate; the
    missed calls are exactly the calls due strictly before the issue
    date (so this call is not among them), in ascending order of call
    number; and the breakdown of the LP has one detail per missed call,
    in that order, none with a negative [days_late]. *)
Theorem call_due_on_issue_date
    (dec_power : Decimal -> Decimal -> result Decimal)
    (self : LateInterestCalculator.t) (new_lp : Partner)
    (capital_calls : list CapitalCall) (call : CapitalCall) :
  due_date call = issue_date new_lp ->
  LateInterestCalculator._calculate_late_interest_for_call dec_power self new_lp call
    = (capital_amount ← get_call_amount call (commitment new_lp);
       Ok (mkLateInterestDetail (call_number call) (due_date call)
             (call_percentage call) capital_amount Dec.zero 0 Dec.zero)) /\
  (call ∉ LateInterestCalculator.missed_calls new_lp capital_calls) /\
  (forall c, c ∈ LateInterestCalculator.missed_calls new_lp capital_calls <->
             c ∈ capital_calls /\ due_date c < issue_date new_lp) /\
  (LateInterestCalculator.missed_calls new_lp capital_calls
     ≡ₚ filter (fun c => due_date c < issue_date new_lp) capital_calls) /\
  StronglySorted (fun a b => call_number a <= call_number b)
    (LateInterestCalculator.missed_calls new_lp capital_calls) /\
  (forall r,
     LateInterestCalculator.calculate_late_interest_for_new_lp dec_power self
       new_lp capital_calls = Ok r ->
     map lid_call_number (breakdown_by_capital_call r)
       = map call_number (LateInterestCalculator.missed_calls new_lp capital_calls) /\
     map lid_due_date (breakdown_by_capital_call r)
       = map due_date (LateInterestCalculator.missed_calls new_lp capital_calls) /\
     Forall (fun d => 0 <= days_late d /\
                      (days_late d = 0 -> late_interest d = Dec.zero))
       (breakdown_by_capital_call r)).
Proof.
  intros Hdue.
  assert (Hin : forall c,
    c ∈ LateInterestCalculator.missed_calls new_lp capital_calls <->
    c ∈ capital_calls /\ due_date c < issue_date new_lp).
  { intros c. unfold LateInterestCalculator.missed_calls.
    rewrite elem_of_sort_by, list_elem_of_filter. tauto. }
  split; [|split; [|split; [done|split; [|split]]]].
  - unfold LateInterestCalculator._calculate_late_interest_for_call.
    destruct (get_call_amount call (commitment new_lp)) as [capital|e]; [|done].
    simpl. unfold days.
    destruct (end_date_calculation _); rewrite <- ?Hdue, Z.sub_diag; reflexivity.
  - rewrite Hin. lia.
  - apply sort_by_perm.
  - apply sort_by_sorted.
  - intros r H.
    unfold LateInterestCalculator.calculate_late_interest_for_new_lp in H.
    apply bind_Ok in H as ([[b tc] tl] & Hloop & H).
    apply bind_Ok in H as (tc' & _ & H).
    apply bind_Ok in H as (tl' & _ & H).
    injection H as <-. simpl.
    apply breakdown_loop_inv in Hloop as (ds & -> & Hds). simpl.
    revert Hds.
    generalize (LateInterestCalculator.missed_calls new_lp capital_calls).
    intros missed Hds.
    induction Hds as [|c d cs ds Hd Hds IH]; simpl; [by repeat split|].
    destruct IH as (IH1 & IH2 & IH3).
    apply late_interest_for_call_inv in Hd as (H1 & H2 & H3 & H4).
    split; [by rewrite H1, IH1|]. split; [by rewrite H2, IH2|].
    constructor; [|done]. split; [done|]. intros H0. by apply H4.
Qed.

Lemma call_due_on_issue_date_witness :
  LateInterestCalculator._calculate_late_interest_for_call no_power
    prime_calculator boundary_lp boundary_call
    = (capital_amount ← get_call_amount boundary_call (commitment boundary_lp);
       Ok (mkLateInterestDetail (call_number boundary_call)
             (due_date boundary_call) (call_percentage boundary_call)
             capital_amount Dec.zero 0 Dec.zero)) /\
  (boundary_call ∉ LateInterestCalculator.missed_calls boundary_lp boundary_calls) /\
  (forall c, c ∈ LateInterestCalculator.missed_calls boundary_lp boundary_calls <->
             c ∈ boundary_calls /\ due_date c < issue_date boundary_lp) /\
  (LateInterestCalculator.missed_calls boundary_lp boundary_calls
     ≡ₚ filter (fun c => due_date c < issue_date boundary_lp) boundary_calls) /\
  StronglySorted (fun a b => call_number a <= call_number b)
    (LateInterestCalculator.missed_calls boundary_lp boundary_calls) /\
  (forall r,
     LateInterestCalculator.calculate_late_interest_for_new_lp no_power
       prime_calculator boundary_lp boundary_calls = Ok r ->
     map lid_call_number (breakdown_by_capital_call r)
       = map call_number
           (LateInterestCalculator.missed_calls boundary_lp boundary_calls) /\
     map lid_due_date (breakdown_by_capital_call r)
       = map due_date
           (LateInterestCalculator.missed_calls boundary_lp boundary_calls) /\
     Forall (fun d => 0 <= days_late d /\
                      (days_late d = 0 -> late_interest d = Dec.zero))
       (breakdown_by_capital_call r)).
Proof.
  apply (call_due_on_issue_date no_power prime_calculator boundary_lp
           boundary_calls boundary_call).
  reflexivity.
Defined.

(** On that input the calculator is the one [__init__] builds, the
    calculation of the LP succeeds, and its only detail is that of
    call 1, the one call due before the issue date. *)
Lemma boundary_lp_calculation :
  LateInterestCalculator.__init__ (zero_call_assumptions PRIME) = Ok prime_calculator /\
  LateInterestCalculator.missed_calls boundary_lp boundary_calls
    = [mkCapitalCall 1 (mkdate 2022 1 15) (dec 10 0)] /\
  LateInterestCalculator.calculate_late_interest_for_new_lp no_power
    prime_calculator boundary_lp boundary_calls
  = Ok (mkNewLPCalculation "New Investor LLC" (mkdate 2022 7 1) (dec 3000000 0) 2
          (dec 30000000 (-2)) (dec 1311781 (-2))
          [mkLateInterestDetail 1 (mkdate 2022 1 15) (dec 10 0)
             (dec 30000000 (-2)) (dec 1311781 (-2)) 167 (dec 950 (-2))]).
Proof. split; [|split]; vm_compute; reflexivity. Qed.

(** ** Exceptions of the decimal operations *)

Lemma fix_raise d e : Dec._fix d = Raise e -> arithmetic_error e = true.
Proof.
  unfold Dec._fix. repeat case_match; intros [=]; by subst.
Qed.

Lemma add_raise x y e : Dec.add x y = Raise e -> arithmetic_error e = true.
Proof. unfold Dec.add. case_match; apply fix_raise. Qed.

Lemma mul_raise x y e : Dec.mul x y = Raise e -> arithmetic_error e = true.
Proof. apply fix_raise. Qed.

Lemma div_raise x y e : Dec.div x y = Raise e -> arithmetic_error e = true.
Proof.
  unfold Dec.div. repeat case_match; try apply fix_raise; intros [=]; by subst.
Qed.

Lemma quantize_raise d q e : Dec.quantize d q = Raise e -> arithmetic_error e = true.
Proof.
  unfold Dec.quantize. repeat case_match; try apply fix_raise; intros [=]; by subst.
Qed.

Lemma round_amount_raise amount places e :
  _round_amount amount places = Raise e -> arithmetic_error e = true.
Proof.
  unfold _round_amount, Dec.pow_tenth.
  destruct (places =? 0); [apply quantize_raise|].
  intros [H|(q & _ & H)]%bind_Raise; [by apply fix_raise in H|].
  by apply quantize_raise in H.
Qed.

Lemma sum_raise l e : Dec.sum l = Raise e -> arithmetic_error e = true.
Proof.
  unfold Dec.sum.
  assert (H0 : forall e, Ok Dec.zero = Raise e -> arithmetic_error e = true)
    by done.
  revert H0. generalize (Ok Dec.zero). revert e.
  induction l as [|x l IH]; simpl; intros e acc Hacc H; [auto|].
  eapply IH; [|exact H].
  intros e' [He'|(a & _ & He')]%bind_Raise; [auto|by apply add_raise in He'].
Qed.

(** ** Pro-rata allocation *)

Lemma allocation_loop_inv self basis tli tec c ps acc ta allocs total :
  AllocationCalculator.allocation_loop self basis tli tec c ps acc ta
    = Ok (allocs, total) ->
  exists new, allocs = acc ++ new /\
    Forall2 (allocation_of self basis tli tec c) ps new.
Proof.
  revert acc ta. induction ps as [|p ps IH]; simpl; intros acc ta H.
  - injection H as <- _. exists []. split; [by rewrite app_nil_r|constructor].
  - apply bind_Ok in H as (share & Hshare & H).
    apply bind_Ok in H as (amount & Hamount & H).
    apply bind_Ok in H as (rounded & Hrounded & H).
    apply bind_Ok in H as (ta' & _ & H).
    apply IH in H as (new & -> & Hnew).
    eexists (_ :: new). split; [by rewrite <- app_assoc|].
    constructor; [|done]. repeat split; simpl. eauto.
Qed.

Lemma allocation_loop_raise self basis tli tec c ps acc ta e :
  AllocationCalculator.allocation_loop self basis tli tec c ps acc ta = Raise e ->
  arithmetic_error e = true.
Proof.
  revert acc ta. induction ps as [|p ps IH]; simpl; intros acc ta H; [done|].
  apply bind_Raise in H as [H|(share & _ & H)]; [by apply div_raise in H|].
  apply bind_Raise in H as [H|(amount & _ & H)]; [by apply mul_raise in H|].
  apply bind_Raise in H as [H|(rounded & _ & H)]; [by apply round_amount_raise in H|].
  apply bind_Raise in H as [H|(ta' & _ & H)]; [by apply add_raise in H|].
  by apply IH in H.
Qed.

(** The outcomes of the body shared by the two allocation contracts. *)
Lemma allocate_outcomes self basis new_lps all_partners c :
  let existing := AllocationCalculator.existing_partners all_partners c in
  let outcome := AllocationCalculator.allocate self basis new_lps all_partners c in
  (existing = [] -> outcome = Ok ([], Dec.zero)) /\
  (existing <> [] -> forall tli,
     AllocationCalculator.total_late_interest new_lps c = Ok tli ->
     Dec.eqb tli Dec.zero = true -> outcome = Ok ([], Dec.zero)) /\
  (existing <> [] -> forall tli tec,
     AllocationCalculator.total_late_interest new_lps c = Ok tli ->
     Dec.eqb tli Dec.zero = false ->
     Dec.sum (map basis existing) = Ok tec ->
     Dec.eqb tec Dec.zero = true ->
     outcome = Raise (ValueError "Total existing commitment cannot be zero")) /\
  (forall e, outcome = Raise e -> arithmetic_error e = false ->
     e = ValueError "Total existing commitment cannot be zero" /\
     existing <> [] /\
     exists tli tec,
       AllocationCalculator.total_late_interest new_lps c = Ok tli /\
       Dec.eqb tli Dec.zero = false /\
       Dec.sum (map basis existing) = Ok tec /\
       Dec.eqb tec Dec.zero = true) /\
  (forall allocs total, outcome = Ok (allocs, total) ->
     (allocs = [] /\
      (existing = [] \/
       exists tli, AllocationCalculator.total_late_interest new_lps c = Ok tli /\
                   Dec.eqb tli Dec.zero = true)) \/
     exists tli tec,
       AllocationCalculator.total_late_interest new_lps c = Ok tli /\
       Dec.sum (map basis existing) = Ok tec /\
       Forall2 (allocation_of self basis tli tec c) existing allocs).
Proof.
  intros existing outcome. subst outcome.
  unfold AllocationCalculator.allocate. fold existing.
  destruct existing as [|p ps] eqn:Hex.
  { split; [done|]. split; [done|]. split; [done|]. split; [done|].
    intros allocs total [= <- _]. left. auto. }
  split; [done|].
  destruct (AllocationCalculator.total_late_interest new_lps c) as [tli|e1] eqn:Htli;
    cbn [mbind result_bind].
  2:{ split; [intros _ ? [=]|]. split; [intros _ ? ? [=]|]. split; [|intros ? ? [=]].
      intros e [= <-] He. apply sum_raise in Htli. congruence. }
  destruct (Dec.eqb tli Dec.zero) eqn:Hz.
  { split; [done|]. split; [intros _ ? ? [= <-]; congruence|].
    split; [done|]. intros allocs total [= <- _]. left. eauto. }
  split; [intros _ ? [= <-]; congruence|].
  destruct (Dec.sum (map basis (p :: ps))) as [tec|e2] eqn:Htec;
    cbn [mbind result_bind].
  2:{ split; [intros _ ? ? _ _ [=]|]. split; [|intros ? ? [=]].
      intros e [= <-] He. apply sum_raise in Htec. congruence. }
  destruct (Dec.eqb tec Dec.zero) eqn:Hc.
  { split; [done|]. split; [|done].
    intros e [= <-] _. split; [done|]. split; [done|]. eauto 10. }
  split; [intros _ ? ? [= <-] _ [= <-]; congruence|].
  split.
  - intros e H He.
    apply bind_Raise in H as [H|([allocs ta] & _ & H)].
    { apply allocation_loop_raise in H. congruence. }
    apply bind_Raise in H as [H|(? & _ & H)]; [|done].
    apply round_amount_raise in H. congruence.
  - intros allocs total H.
    apply bind_Ok in H as ([allocs' ta] & Hloop & H).
    apply bind_Ok in H as (total' & _ & H). injection H as <- <-.
    apply allocation_loop_inv in Hloop as (new & -> & Hnew).
    right. exists tli, tec. auto.
Qed.

(** C5: when [calculate_allocations_with_increases] returns allocations,
    it returns one per existing partner, in order; the pro-rata share of
    each is its basis divided by the sum of the bases of the existing
    partners, where the basis of a partner named in
    [commitment_increases] is the original commitment recorded there and
    that of any other partner is its current commitment; and the
    [commitment] field of every allocation is the partner's current
    commitment. *)
Theorem allocation_with_increases_uses_original_commitment
    (self : AllocationCalculator.t) (new_lps : list NewLPCalculation)
    (all_partners : list Partner) (commitment_increases : gmap string Decimal)
    (admitting_close_number : Z)
    (allocations : list ExistingLPAllocation) (total_allocated : Decimal) :
  AllocationCalculator.calculate_allocations_with_increases self new_lps
    all_partners commitment_increases admitting_close_number
    = Ok (allocations, total_allocated) ->
  let existing :=
    filter (fun p => close_number p < admitting_close_number) all_partners in
  let basis p :=
    match commitment_increases !! name p with
    | Some original => original
    | None => commitment p
    end in
  (allocations = [] /\
   (existing = [] \/
    exists tli,
      AllocationCalculator.total_late_interest new_lps admitting_close_number
        = Ok tli /\ Dec.eqb tli Dec.zero = true)) \/
  exists tli denominator,
    AllocationCalculator.total_late_interest new_lps admitting_close_number
      = Ok tli /\
    Dec.sum (map basis existing) = Ok denominator /\
    Forall2 (fun p a =>
      partner_name a = name p /\
      ela_commitment a = commitment p /\
      ela_close_number a = close_number p /\
      exists share amount,
        Dec.div (basis p) denominator = Ok share /\
        Dec.mul tli share = Ok amount /\
        _round_amount amount (calc_rounding (AllocationCalculator.assumptions self))
          = Ok (total_allocation a)) existing allocations.
Proof.
  intros H existing basis.
  destruct (allocate_outcomes self
              (AllocationCalculator.get_allocation_commitment commitment_increases)
              new_lps all_partners admitting_close_number)
    as (_ & _ & _ & _ & Hok).
  apply Hok in H as [H|(tli & tec & Htli & Htec & Hall)]; [by left|].
  right. exists tli, tec. split; [done|]. split; [done|].
  eapply Forall2_impl; [exact Hall|].
  intros p a (H1 & H2 & H3 & _ & H5). auto.
Qed.

Lemma allocation_with_increases_uses_original_commitment_witness :
  let existing := filter (fun p => close_number p < 2) increase_partners in
  let basis p :=
    match increase_map !! name p with
    | Some original => original
    | None => commitment p
    end in
  (increase_allocations = [] /\
   (existing = [] \/
    exists tli,
      AllocationCalculator.total_late_interest increase_new_lps 2 = Ok tli /\
      Dec.eqb tli Dec.zero = true)) \/
  exists tli denominator,
    AllocationCalculator.total_late_interest increase_new_lps 2 = Ok tli /\
    Dec.sum (map basis existing) = Ok denominator /\
    Forall2 (fun p a =>
      partner_name a = name p /\
      ela_commitment a = commitment p /\
      ela_close_number a = close_number p /\
      exists share amount,
        Dec.div (basis p) denominator = Ok share /\
        Dec.mul tli share = Ok amount /\
        _round_amount amount
          (calc_rounding (AllocationCalculator.assumptions cent_calculator))
          = Ok (total_allocation a)) existing increase_allocations.
Proof.
  apply (allocation_with_increases_uses_original_commitment cent_calculator
           increase_new_lps increase_partners increase_map 2
           increase_allocations (dec 900000 (-2))).
  vm_compute. reflexivity.
Defined.

(** Scenario 3 evaluated: A is allocated on its original $1,000,000
    (a third of the $9,000), B on its $2,000,000, and the record of A
    shows its current $2,000,000. *)
Lemma scenario3_allocation :
  AllocationCalculator.calculate_allocations_with_increases cent_calculator
    increase_new_lps increase_partners increase_map 2
  = Ok (increase_allocations, dec 900000 (-2)).
Proof. vm_compute. reflexivity. Qed.




(** ** Simple interest at a variable rate *)

Lemma bind_ret {A : Type} (m : result A) : (x ← m; Ok x) = m.
Proof. by destruct m. Qed.

Lemma first_applicable_filter (history : list PrimeRateChange) (target : date) :
  InterestRateCalculator.first_applicable history target
  = head (filter (fun rc => effective_date rc <= target) history).
Proof.
  induction history as [|rc l IH]; simpl; [done|].
  destruct (effective_date rc <=? target) eqn:Hle.
  - rewrite filter_cons_True by lia. done.
  - rewrite filter_cons_False by lia. done.
Qed.

(** The rate the code looks up is the rate in effect. *)
Lemma get_rate_at_date_in_effect self history target :
  InterestRateCalculator.is_flat_rate self = false ->
  InterestRateCalculator.rate_history self = Some history ->
  InterestRateCalculator.get_rate_at_date self target
  = rate_in_effect history (InterestRateCalculator.spread self) target.
Proof.
  intros Hflat Hh. unfold InterestRateCalculator.get_rate_at_date, rate_in_effect.
  rewrite Hflat, Hh, first_applicable_filter.
  by destruct (filter _ history).
Qed.

(** The accrual of a period in the code is the contribution of a
    segment. *)
Lemma period_interest_contribution principal rate ndays :
  period_interest principal rate ndays = segment_contribution principal rate ndays.
Proof. reflexivity. Qed.

Lemma simple_segments_accrue self history principal end_date changes total current :
  InterestRateCalculator.is_flat_rate self = false ->
  InterestRateCalculator.rate_history self = Some history ->
  ('(total_interest, current_date) ←
     InterestRateCalculator.simple_segments self principal changes total current;
   if 0 <? days end_date current_date + 1 then
     rate ← InterestRateCalculator.get_rate_at_date self current_date;
     segment_interest ← period_interest principal rate
                          (days end_date current_date + 1);
     Dec.add total_interest segment_interest
   else Ok total_interest)
  = accrue_segments history (InterestRateCalculator.spread self) principal
      (segments current (map effective_date changes) end_date) total.
Proof.
  intros Hflat Hh. revert total current.
  induction changes as [|rc rest IH]; intros total current.
  - simpl. destruct (0 <? _); [|done].
    rewrite (get_rate_at_date_in_effect self history) by done.
    destruct (rate_in_effect _ _ _) as [r|]; [|done].
    simpl. rewrite period_interest_contribution.
    destruct (segment_contribution _ _ _) as [i|]; [|done].
    simpl. symmetry. apply bind_ret.
  - simpl. destruct (0 <? _).
    + rewrite (get_rate_at_date_in_effect self history) by done.
      destruct (rate_in_effect _ _ _) as [r|]; [|done].
      simpl. rewrite period_interest_contribution.
      destruct (segment_contribution _ _ _) as [i|]; [|done].
      simpl. destruct (Dec.add _ _) as [t|]; [|done].
      simpl. apply IH.
    + simpl. apply IH.
Qed.

Lemma StronglySorted_map_le {A : Type} (f : A -> Z) (l : list A) :
  StronglySorted (fun a b => f a <= f b) l -> StronglySorted Z.le (map f l).
Proof.
  induction 1 as [|x l Hs IH Hx]; simpl; constructor; [done|].
  by apply Forall_map.
Qed.

Lemma elem_of_boundaries history start_date end_date d :
  d ∈ boundaries history start_date end_date <->
  exists rc, rc ∈ history /\ effective_date rc = d /\ start_date < d <= end_date.
Proof.
  unfold boundaries. rewrite list_elem_of_fmap. split.
  - intros (rc & -> & H). rewrite elem_of_sort_by, list_elem_of_filter in H.
    exists rc. tauto.
  - intros (rc & H & <- & Hd). exists rc. split; [done|].
    rewrite elem_of_sort_by, list_elem_of_filter. tauto.
Qed.

Lemma segments_partition end_date bs current :
  StronglySorted Z.le bs -> Forall (fun b => current <= b <= end_date) bs ->
  current <= end_date ->
  map fst (segments current bs end_date) = current :: bs /\
  Forall (fun seg => 0 <= seg.2) (segments current bs end_date) /\
  total_days (segments current bs end_date) = days end_date current + 1 /\
  exists first_day,
    last (segments current bs end_date)
      = Some (first_day, days end_date first_day + 1) /\
    last (current :: bs) = Some first_day /\ 1 <= days end_date first_day + 1.
Proof.
  intros Hs. revert current.
  induction Hs as [|b bs Hs IH Hb]; intros current Hall Hle; simpl.
  - unfold days. repeat split; [repeat constructor; simpl; lia|lia|].
    exists current. repeat split. lia.
  - apply Forall_cons in Hall as [Hcb Hall].
    destruct (IH b) as (H1 & H2 & H3 & s & H4 & H5 & H6); [|lia|].
    { rewrite Forall_forall in Hb, Hall |- *. intros x Hx.
      specialize (Hb x Hx). specialize (Hall x Hx). lia. }
    rewrite H1. split; [done|]. split.
    { constructor; [unfold days; simpl; lia|done]. }
    split; [unfold total_days in *; simpl; rewrite H3; unfold days; lia|].
    exists s. split; [|split; [|done]].
    + by rewrite last_cons, H4.
    + exact H5.
Qed.

(** The loop of [_calculate_simple_interest] is the segment-wise
    accrual. *)
Lemma calculate_simple_interest_segmented
    (self : InterestRateCalculator.t) (history : list PrimeRateChange)
    (principal : Decimal) (start_date end_date : date) :
  InterestRateCalculator.is_flat_rate self = false ->
  InterestRateCalculator.rate_history self = Some history ->
  start_date <= end_date ->
  InterestRateCalculator._calculate_simple_interest self principal start_date end_date
    = segmented_simple_interest self history principal start_date end_date.
Proof.
  intros Hflat Hhist Hle.
  unfold InterestRateCalculator._calculate_simple_interest,
    segmented_simple_interest, InterestRateCalculator.rate_changes_in_period,
    implied_flat_rate.
  rewrite Hflat, Hhist.
  assert (Hd : (days end_date start_date + 1 <=? 0) = false)
    by (unfold days; lia).
  rewrite Hd. cbn [mbind result_bind]. unfold boundaries.
  rewrite <- (simple_segments_accrue self history) by done.
  destruct (InterestRateCalculator.simple_segments _ _ _ _ _) as [[t c]|]; [|done].
  cbn [mbind result_bind].
  destruct (if 0 <? days end_date c + 1 then _ else _) as [t'|]; [|done].
  cbn [mbind result_bind].
  destruct (Dec.div t' principal) as [q|]; [|done].
  cbn [mbind result_bind].
  destruct (Dec.div Dec.d365 _) as [y|]; [|done].
  cbn [mbind result_bind].
  destruct (Dec.mul q y) as [qy|]; [|done].
  reflexivity.
Qed.

(** What the segment-wise accrual adds up: one contribution per segment
    of positive day count, in order. *)
Lemma accrue_segments_contributions history spread principal segs total0 total :
  accrue_segments history spread principal segs total0 = Ok total ->
  exists contributions,
    Forall2 (fun seg c =>
      exists rate,
        rate_in_effect history spread seg.1 = Ok rate /\
        segment_contribution principal rate seg.2 = Ok c)
      (filter (fun seg => 0 < seg.2) segs) contributions /\
    foldl (fun acc x => a ← acc; Dec.add a x) (Ok total0) contributions = Ok total.
Proof.
  revert total0. induction segs as [|[first_day ndays] segs IH]; simpl; intros total0 H.
  - injection H as <-. exists []. split; [constructor|done].
  - destruct (0 <? ndays) eqn:Hd.
    + apply bind_Ok in H as (r & Hr & H).
      apply bind_Ok in H as (c & Hc & H).
      apply bind_Ok in H as (t & Ht & H).
      apply IH in H as (cs & Hcs & Hsum).
      exists (c :: cs). rewrite filter_cons_True by (simpl; lia).
      split; [constructor; [by exists r|done]|].
      simpl. by rewrite Ht.
    + apply IH in H as (cs & Hcs & Hsum).
      exists cs. rewrite filter_cons_False by (simpl; lia). done.
Qed.

(** C4: for a variable-rate calculator and [start_date <= end_date],
    [_calculate_simple_interest] returns what the segment-wise accrual
    of the design returns, or fails as it does.  When it returns, the
    interest is the sum (from [Decimal('0')], in order) of one
    contribution per segment of positive day count, each
    [principal * (rate / 100) * (days / 365)] at the rate in effect on
    the first day of the segment, and the rate returned is
    [(total_interest / principal) * (365 / total_days) * 100] over the
    inclusive day count.  The boundaries are exactly the effective dates
    [d] of the history with [start_date < d <= end_date], in ascending
    order; the segments start at [start_date] and at each boundary: a
    segment that ends at a boundary counts the days up to the boundary,
    the last one counts through [end_date] inclusive; no segment has a
    negative day count, the last one counts at least the day
    [end_date], and the day counts add up to the inclusive count
    [(end_date - start_date).days + 1]. *)
Theorem variable_simple_interest_by_segments
    (self : InterestRateCalculator.t) (history : list PrimeRateChange)
    (principal : Decimal) (start_date end_date : date) :
  InterestRateCalculator.is_flat_rate self = false ->
  InterestRateCalculator.rate_history self = Some history ->
  start_date <= end_date ->
  let bs := boundaries history start_date end_date in
  let segs := segments start_date bs end_date in
  InterestRateCalculator._calculate_simple_interest self principal start_date end_date
    = segmented_simple_interest self history principal start_date end_date /\
  (forall total_interest effective_rate,
     InterestRateCalculator._calculate_simple_interest self principal
       start_date end_date = Ok (total_interest, effective_rate) ->
     (exists contributions,
        Forall2 (fun seg c =>
          exists rate fraction per_year years,
            rate_in_effect history (InterestRateCalculator.spread self) seg.1
              = Ok rate /\
            Dec.div rate Dec.hundred = Ok fraction /\
            Dec.mul principal fraction = Ok per_year /\
            Dec.div (Dec.of_Z seg.2) Dec.d365 = Ok years /\
            Dec.mul per_year years = Ok c)
          (filter (fun seg => 0 < seg.2) segs) contributions /\
        Dec.sum contributions = Ok total_interest) /\
     exists q y qy,
       Dec.div total_interest principal = Ok q /\
       Dec.div Dec.d365 (Dec.of_Z (days end_date start_date + 1)) = Ok y /\
       Dec.mul q y = Ok qy /\
       Dec.mul qy Dec.hundred = Ok effective_rate) /\
  (forall d, d ∈ bs <->
     exists rc, rc ∈ history /\ effective_date rc = d /\
                start_date < d <= end_date) /\
  StronglySorted Z.le bs /\
  map fst segs = start_date :: bs /\
  (forall i first_day ndays next,
     segs !! i = Some (first_day, ndays) -> bs !! i = Some next ->
     ndays = days next first_day) /\
  Forall (fun seg => 0 <= seg.2) segs /\
  total_days segs = days end_date start_date + 1 /\
  exists first_day,
    last segs = Some (first_day, days end_date first_day + 1) /\
    last (start_date :: bs) = Some first_day /\
    1 <= days end_date first_day + 1.
Proof.
  intros Hflat Hhist Hle bs segs.
  assert (Hsorted : StronglySorted Z.le bs).
  { apply StronglySorted_map_le, sort_by_sorted. }
  assert (Hin : forall d, d ∈ bs <->
     exists rc, rc ∈ history /\ effective_date rc = d /\
                start_date < d <= end_date)
    by (intros d; apply elem_of_boundaries).
  assert (Heq :
    InterestRateCalculator._calculate_simple_interest self principal
      start_date end_date
    = segmented_simple_interest self history principal start_date end_date)
    by (by apply calculate_simple_interest_segmented).
  split; [exact Heq|].
  split.
  { intros total_interest effective_rate H. rewrite Heq in H.
    unfold segmented_simple_interest in H.
    apply bind_Ok in H as (t & Hacc & H).
    apply bind_Ok in H as (w & Hrate & H). injection H as <- <-.
    split.
    - apply accrue_segments_contributions in Hacc as (cs & Hcs & Hsum).
      exists cs. split; [|exact Hsum].
      eapply Forall2_impl; [exact Hcs|].
      intros seg c (r & Hr & Hc). unfold segment_contribution in Hc.
      apply bind_Ok in Hc as (f & Hf & Hc).
      apply bind_Ok in Hc as (py & Hpy & Hc).
      apply bind_Ok in Hc as (ys & Hys & Hc).
      exists r, f, py, ys. done.
    - unfold implied_flat_rate in Hrate.
      apply bind_Ok in Hrate as (q & Hq & Hrate).
      apply bind_Ok in Hrate as (y & Hy & Hrate).
      apply bind_Ok in Hrate as (qy & Hqy & Hrate).
      exists q, y, qy. done. }
  split; [done|]. split; [done|].
  assert (Hpart := segments_partition end_date bs start_date Hsorted).
  destruct Hpart as (H1 & H2 & H3 & H4); [|done|].
  { rewrite Forall_forall. intros d Hd. apply Hin in Hd as (rc & _ & _ & Hd). lia. }
  split; [exact H1|]. split; [|by split; [|split]].
  clear. unfold segs. generalize start_date. generalize bs. clear.
  intros bs. induction bs as [|b bs IH]; intros current i first_day ndays next Hs Hb.
  - by rewrite lookup_nil in Hb.
  - destruct i as [|i]; simpl in *.
    + injection Hs as <- <-. by injection Hb as <-.
    + by eapply IH.
Qed.

Lemma variable_simple_interest_by_segments_witness :
  segments two_rate_start (boundaries two_rate_sorted two_rate_start two_rate_end)
    two_rate_end = [(mkdate 2022 6 1, 214); (mkdate 2023 1 1, 181)] /\
  rate_in_effect two_rate_sorted (dec 20 (-1)) (mkdate 2022 6 1) = Ok (dec 95 (-1)) /\
  rate_in_effect two_rate_sorted (dec 20 (-1)) (mkdate 2023 1 1) = Ok (dec 100 (-1)) /\
  segment_contribution (dec 1000000 0) (dec 95 (-1)) 214
    = Ok (dec 5569863013698630136986301370 (-23)) /\
  segment_contribution (dec 1000000 0) (dec 100 (-1)) 181
    = Ok (dec 4958904109589041095890410959 (-23)) /\
  InterestRateCalculator._calculate_simple_interest two_rate_calculator
    (dec 1000000 0) two_rate_start two_rate_end
  = Ok (dec 1052876712328767123287671233 (-22),
        dec 9729113924050632911392405064 (-27)).
Proof.
  split; [vm_compute; reflexivity|]. split; [vm_compute; reflexivity|].
  split; [vm_compute; reflexivity|]. split; [vm_compute; reflexivity|].
  split; [vm_compute; reflexivity|].
  rewrite (proj1 (variable_simple_interest_by_segments two_rate_calculator
                    two_rate_sorted (dec 1000000 0) two_rate_start two_rate_end
                    eq_refl eq_refl ltac:(vm_compute; discriminate))).
  vm_compute. reflexivity.
Defined.

(** The accrual of that example: one boundary (2023-01-01), a segment
    of 214 days at 9.5% and a final one of 181 days at 10%; the interest
    is 105287.6712328767123287671233 and the implied flat rate over the
    395 days 9.729113924050632911392405064. *)
Lemma two_rate_accrual :
  InterestRateCalculator.__init__ SIMPLE (Some two_rate_history)
    (Some (dec 20 (-1))) None = Ok two_rate_calculator /\
  segments two_rate_start (boundaries two_rate_sorted two_rate_start two_rate_end)
    two_rate_end = [(mkdate 2022 6 1, 214); (mkdate 2023 1 1, 181)] /\
  InterestRateCalculator._calculate_simple_interest two_rate_calculator
    (dec 1000000 0) two_rate_start two_rate_end
  = Ok (dec 1052876712328767123287671233 (-22),
        dec 9729113924050632911392405064 (-27)).
Proof. split; [|split]; vm_compute; reflexivity. Qed.

(** ** The orchestrator: grouping by close and the closes processed *)

Lemma group_by_close_snoc (l : list Partner) (p : Partner) :
  LateInterestEngine.group_by_close (l ++ [p])
  = <[close_number p :=
        default [] (LateInterestEngine.group_by_close l !! close_number p) ++ [p]]>
      (LateInterestEngine.group_by_close l).
Proof. unfold LateInterestEngine.group_by_close. by rewrite foldl_app. Qed.

(** Each close number present maps to the partners of that close, in
    the order of the list. *)
Lemma group_by_close_lookup (l : list Partner) (k : Z) :
  LateInterestEngine.group_by_close l !! k
  = match filter (fun p => close_number p = k) l with
    | [] => None
    | _ :: _ => Some (filter (fun p => close_number p = k) l)
    end.
Proof.
  induction l as [|p l IH] using rev_ind; [done|].
  rewrite group_by_close_snoc, filter_app.
  destruct (decide (close_number p = k)) as [Heq|Hne].
  - rewrite (filter_cons_True _ p []) by done.
    rewrite Heq, lookup_insert_eq, IH.
    by destruct (filter _ l).
  - rewrite (filter_cons_False _ p []) by done.
    rewrite lookup_insert_ne, IH by done.
    by rewrite app_nil_r.
Qed.

Lemma group_by_close_members (l : list Partner) (k : Z) (g : list Partner) :
  LateInterestEngine.group_by_close l !! k = Some g ->
  Forall (fun p => close_number p = k) g.
Proof.
  rewrite group_by_close_lookup.
  destruct (filter _ l) as [|p g'] eqn:Hf; [done|]. intros [= <-].
  rewrite <- Hf, Forall_forall. by intros x [Hx _]%list_elem_of_filter.
Qed.

Lemma elem_of_all_closes (l : list Partner) (k : Z) :
  k ∈ LateInterestEngine.all_closes (LateInterestEngine.group_by_close l) <->
  exists p, p ∈ l /\ close_number p = k.
Proof.
  unfold LateInterestEngine.all_closes.
  rewrite elem_of_sort_by, elem_of_elements, elem_of_dom, group_by_close_lookup.
  destruct (filter _ l) as [|p g] eqn:Hf.
  - split; [by intros [? ?]|]. intros (p & Hp & Hk).
    assert (p ∈ filter (fun p => close_number p = k) l)
      by (by apply list_elem_of_filter).
    rewrite Hf in H. by apply elem_of_nil in H.
  - split; [|by eauto]. intros _.
    assert (p ∈ filter (fun p => close_number p = k) l) as Hp
      by (rewrite Hf; by left).
    apply list_elem_of_filter in Hp as [Hk Hp]. eauto.
Qed.

Lemma StronglySorted_le_lt (l : list Z) :
  StronglySorted Z.le l -> NoDup l -> StronglySorted Z.lt l.
Proof.
  induction 1 as [|x l Hs IH Hx]; intros Hnd; constructor.
  - apply IH. by apply NoDup_cons in Hnd as [_ ?].
  - apply NoDup_cons in Hnd as [Hx' _].
    rewrite Forall_forall in Hx |- *. intros y Hy.
    specialize (Hx y Hy). assert (x <> y) by (intros ->; done). lia.
Qed.

(** The close numbers come out in strictly ascending order. *)
Lemma all_closes_sorted (m : gmap Z (list Partner)) :
  StronglySorted Z.lt (LateInterestEngine.all_closes m).
Proof.
  unfold LateInterestEngine.all_closes. apply StronglySorted_le_lt.
  - apply (sort_by_sorted id).
  - rewrite sort_by_perm. apply NoDup_elements.
Qed.

Lemma elem_of_drop_1_sorted (l : list Z) (k : Z) :
  StronglySorted Z.lt l -> k ∈ drop 1 l -> k ∈ l /\ exists h, h ∈ l /\ h < k.
Proof.
  destruct l as [|h t]; simpl; [by intros _ ?%elem_of_nil|].
  intros [_ Hh]%StronglySorted_inv Hk. split; [by right|].
  exists h. split; [by left|]. rewrite Forall_forall in Hh. by apply Hh.
Qed.

(** What is left of a strictly ascending list without its first element:
    the elements that have a smaller one in the list. *)
Lemma elem_of_drop_1_lower (l : list Z) (k : Z) :
  StronglySorted Z.lt l ->
  k ∈ drop 1 l <-> k ∈ l /\ exists h, h ∈ l /\ h < k.
Proof.
  intros Hs. split; [by apply elem_of_drop_1_sorted|].
  intros (Hk & h & Hh & Hlt).
  destruct l as [|x t]; [by apply elem_of_nil in Hk|]. simpl.
  apply StronglySorted_inv in Hs as [_ Hx]. rewrite Forall_forall in Hx.
  apply elem_of_cons in Hk as [->|Hk]; [|done].
  apply elem_of_cons in Hh as [->|Hh]; [lia|].
  specialize (Hx h Hh). lia.
Qed.

Lemma new_lp_calculation_close dec_power self new_lp capital_calls r :
  LateInterestCalculator.calculate_late_interest_for_new_lp dec_power self
    new_lp capital_calls = Ok r ->
  nlp_close_number r = close_number new_lp /\ nlp_partner_name r = name new_lp.
Proof.
  unfold LateInterestCalculator.calculate_late_interest_for_new_lp. intros H.
  apply bind_Ok in H as ([[b tc] tl] & _ & H).
  apply bind_Ok in H as (tc' & _ & H).
  apply bind_Ok in H as (tl' & _ & H).
  by injection H as <-.
Qed.

Lemma new_lp_loop_inv dec_power self capital_calls lps calcs tc results
    calcs' tc' results' :
  LateInterestEngine.new_lp_loop dec_power self capital_calls lps calcs tc results
    = Ok (calcs', tc', results') ->
  exists new, calcs' = calcs ++ new /\ results' = results ++ new /\
    Forall2 (fun lp r => nlp_close_number r = close_number lp) lps new.
Proof.
  revert calcs tc results.
  induction lps as [|lp lps IH]; simpl; intros calcs tc results H.
  - injection H as <- _ <-. exists []. by rewrite !app_nil_r.
  - apply bind_Ok in H as (r & Hr & H).
    apply bind_Ok in H as (tc1 & _ & H).
    apply IH in H as (new & -> & -> & Hnew).
    exists (r :: new). rewrite <- !app_assoc. split; [done|]. split; [done|].
    constructor; [|done]. by apply new_lp_calculation_close in Hr as [? _].
Qed.

Lemma process_close_inv dec_power self lists by_close increases acc k acc' :
  (forall g, by_close !! k = Some g -> Forall (fun p => close_number p = k) g) ->
  LateInterestEngine.process_close dec_power self lists by_close increases acc k
    = Ok acc' ->
  (exists new,
     LateInterestEngine.all_new_lp_results acc'
       = LateInterestEngine.all_new_lp_results acc ++ new /\
     Forall (fun r => nlp_close_number r = k) new) /\
  exists s,
    LateInterestEngine.close_summaries acc'
      = LateInterestEngine.close_summaries acc ++ [s] /\
    LateInterestEngine.cs_close_number s = k.
Proof.
  intros Hgroup H. unfold LateInterestEngine.process_close in H.
  apply bind_Ok in H as ([[calcs tc] results] & Hloop & H).
  apply bind_Ok in H as (gtc & _ & H).
  apply bind_Ok in H as ([[bc ta] gta] & _ & H).
  apply bind_Ok in H as (diff & _ & H).
  injection H as <-. simpl.
  apply new_lp_loop_inv in Hloop as (new & _ & -> & Hnew).
  split; [|eauto].
  exists new. split; [done|].
  assert (Hg : Forall (fun p => close_number p = k) (default [] (by_close !! k))).
  { destruct (by_close !! k) as [g|]; simpl; [by apply Hgroup|constructor]. }
  revert Hg Hnew. generalize (default [] (by_close !! k)). intros g Hg Hnew.
  induction Hnew as [|lp r lps new Hr Hnew IH]; [constructor|].
  apply Forall_cons in Hg as [Hlp Hg]. constructor; [congruence|auto].
Qed.

Lemma closes_loop_inv dec_power self lists by_close increases closes acc acc' :
  (forall k g, by_close !! k = Some g -> Forall (fun p => close_number p = k) g) ->
  LateInterestEngine.closes_loop dec_power self lists by_close increases closes acc
    = Ok acc' ->
  (exists new,
     LateInterestEngine.all_new_lp_results acc'
       = LateInterestEngine.all_new_lp_results acc ++ new /\
     Forall (fun r => nlp_close_number r ∈ closes) new) /\
  map LateInterestEngine.cs_close_number (LateInterestEngine.close_summaries acc')
  = map LateInterestEngine.cs_close_number (LateInterestEngine.close_summaries acc)
    ++ closes.
Proof.
  intros Hgroup. revert acc.
  induction closes as [|k closes IH]; simpl; intros acc H.
  - injection H as <-. split; [|by rewrite app_nil_r].
    exists []. by rewrite app_nil_r.
  - apply bind_Ok in H as (acc1 & H1 & H).
    apply process_close_inv in H1 as ((new1 & Hr1 & Hnew1) & s & Hs & Hk);
      [|by apply Hgroup].
    apply IH in H as ((new & Hr & Hnew) & Hsum).
    split.
    + exists (new1 ++ new). split; [by rewrite Hr, Hr1, app_assoc|].
      apply Forall_app. split.
      * eapply Forall_impl; [exact Hnew1|]. intros r ->. by left.
      * eapply Forall_impl; [exact Hnew|]. intros r Hr'. by right.
    + rewrite Hsum, Hs, map_app, <- app_assoc. simpl. by rewrite Hk.
Qed.

(** C2: [run_complete_calculation] groups the (sorted) partners by
    [close_number], takes the close numbers in strictly ascending order
    and drops the first, the lowest close present, whatever its number.
    A close is processed exactly when it has a partner and some partner
    has a lower close number; so close 1 is processed exactly when it
    has a partner and some partner has a close number below 1, and it
    is the close skipped exactly when it is the lowest present.  A run
    that returns has one summary per close processed, in that order,
    and every new-LP record belongs to a close processed, never to the
    lowest close; a fund whose partners all have the same close number
    (close 1, say) returns with no new-LP record, no allocation record
    and no close summary. *)
Theorem lowest_close_is_skipped
    (dec_power : Decimal -> Decimal -> result Decimal)
    (self : LateInterestEngine.t) (today : date)
    (lists : LateInterestEngine.Lists)
    (commitment_increases : option (gmap string Decimal)) :
  let sorted := sort_by close_number (LateInterestEngine.partners lists) in
  let by_close := LateInterestEngine.group_by_close sorted in
  let to_process := LateInterestEngine.closes_to_process by_close in
  let outcome :=
    (LateInterestEngine.run_complete_calculation dec_power self today lists
       commitment_increases).2 in
  (forall k,
     by_close !! k
     = match filter (fun p => close_number p = k) sorted with
       | [] => None
       | _ :: _ => Some (filter (fun p => close_number p = k) sorted)
       end) /\
  StronglySorted Z.lt (LateInterestEngine.all_closes by_close) /\
  (forall k, k ∈ LateInterestEngine.all_closes by_close <->
     exists p, p ∈ LateInterestEngine.partners lists /\ close_number p = k) /\
  to_process = drop 1 (LateInterestEngine.all_closes by_close) /\
  (forall k, k ∈ to_process <->
     (exists p, p ∈ LateInterestEngine.partners lists /\ close_number p = k) /\
     (exists q, q ∈ LateInterestEngine.partners lists /\ close_number q < k)) /\
  (1 ∈ to_process <->
     (exists p, p ∈ LateInterestEngine.partners lists /\ close_number p = 1) /\
     (exists q, q ∈ LateInterestEngine.partners lists /\ close_number q < 1)) /\
  (Forall (fun p => 1 <= close_number p) (LateInterestEngine.partners lists) ->
   1 ∉ to_process) /\
  (forall out, outcome = Ok out ->
     map LateInterestEngine.cs_close_number (LateInterestEngine.summary_by_close out)
       = to_process /\
     Forall (fun r =>
               nlp_close_number r ∈ to_process /\
               exists q, q ∈ LateInterestEngine.partners lists /\
                         close_number q < nlp_close_number r)
       (LateInterestEngine.new_lps out)) /\
  (forall c,
     Forall (fun p => close_number p = c) (LateInterestEngine.partners lists) ->
     exists out, outcome = Ok out /\
       LateInterestEngine.new_lps out = [] /\
       LateInterestEngine.existing_lps out = [] /\
       LateInterestEngine.summary_by_close out = []).
Proof.
  intros sorted by_close to_process outcome.
  assert (Hin : forall k, k ∈ LateInterestEngine.all_closes by_close <->
     exists p, p ∈ LateInterestEngine.partners lists /\ close_number p = k).
  { intros k. unfold by_close. rewrite elem_of_all_closes.
    split; intros (p & Hp & Hk); exists p; split; try done.
    - by apply elem_of_sort_by in Hp.
    - by apply elem_of_sort_by. }
  assert (Hsorted : StronglySorted Z.lt (LateInterestEngine.all_closes by_close))
    by apply all_closes_sorted.
  assert (Hproc : forall k, k ∈ to_process <->
     (exists p, p ∈ LateInterestEngine.partners lists /\ close_number p = k) /\
     (exists q, q ∈ LateInterestEngine.partners lists /\ close_number q < k)).
  { intros k. unfold to_process, LateInterestEngine.closes_to_process.
    rewrite elem_of_drop_1_lower by done. rewrite Hin.
    split; intros [Hk Hlow]; (split; [done|]).
    - destruct Hlow as (h & (q & Hq & <-)%Hin & Hlt). eauto.
    - destruct Hlow as (q & Hq & Hlt). exists (close_number q).
      split; [|done]. apply Hin. eauto. }
  split; [intros k; apply group_by_close_lookup|].
  split; [done|]. split; [done|]. split; [done|]. split; [done|].
  split; [apply Hproc|].
  split.
  { intros Hge (_ & q & Hq & Hlt)%Hproc.
    rewrite Forall_forall in Hge. specialize (Hge q Hq). simpl in Hge. lia. }
  split.
  - intros out H. subst outcome. simpl in H.
    unfold LateInterestEngine.calculation in H. simpl in H.
    apply bind_Ok in H as (acc & Hloop & H).
    apply bind_Ok in H as (agg & _ & H). injection H as <-. simpl.
    apply closes_loop_inv in Hloop as ((new & Hr & Hnew) & Hsum);
      [|intros k g; apply group_by_close_members].
    simpl in Hr, Hsum. split; [done|]. rewrite Hr.
    eapply Forall_impl; [exact Hnew|]. intros r Hr'. split; [done|].
    by apply Hproc in Hr' as [_ ?].
  - intros c Hall.
    assert (Hnil : to_process = []).
    { assert (Hone : Forall (fun k => k = c) (LateInterestEngine.all_closes by_close)).
      { rewrite Forall_forall. intros k (p & Hp & <-)%Hin.
        rewrite Forall_forall in Hall. by apply Hall. }
      unfold to_process, LateInterestEngine.closes_to_process.
      destruct (LateInterestEngine.all_closes by_close) as [|a [|b t]];
        [done|done|].
      apply Forall_cons in Hone as [-> Hone].
      apply Forall_cons in Hone as [-> _].
      apply StronglySorted_inv in Hsorted as [_ Hlt].
      apply Forall_cons in Hlt as [Hlt _]. lia. }
    subst outcome. simpl. unfold LateInterestEngine.calculation. simpl.
    fold sorted. fold by_close. fold to_process. rewrite Hnil. simpl.
    eexists. split; [reflexivity|]. by simpl.
Qed.

(** C2, as worded, fails when a partner has a close number below 1: in
    the fund whose first close is numbered 0, close 0 is the one
    skipped and close 1 is processed as an admitting close; its partner
    is charged late interest, $15,108.91, all of it allocated to the
    partner of close 0. *)
Lemma close_one_is_processed_after_close_zero :
  LateInterestEngine.closes_to_process
    (LateInterestEngine.group_by_close (sort_by close_number early_close_partners))
    = [1] /\
  exists out,
    (LateInterestEngine.run_complete_calculation no_power example_engine 0
       (LateInterestEngine.mkLists early_close_partners example_calls) None).2
      = Ok out /\
    map (fun r => (nlp_partner_name r, nlp_close_number r, total_late_interest_due r))
      (LateInterestEngine.new_lps out)
      = [("New Investor LLC", 1, dec 1510891 (-2))] /\
    LateInterestEngine.existing_lps out
      = [mkExistingLPAllocation "ABC Partners" (dec 5000000 0) 0 (dec 1510891 (-2))
           [(1, dec 1510891 (-2))]] /\
    map LateInterestEngine.cs_close_number (LateInterestEngine.summary_by_close out)
      = [1] /\
    ~ (Forall (fun r => nlp_close_number r <> 1) (LateInterestEngine.new_lps out)).
Proof.
  split; [vm_compute; reflexivity|].
  eexists. split; [vm_compute; reflexivity|].
  split; [vm_compute; reflexivity|]. split; [vm_compute; reflexivity|].
  split; [vm_compute; reflexivity|].
  intros H. apply Forall_inv in H. by apply H.
Qed.

(** A run of the example fund: the engine is the one [__init__] builds;
    close 2 is the only close processed; the late interest of the one
    new LP, $15,108.91, is shared between the two partners of close 1. *)
Lemma example_run :
  LateInterestEngine.__init__ (zero_call_assumptions PRIME) = Ok example_engine /\
  LateInterestEngine.closes_to_process
    (LateInterestEngine.group_by_close (sort_by close_number example_partners))
    = [2] /\
  exists out,
    (LateInterestEngine.run_complete_calculation no_power example_engine 0
       (LateInterestEngine.mkLists example_partners example_calls) None).2 = Ok out /\
    map (fun r => (nlp_partner_name r, nlp_close_number r, total_late_interest_due r))
      (LateInterestEngine.new_lps out)
      = [("New Investor LLC", 2, dec 1510891 (-2))] /\
    LateInterestEngine.existing_lps out
      = [mkExistingLPAllocation "ABC Partners" (dec 5000000 0) 1 (dec 755446 (-2))
           [(2, dec 755446 (-2))];
         mkExistingLPAllocation "XYZ Capital" (dec 5000000 0) 1 (dec 755446 (-2))
           [(2, dec 755446 (-2))]] /\
    LateInterestEngine.total_late_interest_collected out = dec 1510891 (-2) /\
    LateInterestEngine.total_late_interest_allocated out = dec 1510892 (-2).
Proof.
  split; [vm_compute; reflexivity|]. split; [vm_compute; reflexivity|].
  eexists. split; [vm_compute; reflexivity|].
  split; [|split; [|split]]; vm_compute; reflexivity.
Qed.

(** ** The rounding helper *)

(** C1, at a value halfway between two cents: [_round_amount] takes
    0.125 to 0.12 and 0.135 to 0.14 (and -0.125 to -0.12), the results
    of rounding half to even, where rounding half up gives 0.13; so 25
    cents shared by two partners of equal commitment are allocated as 12
    cents each. *)
Theorem round_amount_halfway_goes_to_even :
  _round_amount (dec 125 (-3)) 2 = Ok (dec 12 (-2)) /\
  rounded_half_even (dec 125 (-3)) 2 (dec 12 (-2)) /\
  ~ rounded_half_up (dec 125 (-3)) 2 (dec 12 (-2)) /\
  rounded_half_up (dec 125 (-3)) 2 (dec 13 (-2)) /\
  _round_amount (dec 135 (-3)) 2 = Ok (dec 14 (-2)) /\
  _round_amount (Dec.neg (dec 125 (-3))) 2 = Ok (Dec.neg (dec 12 (-2))) /\
  AllocationCalculator.calculate_allocations cent_calculator quarter_new_lps
    equal_partners 2
  = Ok ([mkExistingLPAllocation "Partner A" (dec 1000000 0) 1 (dec 12 (-2))
           [(2, dec 12 (-2))];
         mkExistingLPAllocation "Partner B" (dec 1000000 0) 1 (dec 12 (-2))
           [(2, dec 12 (-2))]],
        dec 24 (-2)).
Proof.
  split; [vm_compute; reflexivity|].
  split; [repeat split; vm_compute; congruence|].
  split.
  { intros [_ H]. assert (Hh : halfway (dec 125 (-3)) 2 (dec 12 (-2)))
      by (vm_compute; reflexivity).
    apply H in Hh. vm_compute in Hh. discriminate Hh. }
  split.
  { split; [repeat split; vm_compute; congruence|]. intros _.
    vm_compute. reflexivity. }
  split; [vm_compute; reflexivity|].
  split; vm_compute; reflexivity.
Qed.

(** *** Rounding half to even, in general *)

Lemma round_half_even_nearest (c k : Z) :
  0 <= c -> 0 < k ->
  0 <= Dec.round_half_even c k /\
  2 * Z.abs (Dec.round_half_even c k * 10 ^ k - c) <= 10 ^ k /\
  (2 * Z.abs (Dec.round_half_even c k * 10 ^ k - c) = 10 ^ k ->
   Z.even (Dec.round_half_even c k) = true).
Proof.
  intros Hc Hk. unfold Dec.round_half_even.
  assert (HP : 0 < 10 ^ k) by (apply Z.pow_pos_nonneg; lia).
  pose proof (Z.div_mod c (10 ^ k) ltac:(lia)) as Hdm.
  pose proof (Z.mod_pos_bound c (10 ^ k) HP) as Hr.
  assert (Hq : 0 <= c / 10 ^ k) by (apply Z.div_pos; lia).
  set (P := 10 ^ k) in *. set (q := c / P) in *. set (r := c mod P) in *.
  destruct (2 * r >? P) eqn:H1.
  - split; [lia|]. split; [lia|]. intros H. lia.
  - destruct (2 * r =? P) eqn:H2.
    + destruct (Z.even q) eqn:He.
      * split; [lia|]. split; [lia|]. done.
      * split; [lia|]. split; [lia|]. intros _.
        rewrite Z.add_1_r, Z.even_succ, <- Z.negb_even, He. done.
    + split; [lia|]. split; [lia|]. intros H. lia.
Qed.

(** [_fix] leaves a decimal within the precision and the exponent range
    as it is. *)
Lemma fix_id (d : Decimal) :
  Dec.Etiny <= Dec.d_exp d <= Dec.Emax ->
  Dec.d_int d = 0 \/
  (Dec.ndigits (Dec.d_int d) <= Dec.prec /\ Dec.adjusted d <= Dec.Emax) ->
  Dec._fix d = Ok d.
Proof.
  intros He Hd. unfold Dec._fix, Dec.is_zero.
  destruct (Dec.d_int d =? 0) eqn:Hz.
  - apply Z.eqb_eq in Hz. destruct d as [s c e]. simpl in *. subst c.
    f_equal. f_equal. lia.
  - destruct Hd as [Hd|[Hn Ha]]; [lia|].
    unfold Dec.adjusted, Dec.Etop, Dec.Etiny, Dec.Emin, Dec.Emax, Dec.prec in *.
    destruct (_ >? _) eqn:H1; [lia|].
    destruct (_ <? _) eqn:H2; [lia|done].
Qed.

Lemma pow_tenth_exact (places : Z) :
  0 <= places <= 1000026 ->
  exists q, (if places =? 0 then Ok Dec.one else Dec.pow_tenth places) = Ok q /\
            Dec.d_exp q = - places.
Proof.
  intros Hp. destruct (places =? 0) eqn:H0.
  - exists Dec.one. split; [done|]. simpl. lia.
  - unfold Dec.pow_tenth. rewrite H0.
    exists (Dec.mkDec false 1 (- places)). split; [|reflexivity].
    apply fix_id; simpl.
    + unfold Dec.Etiny, Dec.Emin, Dec.Emax, Dec.prec. lia.
    + right. unfold Dec.adjusted. simpl.
      change (Dec.ndigits 1) with 1. unfold Dec.prec, Dec.Emax. lia.
Qed.

(** A successful [quantize] is the rescaling to the exponent of the
    quantizer. *)
Lemma quantize_Ok (d q r : Decimal) :
  Dec.quantize d q = Ok r -> r = Dec.rescale d (Dec.d_exp q).
Proof.
  unfold Dec.quantize.
  destruct (negb _) eqn:Hrange; [done|].
  apply negb_false_iff, andb_true_iff in Hrange as [H1 H2].
  destruct (Dec.is_zero d) eqn:Hz.
  - intros H. unfold Dec.rescale. rewrite Hz.
    rewrite fix_id in H; [by injection H|simpl; lia|by left].
  - destruct (Dec.adjusted d >? Dec.Emax) eqn:Ha; [done|].
    destruct (Dec.adjusted d - Dec.d_exp q + 1 >? Dec.prec) eqn:Hp; [done|].
    destruct (Dec.adjusted (Dec.rescale d (Dec.d_exp q)) >? Dec.Emax) eqn:Ha';
      [done|].
    destruct (Dec.ndigits (Dec.d_int (Dec.rescale d (Dec.d_exp q))) >? Dec.prec)
      eqn:Hn; [done|].
    intros H. rewrite fix_id in H; [by injection H| |right; lia].
    unfold Dec.rescale. rewrite Hz.
    destruct (Dec.d_exp q <=? Dec.d_exp d); simpl; lia.
Qed.

Lemma rescale_half_even (amount : Decimal) (places : Z) :
  0 <= Dec.d_int amount ->
  rounded_half_even amount places (Dec.rescale amount (- places)).
Proof.
  intros Hc. unfold rounded_half_even, rounded_to_nearest, halfway,
    rounding_error, rounding_unit, Dec.rescale, Dec.is_zero.
  destruct (Dec.d_int amount =? 0) eqn:Hz.
  { apply Z.eqb_eq in Hz. simpl. rewrite Hz. simpl.
    assert (0 < 10 ^ Z.max 0 (- places - Dec.d_exp amount))
      by (apply Z.pow_pos_nonneg; lia).
    repeat split; lia. }
  destruct (- places <=? Dec.d_exp amount) eqn:Hle; simpl.
  - replace (Z.max 0 (- places - Dec.d_exp amount)) with 0 by lia.
    replace (Z.max 0 (Dec.d_exp amount + places))
      with (Dec.d_exp amount - - places) by lia.
    rewrite Z.pow_0_r. repeat split; lia.
  - replace (Z.max 0 (- places - Dec.d_exp amount))
      with (- places - Dec.d_exp amount) by lia.
    replace (Z.max 0 (Dec.d_exp amount + places)) with 0 by lia.
    rewrite Z.pow_0_r, Z.mul_1_r.
    destruct (round_half_even_nearest (Dec.d_int amount)
                (- places - Dec.d_exp amount)) as (_ & H1 & H2); [lia|lia|].
    repeat split; done.
Qed.

(** Whenever [_round_amount] returns, the result is the amount rounded
    half to even to the given number of decimal places. *)
Lemma round_amount_half_even (amount : Decimal) (places : Z) (r : Decimal) :
  0 <= Dec.d_int amount -> 0 <= places <= 1000026 ->
  _round_amount amount places = Ok r ->
  rounded_half_even amount places r.
Proof.
  intros Hc Hp H. unfold _round_amount in H.
  destruct (pow_tenth_exact places Hp) as (q & Hq & He).
  destruct (places =? 0) eqn:H0.
  - injection Hq as <-. apply quantize_Ok in H. subst r.
    apply Z.eqb_eq in H0. subst places. by apply rescale_half_even.
  - rewrite Hq in H. cbn [mbind result_bind] in H.
    apply quantize_Ok in H. subst r. rewrite He. by apply rescale_half_even.
Qed.

(** *** When the rounding helper returns *)

Lemma ndigits_fuel_bounds (fuel : nat) (n : Z) :
  0 < n < 10 ^ (Z.of_nat fuel + 1) ->
  1 <= Dec.ndigits_fuel fuel n /\
  10 ^ (Dec.ndigits_fuel fuel n - 1) <= n < 10 ^ Dec.ndigits_fuel fuel n.
Proof.
  revert n. induction fuel as [|fuel IH]; intros n Hn.
  - simpl in *. change (10 ^ (1 - 1)) with 1. change (10 ^ 1) with 10 in *. lia.
  - cbn [Dec.ndigits_fuel]. destruct (n <? 10) eqn:H10.
    + change (10 ^ (1 - 1)) with 1. change (10 ^ 1) with 10. lia.
    + assert (Hpow : 10 ^ (Z.of_nat (S fuel) + 1) = 10 * 10 ^ (Z.of_nat fuel + 1)).
      { replace (Z.of_nat (S fuel) + 1) with (Z.succ (Z.of_nat fuel + 1)) by lia.
        apply Z.pow_succ_r. lia. }
      pose proof (Z.div_mod n 10 ltac:(lia)) as Hdm.
      pose proof (Z.mod_pos_bound n 10 ltac:(lia)) as Hr.
      destruct (IH (n / 10)) as (Hd & Hlo & Hhi); [lia|].
      set (d := Dec.ndigits_fuel fuel (n / 10)) in *.
      replace (1 + d - 1) with (Z.succ (d - 1)) by lia.
      replace (1 + d) with (Z.succ d) by lia.
      rewrite !Z.pow_succ_r by lia.
      replace (Z.succ (d - 1)) with d in * by lia.
      assert (10 ^ d = 10 * 10 ^ (d - 1)).
      { replace d with (Z.succ (d - 1)) at 1 by lia. apply Z.pow_succ_r. lia. }
      lia.
Qed.

Lemma ndigits_bounds (n : Z) :
  0 < n ->
  1 <= Dec.ndigits n /\ 10 ^ (Dec.ndigits n - 1) <= n < 10 ^ Dec.ndigits n.
Proof.
  intros Hn. unfold Dec.ndigits. apply ndigits_fuel_bounds.
  split; [done|].
  rewrite Z2Nat.id by apply Z.log2_nonneg.
  destruct (Z.log2_spec n Hn) as [_ Hlt].
  eapply Z.lt_le_trans; [exact Hlt|].
  rewrite <- Z.add_1_r. apply Z.pow_le_mono_l.
  lia.
Qed.

Lemma ndigits_le (n k : Z) : 0 <= n < 10 ^ k -> 1 <= k -> Dec.ndigits n <= k.
Proof.
  intros Hn Hk. destruct (decide (n = 0)) as [->|Hne]; [done|].
  destruct (ndigits_bounds n) as (Hd & Hlo & _); [lia|].
  destruct (decide (Dec.ndigits n <= k)) as [|Hgt]; [done|].
  assert (10 ^ k <= 10 ^ (Dec.ndigits n - 1))
    by (apply Z.pow_le_mono_r; lia).
  lia.
Qed.

(** The rounding helper returns for every amount below
    [10^(27 - places)] in magnitude. *)
Lemma round_amount_returns (amount : Decimal) (places m : Z) :
  0 <= Dec.d_int amount < 10 ^ m -> 0 <= m ->
  0 <= places <= 1000026 ->
  m + Dec.d_exp amount + places <= 27 ->
  _round_amount amount places = Ok (Dec.rescale amount (- places)).
Proof.
  intros Hc Hm Hp Hsmall. unfold _round_amount.
  destruct (pow_tenth_exact places Hp) as (q & Hq & He).
  assert (Hquant : Dec.quantize amount q = Ok (Dec.rescale amount (- places))).
  { unfold Dec.quantize. rewrite He.
    assert (Hr : (Dec.Etiny <=? - places) && (- places <=? Dec.Emax) = true).
    { unfold Dec.Etiny, Dec.Emin, Dec.Emax, Dec.prec. lia. }
    rewrite Hr. cbn [negb].
    destruct (Dec.is_zero amount) eqn:Hz.
    { unfold Dec.rescale. rewrite Hz. apply fix_id; simpl; [|by left].
      unfold Dec.Etiny, Dec.Emin, Dec.Emax, Dec.prec. lia. }
    unfold Dec.is_zero in Hz.
    assert (Hm1 : 1 <= m).
    { destruct (decide (m = 0)) as [->|]; [|lia].
      change (10 ^ 0) with 1 in Hc. lia. }
    assert (Hnd : Dec.ndigits (Dec.d_int amount) <= m) by (by apply ndigits_le).
    assert (Hnd1 : 1 <= Dec.ndigits (Dec.d_int amount))
      by (apply ndigits_bounds; lia).
    assert (Hcoeff : 0 <= Dec.d_int (Dec.rescale amount (- places)) < 10 ^ 28).
    { unfold Dec.rescale, Dec.is_zero. rewrite Hz.
      destruct (- places <=? Dec.d_exp amount) eqn:Hle; simpl.
      - assert (Hk : 0 < 10 ^ (Dec.d_exp amount - - places))
          by (apply Z.pow_pos_nonneg; lia).
        assert (10 ^ m * 10 ^ (Dec.d_exp amount - - places) <= 10 ^ 28).
        { rewrite <- Z.pow_add_r by lia. apply Z.pow_le_mono_r; lia. }
        nia.
      - destruct (round_half_even_nearest (Dec.d_int amount)
                    (- places - Dec.d_exp amount)) as (H0 & H1 & _); [lia|lia|].
        split; [done|].
        assert (Hk : 0 < 10 ^ (- places - Dec.d_exp amount))
          by (apply Z.pow_pos_nonneg; lia).
        assert (10 ^ m <= 10 ^ (- places - Dec.d_exp amount) * 10 ^ 27).
        { rewrite <- Z.pow_add_r by lia. apply Z.pow_le_mono_r; lia. }
        change (10 ^ 28) with (10 * 10 ^ 27).
        assert (0 < 10 ^ 27) by done.
        nia. }
    assert (Hnd' : Dec.ndigits (Dec.d_int (Dec.rescale amount (- places))) <= 28)
      by (apply ndigits_le; [done|lia]).
    assert (Hnd'1 : 1 <= Dec.ndigits (Dec.d_int (Dec.rescale amount (- places)))).
    { destruct (decide (Dec.d_int (Dec.rescale amount (- places)) = 0)) as [->|];
        [done|]. apply ndigits_bounds. lia. }
    assert (Hexp : Dec.d_exp (Dec.rescale amount (- places)) = - places).
    { unfold Dec.rescale, Dec.is_zero. rewrite Hz.
      by destruct (- places <=? Dec.d_exp amount). }
    unfold Dec.adjusted. rewrite Hexp.
    unfold Dec.Emax, Dec.prec.
    destruct (Dec.d_exp amount + Dec.ndigits (Dec.d_int amount) - 1 >? 999999)
      eqn:H1; [lia|].
    destruct (Dec.d_exp amount + Dec.ndigits (Dec.d_int amount) - 1 - - places + 1
              >? 28) eqn:H2; [lia|].
    destruct (- places + Dec.ndigits (Dec.d_int (Dec.rescale amount (- places))) - 1
              >? 999999) eqn:H3; [lia|].
    destruct (Dec.ndigits (Dec.d_int (Dec.rescale amount (- places))) >? 28)
      eqn:H4; [lia|].
    apply fix_id.
    - rewrite Hexp. unfold Dec.Etiny, Dec.Emin, Dec.Emax, Dec.prec. lia.
    - right. unfold Dec.adjusted, Dec.prec, Dec.Emax. rewrite Hexp. lia. }
  destruct (places =? 0) eqn:H0.
  - by injection Hq as <-.
  - rewrite Hq. exact Hquant.
Qed.

(** The two together, on amounts of at most 15 digits before the point
    and any number of digits after it (that is, every amount of money
    the 28-digit context can hold to the cent with room to spare):
    rounding to the cent returns, and returns the half-even rounding. *)
Lemma round_to_cents (amount : Decimal) (m : Z) :
  0 <= Dec.d_int amount < 10 ^ m -> 0 <= m -> m + Dec.d_exp amount <= 15 ->
  exists r, _round_amount amount 2 = Ok r /\ rounded_half_even amount 2 r.
Proof.
  intros Hc Hm He.
  assert (H : _round_amount amount 2 = Ok (Dec.rescale amount (- 2)))
    by (apply (round_amount_returns amount 2 m); lia).
  eexists. split; [exact H|].
  apply round_amount_half_even; [lia|lia|exact H].
Qed.

(** ** A zero principal at a variable rate, in general *)

Lemma get_rate_at_date_raise self history target e :
  InterestRateCalculator.is_flat_rate self = false ->
  InterestRateCalculator.rate_history self = Some history ->
  history <> [] ->
  InterestRateCalculator.get_rate_at_date self target = Raise e ->
  arithmetic_error e = true.
Proof.
  intros Hflat Hhist Hne. unfold InterestRateCalculator.get_rate_at_date.
  rewrite Hflat, Hhist.
  destruct (InterestRateCalculator.first_applicable history target);
    [apply add_raise|].
  destruct (last history) eqn:Hl; [apply add_raise|].
  by apply last_None in Hl.
Qed.

Lemma period_interest_raise principal rate ndays e :
  period_interest principal rate ndays = Raise e -> arithmetic_error e = true.
Proof.
  unfold period_interest. intros H.
  apply bind_Raise in H as [H|(r & _ & H)]; [by apply div_raise in H|].
  apply bind_Raise in H as [H|(pr & _ & H)]; [by apply mul_raise in H|].
  apply bind_Raise in H as [H|(t & _ & H)]; [by apply div_raise in H|].
  by apply mul_raise in H.
Qed.

Lemma rate_in_effect_raise history spread day e :
  history <> [] ->
  rate_in_effect history spread day = Raise e -> arithmetic_error e = true.
Proof.
  intros Hne. unfold rate_in_effect.
  destruct (filter _ history); [|apply add_raise].
  destruct (last history) eqn:Hl; [apply add_raise|].
  by apply last_None in Hl.
Qed.

Lemma accrue_segments_raise history spread principal segs total e :
  history <> [] ->
  accrue_segments history spread principal segs total = Raise e ->
  arithmetic_error e = true.
Proof.
  intros Hne. revert total.
  induction segs as [|[first_day ndays] segs IH]; simpl; intros total H; [done|].
  destruct (0 <? ndays); [|by apply IH in H].
  apply bind_Raise in H as [H|(r & _ & H)];
    [by eapply rate_in_effect_raise in H|].
  apply bind_Raise in H as [H|(i & _ & H)]; [by apply period_interest_raise in H|].
  apply bind_Raise in H as [H|(t & _ & H)]; [by apply add_raise in H|].
  by apply IH in H.
Qed.

(** With a variable rate (a non-empty history) and [start_date <=
    end_date], the simple accrual of a principal of zero never returns:
    it raises a decimal signal, at the latest in
    [total_interest / principal]. *)
Lemma zero_principal_variable_rate_raises self history principal start_date end_date :
  InterestRateCalculator.is_flat_rate self = false ->
  InterestRateCalculator.rate_history self = Some history ->
  history <> [] ->
  start_date <= end_date ->
  Dec.is_zero principal = true ->
  exists e,
    InterestRateCalculator._calculate_simple_interest self principal
      start_date end_date = Raise e /\
    arithmetic_error e = true.
Proof.
  intros Hflat Hhist Hne Hle Hz.
  rewrite (calculate_simple_interest_segmented self history) by done.
  unfold segmented_simple_interest.
  destruct (accrue_segments _ _ _ _) as [total|e] eqn:Hacc.
  - cbn [mbind result_bind]. unfold implied_flat_rate, Dec.div. rewrite Hz.
    destruct (Dec.is_zero total); eexists; (split; [reflexivity|done]).
  - exists e. split; [done|]. by eapply accrue_segments_raise in Hacc.
Qed.

(** * Further properties of the code *)

(** ** Rounding twice *)

Lemma rescale_exp (d : Decimal) (e : Z) : Dec.d_exp (Dec.rescale d e) = e.
Proof. unfold Dec.rescale. by repeat case_match. Qed.

Lemma rescale_same (r : Decimal) : Dec.rescale r (Dec.d_exp r) = r.
Proof.
  unfold Dec.rescale, Dec.is_zero. destruct r as [s c e]. simpl.
  destruct (c =? 0) eqn:Hz; [apply Z.eqb_eq in Hz; by subst|].
  rewrite Z.leb_refl, Z.sub_diag, Z.pow_0_r, Z.mul_1_r. done.
Qed.

Lemma quantize_idempotent (d q r : Decimal) :
  Dec.quantize d q = Ok r -> Dec.quantize r q = Ok r.
Proof.
  intros H. pose proof (quantize_Ok _ _ _ H) as Hr.
  assert (He : Dec.d_exp r = Dec.d_exp q) by (rewrite Hr; apply rescale_exp).
  unfold Dec.quantize in *.
  destruct (negb _) eqn:Hrange; [done|].
  assert (Hfix : Dec._fix r = Ok r).
  { destruct (Dec.is_zero d) eqn:Hz.
    - unfold Dec.rescale in Hr. rewrite Hz in Hr. by rewrite <- Hr in H.
    - repeat case_match; try done. by rewrite <- Hr in H. }
  destruct (Dec.is_zero r) eqn:Hz'.
  { unfold Dec.is_zero in Hz'. apply Z.eqb_eq in Hz'.
    destruct r as [s c e]. simpl in *. by subst. }
  destruct (Dec.is_zero d) eqn:Hz.
  { unfold Dec.rescale in Hr. rewrite Hz in Hr. subst r. done. }
  rewrite <- Hr in H. rewrite <- He in H |- *. rewrite rescale_same.
  assert (Hadj : Dec.adjusted r - Dec.d_exp r + 1 = Dec.ndigits (Dec.d_int r))
    by (unfold Dec.adjusted; lia).
  rewrite Hadj.
  destruct (Dec.adjusted d >? Dec.Emax); [done|].
  destruct (Dec.adjusted d - Dec.d_exp r + 1 >? Dec.prec); [done|].
  destruct (Dec.adjusted r >? Dec.Emax) eqn:Ha; [done|].
  destruct (Dec.ndigits (Dec.d_int r) >? Dec.prec) eqn:Hn; done.
Qed.

(** X1: Rounding is idempotent: an amount the helper returned is returned
    unchanged when it is rounded again to the same number of places. *)
Theorem round_amount_idempotent (amount : Decimal) (places : Z) (r : Decimal) :
  _round_amount amount places = Ok r -> _round_amount r places = Ok r.
Proof.
  unfold _round_amount. destruct (places =? 0); [apply quantize_idempotent|].
  destruct (Dec.pow_tenth places) as [q|e]; [|done].
  cbn [mbind result_bind]. apply quantize_idempotent.
Qed.

Lemma round_amount_idempotent_witness :
  _round_amount (dec 12 (-2)) 2 = Ok (dec 12 (-2)).
Proof.
  apply (round_amount_idempotent (dec 125 (-3)) 2). vm_compute. reflexivity.
Defined.

(** ** Totals are the rounded sums of what is reported *)

Lemma breakdown_loop_totals dec_power self new_lp calls acc tc tl b tc' tl' :
  LateInterestCalculator.breakdown_loop dec_power self new_lp calls acc tc tl
    = Ok (b, tc', tl') ->
  exists ds, b = acc ++ ds /\
    foldl (fun acc x => a ← acc; Dec.add a x) (Ok tc) (map capital_amount ds)
      = Ok tc' /\
    foldl (fun acc x => a ← acc; Dec.add a x) (Ok tl) (map late_interest ds)
      = Ok tl'.
Proof.
  revert acc tc tl. induction calls as [|c calls IH]; simpl; intros acc tc tl H.
  - injection H as <- <- <-. exists []. by rewrite app_nil_r.
  - apply bind_Ok in H as (d & Hd & H).
    apply bind_Ok in H as (tc1 & Htc & H).
    apply bind_Ok in H as (tl1 & Htl & H).
    apply IH in H as (ds & -> & H1 & H2).
    exists (d :: ds). rewrite <- app_assoc. split; [done|].
    simpl. by rewrite Htc, Htl.
Qed.

(** X2: The totals of a new LP's calculation are the sums of its breakdown,
    rounded to [sum_rounding]; the identity fields are the LP's. *)
Theorem new_lp_totals_are_rounded_sums
    (dec_power : Decimal -> Decimal -> result Decimal)
    (self : LateInterestCalculator.t) (new_lp : Partner)
    (capital_calls : list CapitalCall) (r : NewLPCalculation) :
  LateInterestCalculator.calculate_late_interest_for_new_lp dec_power self
    new_lp capital_calls = Ok r ->
  (nlp_partner_name r, nlp_issue_date r, nlp_commitment r, nlp_close_number r)
    = (name new_lp, issue_date new_lp, commitment new_lp, close_number new_lp) /\
  exists catch_up interest,
    Dec.sum (map capital_amount (breakdown_by_capital_call r)) = Ok catch_up /\
    _round_amount catch_up
      (sum_rounding (LateInterestCalculator.assumptions self))
      = Ok (total_catch_up r) /\
    Dec.sum (map late_interest (breakdown_by_capital_call r)) = Ok interest /\
    _round_amount interest
      (sum_rounding (LateInterestCalculator.assumptions self))
      = Ok (total_late_interest_due r).
Proof.
  unfold LateInterestCalculator.calculate_late_interest_for_new_lp. intros H.
  apply bind_Ok in H as ([[b tc] tl] & Hloop & H).
  apply bind_Ok in H as (tc' & Htc & H).
  apply bind_Ok in H as (tl' & Htl & H).
  injection H as <-. simpl. split; [done|].
  apply breakdown_loop_totals in Hloop as (ds & -> & H1 & H2).
  exists tc, tl. by rewrite app_nil_l.
Qed.

Lemma new_lp_totals_are_rounded_sums_witness :
  exists catch_up interest,
    Dec.sum [dec 30000000 (-2)] = Ok catch_up /\
    _round_amount catch_up 2 = Ok (dec 30000000 (-2)) /\
    Dec.sum [dec 1311781 (-2)] = Ok interest /\
    _round_amount interest 2 = Ok (dec 1311781 (-2)).
Proof.
  refine (proj2 (new_lp_totals_are_rounded_sums no_power prime_calculator
            boundary_lp boundary_calls
            (mkNewLPCalculation "New Investor LLC" (mkdate 2022 7 1)
               (dec 3000000 0) 2 (dec 30000000 (-2)) (dec 1311781 (-2))
               [mkLateInterestDetail 1 (mkdate 2022 1 15) (dec 10 0)
                  (dec 30000000 (-2)) (dec 1311781 (-2)) 167 (dec 950 (-2))])
            _)).
  vm_compute. reflexivity.
Defined.

Lemma allocation_loop_total self basis tli tec c ps acc ta allocs total :
  AllocationCalculator.allocation_loop self basis tli tec c ps acc ta
    = Ok (allocs, total) ->
  exists new, allocs = acc ++ new /\ length new = length ps /\
    foldl (fun acc x => a ← acc; Dec.add a x) (Ok ta) (map total_allocation new)
      = Ok total.
Proof.
  revert acc ta. induction ps as [|p ps IH]; simpl; intros acc ta H.
  - injection H as <- <-. exists []. by rewrite app_nil_r.
  - apply bind_Ok in H as (share & _ & H).
    apply bind_Ok in H as (amount & _ & H).
    apply bind_Ok in H as (rounded & _ & H).
    apply bind_Ok in H as (ta' & Hta & H).
    apply IH in H as (new & -> & Hlen & Hsum).
    eexists (_ :: new). rewrite <- app_assoc. split; [done|].
    simpl. rewrite Hta, Hlen. done.
Qed.

Lemma allocate_total self basis new_lps all_partners c allocs total :
  AllocationCalculator.allocate self basis new_lps all_partners c
    = Ok (allocs, total) ->
  (allocs = [] /\ total = Dec.zero) \/
  (allocs <> [] /\
   exists s, Dec.sum (map total_allocation allocs) = Ok s /\
     _round_amount s (sum_rounding (AllocationCalculator.assumptions self))
       = Ok total).
Proof.
  unfold AllocationCalculator.allocate.
  destruct (AllocationCalculator.existing_partners all_partners c) as [|p ps];
    [intros [= <- <-]; by left|].
  intros H. apply bind_Ok in H as (tli & _ & H).
  destruct (Dec.eqb tli Dec.zero); [injection H as <- <-; by left|].
  apply bind_Ok in H as (tec & _ & H).
  destruct (Dec.eqb tec Dec.zero); [done|].
  apply bind_Ok in H as ([allocs' ta] & Hloop & H).
  apply bind_Ok in H as (total' & Hround & H). injection H as <- <-.
  apply allocation_loop_total in Hloop as (new & -> & Hlen & Hsum).
  right. split; [by destruct new|]. exists ta. by rewrite app_nil_l.
Qed.

(** X3: Under both allocation contracts, the total returned with a non-empty
    list of allocations is the sum of the amounts allocated, rounded to
    [sum_rounding]; with the empty list it is [Decimal('0')]. *)
Theorem allocated_total_is_rounded_sum
    (self : AllocationCalculator.t) (new_lps : list NewLPCalculation)
    (all_partners : list Partner) (commitment_increases : gmap string Decimal)
    (admitting_close_number : Z)
    (allocations : list ExistingLPAllocation) (total_allocated : Decimal) :
  AllocationCalculator.calculate_allocations self new_lps all_partners
    admitting_close_number = Ok (allocations, total_allocated) \/
  AllocationCalculator.calculate_allocations_with_increases self new_lps
    all_partners commitment_increases admitting_close_number
    = Ok (allocations, total_allocated) ->
  (allocations = [] /\ total_allocated = Dec.zero) \/
  (allocations <> [] /\
   exists s, Dec.sum (map total_allocation allocations) = Ok s /\
     _round_amount s (sum_rounding (AllocationCalculator.assumptions self))
       = Ok total_allocated).
Proof. intros [H|H]; by apply allocate_total in H. Qed.

Lemma allocated_total_is_rounded_sum_witness :
  (increase_allocations = [] /\ dec 900000 (-2) = Dec.zero) \/
  (increase_allocations <> [] /\
   exists s, Dec.sum (map total_allocation increase_allocations) = Ok s /\
     _round_amount s (sum_rounding (AllocationCalculator.assumptions cent_calculator))
       = Ok (dec 900000 (-2))).
Proof.
  apply (allocated_total_is_rounded_sum cent_calculator increase_new_lps
           increase_partners increase_map 2).
  right. vm_compute. reflexivity.
Defined.

(** ** The basis of the pro-rata share *)

Lemma allocation_loop_ext self basis1 basis2 tli tec c ps acc ta :
  Forall (fun p => basis1 p = basis2 p) ps ->
  AllocationCalculator.allocation_loop self basis1 tli tec c ps acc ta
  = AllocationCalculator.allocation_loop self basis2 tli tec c ps acc ta.
Proof.
  intros H. revert acc ta. induction H as [|p ps Hp _ IH]; intros acc ta; [done|].
  simpl. rewrite Hp.
  destruct (Dec.div _ _) as [share|]; [|done]. cbn [mbind result_bind].
  destruct (Dec.mul _ _) as [amount|]; [|done]. cbn [mbind result_bind].
  destruct (_round_amount _ _) as [rounded|]; [|done]. cbn [mbind result_bind].
  destruct (Dec.add _ _) as [ta'|]; [|done]. cbn [mbind result_bind].
  apply IH.
Qed.

Lemma allocate_ext self basis1 basis2 new_lps all_partners c :
  Forall (fun p => basis1 p = basis2 p)
    (AllocationCalculator.existing_partners all_partners c) ->
  AllocationCalculator.allocate self basis1 new_lps all_partners c
  = AllocationCalculator.allocate self basis2 new_lps all_partners c.
Proof.
  intros H. unfold AllocationCalculator.allocate.
  destruct (AllocationCalculator.existing_partners all_partners c) as [|p ps] eqn:He;
    [done|].
  assert (Hmap : map basis1 (p :: ps) = map basis2 (p :: ps)).
  { apply Forall_fmap_ext_1. exact H. }
  rewrite Hmap.
  destruct (AllocationCalculator.total_late_interest _ _) as [tli|]; [|done].
  cbn [mbind result_bind]. destruct (Dec.eqb tli Dec.zero); [done|].
  destruct (Dec.sum _) as [tec|]; [|done]. cbn [mbind result_bind].
  destruct (Dec.eqb tec Dec.zero); [done|].
  by rewrite (allocation_loop_ext self basis1 basis2).
Qed.

(** X4: An entry of [commitment_increases] matters only for a partner that
    closed before the admitting close, and only when it differs from the
    partner's current commitment: when every existing partner is absent
    from the map, or recorded with its current commitment, the contract
    with increases returns what [calculate_allocations] returns, and
    fails as it fails. *)
Theorem increases_of_other_partners_are_ignored
    (self : AllocationCalculator.t) (new_lps : list NewLPCalculation)
    (all_partners : list Partner) (commitment_increases : gmap string Decimal)
    (admitting_close_number : Z) :
  (forall p, p ∈ all_partners -> close_number p < admitting_close_number ->
     commitment_increases !! name p = None \/
     commitment_increases !! name p = Some (commitment p)) ->
  AllocationCalculator.calculate_allocations_with_increases self new_lps
    all_partners commitment_increases admitting_close_number
  = AllocationCalculator.calculate_allocations self new_lps all_partners
      admitting_close_number.
Proof.
  intros H. apply allocate_ext. rewrite Forall_forall.
  intros p [Hc Hp]%list_elem_of_filter.
  unfold AllocationCalculator.get_allocation_commitment.
  destruct (H p Hp Hc) as [-> | ->]; done.
Qed.

Lemma increases_of_other_partners_are_ignored_witness :
  AllocationCalculator.calculate_allocations_with_increases cent_calculator
    increase_new_lps increase_partners new_lp_increase_map 2
  = AllocationCalculator.calculate_allocations cent_calculator increase_new_lps
      increase_partners 2.
Proof.
  apply (increases_of_other_partners_are_ignored cent_calculator increase_new_lps
           increase_partners new_lp_increase_map 2).
  intros p Hp Hc. unfold increase_partners in Hp.
  repeat (apply elem_of_cons in Hp as [->|Hp]).
  - left. vm_compute. reflexivity.
  - left. vm_compute. reflexivity.
  - simpl in Hc. lia.
  - by apply elem_of_nil in Hp.
Defined.

(** X5: Existing partners with the same commitment are allocated the same
    amount. *)
Theorem equal_commitments_get_equal_allocations
    (self : AllocationCalculator.t) (new_lps : list NewLPCalculation)
    (all_partners : list Partner) (admitting_close_number : Z)
    (allocations : list ExistingLPAllocation) (total_allocated : Decimal)
    (i j : nat) (p q : Partner) (a b : ExistingLPAllocation) :
  AllocationCalculator.calculate_allocations self new_lps all_partners
    admitting_close_number = Ok (allocations, total_allocated) ->
  filter (fun p => close_number p < admitting_close_number) all_partners !! i
    = Some p ->
  filter (fun p => close_number p < admitting_close_number) all_partners !! j
    = Some q ->
  commitment p = commitment q ->
  allocations !! i = Some a -> allocations !! j = Some b ->
  partner_name a = name p /\ partner_name b = name q /\
  total_allocation a = total_allocation b.
Proof.
  intros H Hp Hq Hc Ha Hb.
  destruct (allocate_outcomes self commitment new_lps all_partners
              admitting_close_number) as (_ & _ & _ & _ & Hok).
  apply Hok in H as [[-> _]|(tli & tec & _ & _ & Hall)]; [done|].
  unfold AllocationCalculator.existing_partners in Hall.
  pose proof (Forall2_lookup_lr _ _ _ _ _ _ Hall Hp Ha)
    as (Hn1 & _ & _ & _ & s1 & m1 & Hs1 & Hm1 & Hr1).
  pose proof (Forall2_lookup_lr _ _ _ _ _ _ Hall Hq Hb)
    as (Hn2 & _ & _ & _ & s2 & m2 & Hs2 & Hm2 & Hr2).
  split; [done|]. split; [done|].
  rewrite Hc in Hs1. congruence.
Qed.

Lemma equal_commitments_get_equal_allocations_witness :
  partner_name
    (mkExistingLPAllocation "Partner A" (dec 1000000 0) 1 (dec 12 (-2))
       [(2, dec 12 (-2))]) = name (mkPartner "Partner A" (mkdate 2022 4 1) (dec 1000000 0) 1) /\
  partner_name
    (mkExistingLPAllocation "Partner B" (dec 1000000 0) 1 (dec 12 (-2))
       [(2, dec 12 (-2))]) = name (mkPartner "Partner B" (mkdate 2022 4 1) (dec 1000000 0) 1) /\
  total_allocation
    (mkExistingLPAllocation "Partner A" (dec 1000000 0) 1 (dec 12 (-2))
       [(2, dec 12 (-2))])
  = total_allocation
      (mkExistingLPAllocation "Partner B" (dec 1000000 0) 1 (dec 12 (-2))
         [(2, dec 12 (-2))]).
Proof.
  apply (equal_commitments_get_equal_allocations cent_calculator quarter_new_lps
           equal_partners 2
           [mkExistingLPAllocation "Partner A" (dec 1000000 0) 1 (dec 12 (-2))
              [(2, dec 12 (-2))];
            mkExistingLPAllocation "Partner B" (dec 1000000 0) 1 (dec 12 (-2))
              [(2, dec 12 (-2))]]
           (dec 24 (-2)) 0%nat 1%nat).
  - vm_compute. reflexivity.
  - reflexivity.
  - reflexivity.
  - reflexivity.
  - reflexivity.
  - reflexivity.
Defined.

(** ** Construction *)

(** X6: The engine (and with it the late-interest calculator and the rate
    calculator) is built for every fund except a FLAT one without a
    [flat_rate], for which construction raises the [ValueError] of the
    rate calculator.  A FLAT fund gets a flat-rate calculator with zero
    spread; a PRIME fund gets a variable-rate calculator over its history
    in descending order of effective date, whatever its [flat_rate]. *)
Theorem engine_init_outcomes (a : FundAssumptions) :
  (forall e, LateInterestEngine.__init__ a = Raise e <->
     late_interest_base a = FLAT /\ flat_rate a = None /\
     e = ValueError "Must provide either rate_history or flat_rate") /\
  (forall self, LateInterestEngine.__init__ a = Ok self ->
     let rc := LateInterestCalculator.rate_calculator
                 (LateInterestEngine.late_calc self) in
     LateInterestEngine.assumptions self = a /\
     LateInterestCalculator.assumptions (LateInterestEngine.late_calc self) = a /\
     AllocationCalculator.assumptions (LateInterestEngine.alloc_calc self) = a /\
     InterestRateCalculator.compounding rc = late_interest_compounding a /\
     match late_interest_base a with
     | FLAT =>
         InterestRateCalculator.is_flat_rate rc = true /\
         InterestRateCalculator.flat_rate rc = flat_rate a /\
         is_Some (flat_rate a) /\
         InterestRateCalculator.spread rc = Dec.zero
     | PRIME =>
         InterestRateCalculator.is_flat_rate rc = false /\
         InterestRateCalculator.rate_history rc
           = Some (sort_by_reverse effective_date (prime_rate_history a)) /\
         Dec.eqb (InterestRateCalculator.spread rc) (late_spread a) = true
     end).
Proof.
  unfold LateInterestEngine.__init__, LateInterestCalculator.__init__,
    InterestRateCalculator.__init__.
  destruct (late_interest_base a) eqn:Hb; [|destruct (flat_rate a) as [fr|] eqn:Hf];
    cbn [mbind result_bind]; (split; [intros e; split; [try done|]|]).
  - by intros ([=] & _).
  - intros self [= <-]. simpl. repeat split.
    destruct (Dec.is_zero (late_spread a)) eqn:Hz; [by apply eqb_zero_l|apply eqb_refl].
  - by intros (_ & [=] & _).
  - intros self [= <-]. simpl. repeat split. by eexists.
  - by intros [= <-].
  - by intros (_ & _ & ->).
  - done.
Qed.

(** ** A variable rate without a history *)

Lemma missed_call_is_late (new_lp : Partner) (capital_calls : list CapitalCall)
    (c : CapitalCall) :
  c ∈ LateInterestCalculator.missed_calls new_lp capital_calls ->
  c ∈ capital_calls /\ due_date c < issue_date new_lp.
Proof.
  unfold LateInterestCalculator.missed_calls.
  rewrite elem_of_sort_by, list_elem_of_filter. tauto.
Qed.

(** X7: A PRIME fund with an empty [prime_rate_history] is built without
    complaint, but the rate lookup has nothing to return: every call that
    is late raises [ValueError("No rate history available")], in simple
    and in compound mode, and so does the calculation of an LP that
    missed a call. *)
Theorem empty_rate_history_raises_on_the_first_late_call
    (dec_power : Decimal -> Decimal -> result Decimal)
    (a : FundAssumptions) (self : LateInterestCalculator.t)
    (new_lp : Partner) (capital_calls : list CapitalCall)
    (call : CapitalCall) (rest : list CapitalCall) (capital : Decimal) :
  late_interest_base a = PRIME -> prime_rate_history a = [] ->
  end_date_calculation a = ISSUE_DATE ->
  LateInterestCalculator.__init__ a = Ok self ->
  LateInterestCalculator.missed_calls new_lp capital_calls = call :: rest ->
  get_call_amount call (commitment new_lp) = Ok capital ->
  LateInterestCalculator._calculate_late_interest_for_call dec_power self new_lp call
    = Raise (ValueError "No rate history available") /\
  LateInterestCalculator.calculate_late_interest_for_new_lp dec_power self new_lp
    capital_calls = Raise (ValueError "No rate history available").
Proof.
  intros Hb Hh He Hinit Hmissed Hcap.
  assert (Hlate : due_date call < issue_date new_lp).
  { apply (missed_call_is_late new_lp capital_calls). rewrite Hmissed. by left. }
  unfold LateInterestCalculator.__init__ in Hinit. rewrite Hb, Hh in Hinit.
  assert (Hself : self =
    LateInterestCalculator.mk a
      (InterestRateCalculator.mk (late_interest_compounding a) false None
         (Some (sort_by_reverse effective_date []))
         (if Dec.is_zero (late_spread a) then Dec.zero else late_spread a)))
    by (by injection Hinit as <-).
  clear Hinit. subst self.
  assert (Hcall :
    LateInterestCalculator._calculate_late_interest_for_call dec_power
      (LateInterestCalculator.mk a
         (InterestRateCalculator.mk (late_interest_compounding a) false None
            (Some (sort_by_reverse effective_date []))
            (if Dec.is_zero (late_spread a) then Dec.zero else late_spread a)))
      new_lp call = Raise (ValueError "No rate history available")).
  { unfold LateInterestCalculator._calculate_late_interest_for_call.
    rewrite Hcap. cbn [mbind result_bind]. simpl LateInterestCalculator.assumptions.
    rewrite He. unfold days.
    destruct (issue_date new_lp - due_date call <=? 0) eqn:Hd; [lia|].
    unfold InterestRateCalculator.calculate_interest.
    destruct (issue_date new_lp <? due_date call) eqn:Hd'; [lia|].
    simpl.
    destruct (late_interest_compounding a).
    - unfold InterestRateCalculator._calculate_simple_interest. unfold days.
      destruct (issue_date new_lp - due_date call + 1 <=? 0) eqn:Hd1; [lia|].
      simpl. unfold days.
      destruct (0 <? issue_date new_lp - due_date call + 1) eqn:Hd2; [|lia].
      reflexivity.
    - unfold InterestRateCalculator._calculate_compound_interest. unfold days.
      destruct (issue_date new_lp - due_date call + 1 <=? 0) eqn:Hd1; [lia|].
      simpl. unfold days.
      destruct (0 <? issue_date new_lp - due_date call + 1) eqn:Hd2; [|lia].
      reflexivity. }
  split; [exact Hcall|].
  unfold LateInterestCalculator.calculate_late_interest_for_new_lp.
  rewrite Hmissed. cbn [LateInterestCalculator.breakdown_loop].
  rewrite Hcall. reflexivity.
Qed.

Lemma empty_rate_history_raises_on_the_first_late_call_witness :
  LateInterestCalculator._calculate_late_interest_for_call no_power
    (LateInterestCalculator.mk empty_history_assumptions
       (InterestRateCalculator.mk SIMPLE false None (Some []) (dec 20 (-1))))
    boundary_lp (mkCapitalCall 1 (mkdate 2022 1 15) (dec 10 0))
    = Raise (ValueError "No rate history available") /\
  LateInterestCalculator.calculate_late_interest_for_new_lp no_power
    (LateInterestCalculator.mk empty_history_assumptions
       (InterestRateCalculator.mk SIMPLE false None (Some []) (dec 20 (-1))))
    boundary_lp boundary_calls = Raise (ValueError "No rate history available").
Proof.
  apply (empty_rate_history_raises_on_the_first_late_call no_power
           empty_history_assumptions _ boundary_lp boundary_calls
           (mkCapitalCall 1 (mkdate 2022 1 15) (dec 10 0)) []
           (dec 3000000 (-1))).
  - reflexivity.
  - reflexivity.
  - reflexivity.
  - vm_compute. reflexivity.
  - vm_compute. reflexivity.
  - vm_compute. reflexivity.
Defined.

(** ** Interest through the due date only *)

Lemma due_date_call dec_power self new_lp call :
  end_date_calculation (LateInterestCalculator.assumptions self) = DUE_DATE ->
  LateInterestCalculator._calculate_late_interest_for_call dec_power self new_lp call
  = (capital_amount ← get_call_amount call (commitment new_lp);
     Ok (mkLateInterestDetail (call_number call) (due_date call)
           (call_percentage call) capital_amount Dec.zero 0 Dec.zero)).
Proof.
  intros He. unfold LateInterestCalculator._calculate_late_interest_for_call.
  rewrite He. unfold days. rewrite Z.sub_diag. reflexivity.
Qed.

Lemma due_date_breakdown_loop dec_power self rc new_lp calls acc tc tl :
  end_date_calculation (LateInterestCalculator.assumptions self) = DUE_DATE ->
  LateInterestCalculator.breakdown_loop dec_power self new_lp calls acc tc tl
  = LateInterestCalculator.breakdown_loop dec_power
      (LateInterestCalculator.mk (LateInterestCalculator.assumptions self) rc)
      new_lp calls acc tc tl.
Proof.
  intros He. revert acc tc tl.
  induction calls as [|c calls IH]; intros acc tc tl; [done|].
  cbn [LateInterestCalculator.breakdown_loop].
  rewrite !due_date_call by done.
  destruct (get_call_amount c (commitment new_lp)) as [cap|]; [|done].
  cbn [mbind result_bind].
  destruct (Dec.add tc _) as [tc1|]; [|done]. cbn [mbind result_bind].
  destruct (Dec.add tl _) as [tl1|]; [|done]. cbn [mbind result_bind].
  apply IH.
Qed.

Lemma due_date_breakdown_loop_inv dec_power self new_lp calls acc tc b tc' tl' :
  end_date_calculation (LateInterestCalculator.assumptions self) = DUE_DATE ->
  LateInterestCalculator.breakdown_loop dec_power self new_lp calls acc tc Dec.zero
    = Ok (b, tc', tl') ->
  tl' = Dec.zero /\
  exists ds, b = acc ++ ds /\
    Forall2 (fun c d =>
      get_call_amount c (commitment new_lp) = Ok (capital_amount d) /\
      days_late d = 0 /\ late_interest d = Dec.zero /\
      effective_rate d = Dec.zero) calls ds.
Proof.
  intros He. revert acc tc.
  induction calls as [|c calls IH]; intros acc tc H.
  - injection H as <- _ <-. split; [done|]. exists [].
    split; [by rewrite app_nil_r|constructor].
  - cbn [LateInterestCalculator.breakdown_loop] in H.
    rewrite due_date_call in H by done.
    destruct (get_call_amount c (commitment new_lp)) as [cap|] eqn:Hcap; [|done].
    cbn [mbind result_bind] in H.
    apply bind_Ok in H as (tc1 & _ & H).
    cbn [late_interest] in H.
    change (Dec.add Dec.zero Dec.zero) with (Ok Dec.zero) in H.
    cbn [mbind result_bind] in H.
    apply IH in H as (-> & ds & -> & Hds). split; [done|].
    eexists (_ :: ds). rewrite <- app_assoc. split; [done|].
    constructor; [|done]. by simpl.
Qed.

Lemma due_date_calculation_inv dec_power self new_lp capital_calls r :
  end_date_calculation (LateInterestCalculator.assumptions self) = DUE_DATE ->
  LateInterestCalculator.calculate_late_interest_for_new_lp dec_power self
    new_lp capital_calls = Ok r ->
  Forall2 (fun c d =>
    get_call_amount c (commitment new_lp) = Ok (capital_amount d) /\
    days_late d = 0 /\ late_interest d = Dec.zero /\
    effective_rate d = Dec.zero)
    (LateInterestCalculator.missed_calls new_lp capital_calls)
    (breakdown_by_capital_call r) /\
  Dec.d_int (total_late_interest_due r) = 0.
Proof.
  intros He H.
  unfold LateInterestCalculator.calculate_late_interest_for_new_lp in H.
  apply bind_Ok in H as ([[b tc] tl] & Hloop & H).
  apply bind_Ok in H as (tc' & _ & H).
  apply bind_Ok in H as (tl' & Htl & H).
  injection H as <-. simpl.
  apply due_date_breakdown_loop_inv in Hloop as (-> & ds & -> & Hds); [|done].
  split; [done|].
  unfold _round_amount in Htl.
  destruct (_ =? 0) in Htl.
  + apply quantize_Ok in Htl. by subst tl'.
  + apply bind_Ok in Htl as (q & _ & Htl). apply quantize_Ok in Htl. by subst tl'.
Qed.

(** X8: With [end_date_calculation = DUE_DATE] the interest period of every
    call ends on its own due date: each detail has zero days late, zero
    late interest and a zero rate, its capital amount is the call amount
    as computed (not rounded), the total late interest due is zero, and
    the rate calculator is never consulted (any other one gives the same
    outcome). *)
Theorem due_date_mode_charges_no_interest
    (dec_power : Decimal -> Decimal -> result Decimal)
    (self : LateInterestCalculator.t) (new_lp : Partner)
    (capital_calls : list CapitalCall) :
  end_date_calculation (LateInterestCalculator.assumptions self) = DUE_DATE ->
  (forall rc,
     LateInterestCalculator.calculate_late_interest_for_new_lp dec_power
       (LateInterestCalculator.mk (LateInterestCalculator.assumptions self) rc)
       new_lp capital_calls
     = LateInterestCalculator.calculate_late_interest_for_new_lp dec_power self
         new_lp capital_calls) /\
  (forall r,
     LateInterestCalculator.calculate_late_interest_for_new_lp dec_power self
       new_lp capital_calls = Ok r ->
     Forall2 (fun c d =>
       get_call_amount c (commitment new_lp) = Ok (capital_amount d) /\
       days_late d = 0 /\ late_interest d = Dec.zero /\
       effective_rate d = Dec.zero)
       (LateInterestCalculator.missed_calls new_lp capital_calls)
       (breakdown_by_capital_call r) /\
     Dec.d_int (total_late_interest_due r) = 0).
Proof.
  intros He. split.
  - intros rc. unfold LateInterestCalculator.calculate_late_interest_for_new_lp.
    by rewrite <- due_date_breakdown_loop.
  - intros r H. by apply (due_date_calculation_inv dec_power self).
Qed.

Lemma due_date_mode_charges_no_interest_witness :
  LateInterestCalculator.calculate_late_interest_for_new_lp no_power
    (LateInterestCalculator.mk due_date_assumptions
       (InterestRateCalculator.mk SIMPLE false None (Some []) Dec.zero))
    boundary_lp boundary_calls
  = Ok (mkNewLPCalculation "New Investor LLC" (mkdate 2022 7 1) (dec 3000000 0) 2
          (dec 30000000 (-2)) (dec 0 (-2))
          [mkLateInterestDetail 1 (mkdate 2022 1 15) (dec 10 0)
             (dec 3000000 (-1)) Dec.zero 0 Dec.zero]).
Proof.
  rewrite (proj1 (due_date_mode_charges_no_interest no_power
                    (LateInterestCalculator.mk due_date_assumptions
                       (InterestRateCalculator.mk SIMPLE true
                          (Some (dec 95 (-1))) None Dec.zero))
                    boundary_lp boundary_calls eq_refl)).
  vm_compute. reflexivity.
Defined.

(** ** Days late and days charged *)

(** X9: At a flat rate with simple interest through the issue date, a call
    due before the issue date is recorded as [issue_date - due_date] days
    late and charged interest for one day more (the count is inclusive);
    the interest, the rate and the capital amount are each rounded to
    [calc_rounding]. *)
Theorem flat_simple_call_is_charged_one_day_more
    (dec_power : Decimal -> Decimal -> result Decimal)
    (self : LateInterestCalculator.t) (new_lp : Partner) (call : CapitalCall)
    (fr : Decimal) :
  end_date_calculation (LateInterestCalculator.assumptions self) = ISSUE_DATE ->
  InterestRateCalculator.compounding (LateInterestCalculator.rate_calculator self)
    = SIMPLE ->
  InterestRateCalculator.is_flat_rate (LateInterestCalculator.rate_calculator self)
    = true ->
  InterestRateCalculator.flat_rate (LateInterestCalculator.rate_calculator self)
    = Some fr ->
  due_date call < issue_date new_lp ->
  let places := calc_rounding (LateInterestCalculator.assumptions self) in
  let late := days (issue_date new_lp) (due_date call) in
  LateInterestCalculator._calculate_late_interest_for_call dec_power self new_lp call
  = (capital ← get_call_amount call (commitment new_lp);
     interest ← period_interest capital fr (late + 1);
     late_interest ← _round_amount interest places;
     effective_rate ← _round_amount fr places;
     capital_amount ← _round_amount capital places;
     Ok (mkLateInterestDetail (call_number call) (due_date call)
           (call_percentage call) capital_amount late_interest late
           effective_rate)).
Proof.
  intros He Hc Hflat Hfr Hlate places late.
  unfold LateInterestCalculator._calculate_late_interest_for_call.
  destruct (get_call_amount call (commitment new_lp)) as [capital|]; [|done].
  cbn [mbind result_bind]. rewrite He. fold late.
  assert (Hl : 0 < late) by (unfold late, days; lia).
  destruct (late <=? 0) eqn:Hd; [lia|].
  unfold InterestRateCalculator.calculate_interest.
  destruct (issue_date new_lp <? due_date call) eqn:Hd'; [lia|].
  rewrite Hc. unfold InterestRateCalculator._calculate_simple_interest.
  fold late. destruct (late + 1 <=? 0) eqn:Hd1; [lia|].
  rewrite Hflat, Hfr.
  destruct (period_interest capital fr (late + 1)) as [interest|]; [|done].
  reflexivity.
Qed.

Lemma flat_simple_call_is_charged_one_day_more_witness :
  LateInterestCalculator._calculate_late_interest_for_call no_power
    (LateInterestCalculator.mk (zero_call_assumptions FLAT)
       (InterestRateCalculator.mk SIMPLE true (Some (dec 95 (-1))) None Dec.zero))
    boundary_lp (mkCapitalCall 1 (mkdate 2022 1 15) (dec 10 0))
  = Ok (mkLateInterestDetail 1 (mkdate 2022 1 15) (dec 10 0)
          (dec 30000000 (-2)) (dec 1311781 (-2)) 167 (dec 950 (-2))) /\
  period_interest (dec 3000000 (-1)) (dec 95 (-1)) 168
  = Ok (dec 1311780821917808219178082192 (-23)).
Proof.
  split; [|vm_compute; reflexivity].
  rewrite (flat_simple_call_is_charged_one_day_more no_power
             (LateInterestCalculator.mk (zero_call_assumptions FLAT)
                (InterestRateCalculator.mk SIMPLE true (Some (dec 95 (-1))) None
                   Dec.zero))
             boundary_lp (mkCapitalCall 1 (mkdate 2022 1 15) (dec 10 0))
             (dec 95 (-1)) eq_refl eq_refl eq_refl eq_refl).
  - vm_compute. reflexivity.
  - vm_compute. reflexivity.
Defined.

(** ** What a simple-interest calculation can raise *)

Lemma get_call_amount_raise call commitment e :
  get_call_amount call commitment = Raise e -> arithmetic_error e = true.
Proof.
  unfold get_call_amount. intros H.
  apply bind_Raise in H as [H|(pct & _ & H)]; [by apply div_raise in H|].
  by apply mul_raise in H.
Qed.

Lemma get_rate_at_date_raises self target e :
  (if InterestRateCalculator.is_flat_rate self
   then is_Some (InterestRateCalculator.flat_rate self)
   else is_Some (InterestRateCalculator.rate_history self)) ->
  InterestRateCalculator.get_rate_at_date self target = Raise e ->
  arithmetic_error e = true \/
  (e = ValueError "No rate history available" /\
   InterestRateCalculator.rate_history self = Some []).
Proof.
  unfold InterestRateCalculator.get_rate_at_date.
  destruct (InterestRateCalculator.is_flat_rate self).
  - intros [fr ->]. done.
  - intros [h ->].
    destruct (InterestRateCalculator.first_applicable h target);
      [intros H; left; by apply add_raise in H|].
    destruct (last h) eqn:Hl; [intros H; left; by apply add_raise in H|].
    apply last_None in Hl. subst h. intros [= <-]. by right.
Qed.

Lemma simple_segments_raises self principal changes total current e :
  (if InterestRateCalculator.is_flat_rate self
   then is_Some (InterestRateCalculator.flat_rate self)
   else is_Some (InterestRateCalculator.rate_history self)) ->
  InterestRateCalculator.simple_segments self principal changes total current
    = Raise e ->
  arithmetic_error e = true \/
  (e = ValueError "No rate history available" /\
   InterestRateCalculator.rate_history self = Some []).
Proof.
  intros Hwf. revert total current.
  induction changes as [|rc rest IH]; simpl; intros total current H; [done|].
  apply bind_Raise in H as [H|(t & _ & H)]; [|by eapply IH].
  destruct (0 <? _) in H; [|done].
  apply bind_Raise in H as [H|(r & _ & H)]; [by eapply get_rate_at_date_raises|].
  apply bind_Raise in H as [H|(i & _ & H)];
    [left; by apply period_interest_raise in H|].
  left. by apply add_raise in H.
Qed.

Lemma calculate_simple_interest_raises self principal start_date end_date e :
  (if InterestRateCalculator.is_flat_rate self
   then is_Some (InterestRateCalculator.flat_rate self)
   else is_Some (InterestRateCalculator.rate_history self)) ->
  InterestRateCalculator._calculate_simple_interest self principal start_date end_date
    = Raise e ->
  arithmetic_error e = true \/
  (e = ValueError "No rate history available" /\
   InterestRateCalculator.rate_history self = Some []).
Proof.
  intros Hwf H. pose proof Hwf as Hwf'.
  unfold InterestRateCalculator._calculate_simple_interest,
    InterestRateCalculator.rate_changes_in_period in H.
  destruct (_ <=? 0) in H; [done|].
  destruct (InterestRateCalculator.is_flat_rate self) eqn:Hflat.
  - destruct Hwf' as [fr Hfr]. rewrite Hfr in H.
    apply bind_Raise in H as [H|(i & _ & H)]; [|done].
    left. by apply period_interest_raise in H.
  - assert (Hwf0 : if InterestRateCalculator.is_flat_rate self
                   then is_Some (InterestRateCalculator.flat_rate self)
                   else is_Some (InterestRateCalculator.rate_history self))
      by (by rewrite Hflat).
    destruct Hwf' as [h Hh]. rewrite Hh in H. cbn [mbind result_bind] in H.
    apply bind_Raise in H as [H|([t c] & _ & H)];
      [by eapply simple_segments_raises|].
    apply bind_Raise in H as [H|(t' & _ & H)].
    { destruct (0 <? _) in H; [|done].
      apply bind_Raise in H as [H|(r & _ & H)];
        [by eapply get_rate_at_date_raises|].
      apply bind_Raise in H as [H|(i & _ & H)];
        [left; by apply period_interest_raise in H|].
      left. by apply add_raise in H. }
    left.
    apply bind_Raise in H as [H|(q & _ & H)]; [by apply div_raise in H|].
    apply bind_Raise in H as [H|(y & _ & H)]; [by apply div_raise in H|].
    apply bind_Raise in H as [H|(qy & _ & H)]; [by apply mul_raise in H|].
    apply bind_Raise in H as [H|(w & _ & H)]; [by apply mul_raise in H|done].
Qed.

Lemma late_interest_for_call_raises dec_power self new_lp call e :
  InterestRateCalculator.compounding (LateInterestCalculator.rate_calculator self)
    = SIMPLE ->
  (if InterestRateCalculator.is_flat_rate (LateInterestCalculator.rate_calculator self)
   then is_Some
          (InterestRateCalculator.flat_rate (LateInterestCalculator.rate_calculator self))
   else is_Some
          (InterestRateCalculator.rate_history
             (LateInterestCalculator.rate_calculator self))) ->
  LateInterestCalculator._calculate_late_interest_for_call dec_power self new_lp call
    = Raise e ->
  arithmetic_error e = true \/
  (e = ValueError "No rate history available" /\
   InterestRateCalculator.rate_history (LateInterestCalculator.rate_calculator self)
     = Some []).
Proof.
  intros Hc Hwf. unfold LateInterestCalculator._calculate_late_interest_for_call.
  intros H.
  apply bind_Raise in H as [H|(capital & _ & H)];
    [left; by apply get_call_amount_raise in H|].
  destruct (days _ _ <=? 0) eqn:Hd in H; [done|].
  apply bind_Raise in H as [H|([li er] & _ & H)].
  { unfold InterestRateCalculator.calculate_interest in H.
    destruct (_ <? due_date call) eqn:Hlt in H.
    { unfold days in Hd. lia. }
    rewrite Hc in H. by eapply calculate_simple_interest_raises. }
  left.
  apply bind_Raise in H as [H|(li' & _ & H)]; [by apply round_amount_raise in H|].
  apply bind_Raise in H as [H|(er' & _ & H)]; [by apply round_amount_raise in H|].
  apply bind_Raise in H as [H|(cap' & _ & H)]; [by apply round_amount_raise in H|done].
Qed.

Lemma breakdown_loop_raises dec_power self new_lp calls acc tc tl e :
  LateInterestCalculator.breakdown_loop dec_power self new_lp calls acc tc tl
    = Raise e ->
  arithmetic_error e = true \/
  exists call, call ∈ calls /\
    LateInterestCalculator._calculate_late_interest_for_call dec_power self new_lp
      call = Raise e.
Proof.
  revert acc tc tl. induction calls as [|c calls IH]; simpl; intros acc tc tl H;
    [done|].
  apply bind_Raise in H as [H|(d & _ & H)].
  { right. exists c. split; [by left|done]. }
  apply bind_Raise in H as [H|(tc1 & _ & H)]; [left; by apply add_raise in H|].
  apply bind_Raise in H as [H|(tl1 & _ & H)]; [left; by apply add_raise in H|].
  apply IH in H as [H|(call & Hin & H)]; [by left|].
  right. exists call. split; [by right|done].
Qed.

(** X10: With simple interest, the calculation of a new LP by a calculator
    that [__init__] built raises nothing but decimal signals
    ([ArithmeticError]s), except for a PRIME fund with an empty rate
    history, where it may raise the [ValueError] of the rate lookup.  In
    particular it never raises the [ValueError] on the order of the dates
    of [calculate_interest], and no [TypeError]. *)
Theorem simple_lp_calculation_raises
    (dec_power : Decimal -> Decimal -> result Decimal)
    (a : FundAssumptions) (self : LateInterestCalculator.t)
    (new_lp : Partner) (capital_calls : list CapitalCall) (e : exn) :
  LateInterestCalculator.__init__ a = Ok self ->
  late_interest_compounding a = SIMPLE ->
  LateInterestCalculator.calculate_late_interest_for_new_lp dec_power self new_lp
    capital_calls = Raise e ->
  arithmetic_error e = true \/
  (e = ValueError "No rate history available" /\
   late_interest_base a = PRIME /\ prime_rate_history a = []).
Proof.
  intros Hinit Hsimple H.
  assert (Hself :
    InterestRateCalculator.compounding (LateInterestCalculator.rate_calculator self)
      = SIMPLE /\
    (if InterestRateCalculator.is_flat_rate
          (LateInterestCalculator.rate_calculator self)
     then is_Some (InterestRateCalculator.flat_rate
                     (LateInterestCalculator.rate_calculator self))
     else is_Some (InterestRateCalculator.rate_history
                     (LateInterestCalculator.rate_calculator self))) /\
    (InterestRateCalculator.rate_history
       (LateInterestCalculator.rate_calculator self) = Some [] ->
     late_interest_base a = PRIME /\ prime_rate_history a = [])).
  { unfold LateInterestCalculator.__init__, InterestRateCalculator.__init__ in Hinit.
    destruct (late_interest_base a); [|destruct (flat_rate a) as [fr|]; [|done]];
      injection Hinit as <-; simpl; (split; [done|]).
    - split; [by eexists|]. intros [= Hnil]. split; [done|].
      apply Permutation_nil_r. rewrite <- Hnil.
      symmetry. apply sort_by_reverse_perm.
    - split; [by eexists|done]. }
  destruct Hself as (Hc & Hwf & Hempty).
  unfold LateInterestCalculator.calculate_late_interest_for_new_lp in H.
  apply bind_Raise in H as [H|([[b tc] tl] & _ & H)].
  - apply breakdown_loop_raises in H as [H|(call & _ & H)]; [by left|].
    apply late_interest_for_call_raises in H as [H|(-> & Hh)]; [by left|..];
      try done.
    right. split; [done|]. by apply Hempty.
  - left.
    apply bind_Raise in H as [H|(tc' & _ & H)]; [by apply round_amount_raise in H|].
    apply bind_Raise in H as [H|(tl' & _ & H)]; [by apply round_amount_raise in H|done].
Qed.

Lemma simple_lp_calculation_raises_witness :
  arithmetic_error InvalidOperation = true \/
  (InvalidOperation = ValueError "No rate history available" /\
   late_interest_base (zero_call_assumptions PRIME) = PRIME /\
   prime_rate_history (zero_call_assumptions PRIME) = []).
Proof.
  apply (simple_lp_calculation_raises no_power (zero_call_assumptions PRIME)
           prime_calculator zero_call_lp [zero_call] InvalidOperation).
  - vm_compute. reflexivity.
  - reflexivity.
  - vm_compute. reflexivity.
Defined.

(** ** Running twice *)

(** X11: A second run on the lists as the first run left them leaves them as
    they are and returns the same result. *)
Theorem second_run_changes_nothing
    (dec_power : Decimal -> Decimal -> result Decimal)
    (self : LateInterestEngine.t) (today : date)
    (lists : LateInterestEngine.Lists)
    (commitment_increases : option (gmap string Decimal)) :
  let first :=
    LateInterestEngine.run_complete_calculation dec_power self today lists
      commitment_increases in
  LateInterestEngine.run_complete_calculation dec_power self today first.1
    commitment_increases = first.
Proof.
  simpl. unfold LateInterestEngine.run_complete_calculation. simpl.
  rewrite (sort_by_id close_number (sort_by close_number _))
    by apply sort_by_sorted.
  reflexivity.
Qed.

(** ** The loop over the closes *)

Lemma new_lp_loop_report dec_power self capital_calls lps calcs tc results
    calcs' tc' results' :
  LateInterestEngine.new_lp_loop dec_power self capital_calls lps calcs tc results
    = Ok (calcs', tc', results') ->
  exists new, calcs' = calcs ++ new /\ results' = results ++ new /\
    Forall2 (fun lp r =>
      LateInterestCalculator.calculate_late_interest_for_new_lp dec_power
        (LateInterestEngine.late_calc self) lp capital_calls = Ok r) lps new /\
    foldl (fun acc x => a ← acc; Dec.add a x) (Ok tc)
      (map total_late_interest_due new) = Ok tc'.
Proof.
  revert calcs tc results.
  induction lps as [|lp lps IH]; simpl; intros calcs tc results H.
  - injection H as <- <- <-. exists []. by rewrite !app_nil_r.
  - apply bind_Ok in H as (r & Hr & H).
    apply bind_Ok in H as (tc1 & Htc & H).
    apply IH in H as (new & -> & -> & Hnew & Hsum).
    exists (r :: new). rewrite <- !app_assoc. split; [done|]. split; [done|].
    split; [by constructor|]. simpl. by rewrite Htc.
Qed.

Lemma process_close_report dec_power self lists by_close increases acc k acc' :
  LateInterestEngine.process_close dec_power self lists by_close increases acc k
    = Ok acc' ->
  exists report,
    close_report dec_power self lists by_close k report /\
    LateInterestEngine.all_new_lp_results acc'
      = LateInterestEngine.all_new_lp_results acc ++ report.1 /\
    LateInterestEngine.close_summaries acc'
      = LateInterestEngine.close_summaries acc ++ [report.2] /\
    Dec.add (LateInterestEngine.grand_total_collected acc)
        (LateInterestEngine.cs_total_collected report.2)
      = Ok (LateInterestEngine.grand_total_collected acc') /\
    (if allocates report.2
     then Dec.add (LateInterestEngine.grand_total_allocated acc)
              (LateInterestEngine.cs_total_allocated report.2)
            = Ok (LateInterestEngine.grand_total_allocated acc') /\
          exists allocations,
            LateInterestEngine.all_allocations_by_close acc'
            = dict_set k allocations (LateInterestEngine.all_allocations_by_close acc)
     else LateInterestEngine.grand_total_allocated acc'
            = LateInterestEngine.grand_total_allocated acc /\
          LateInterestEngine.all_allocations_by_close acc'
            = LateInterestEngine.all_allocations_by_close acc).
Proof.
  intros H. unfold LateInterestEngine.process_close in H.
  apply bind_Ok in H as ([[calcs tc] results] & Hloop & H).
  apply bind_Ok in H as (gtc & Hgtc & H).
  apply bind_Ok in H as ([[bc ta] gta] & Halloc & H).
  apply bind_Ok in H as (diff & Hdiff & H).
  injection H as <-.
  apply new_lp_loop_report in Hloop as (new & -> & -> & Hnew & Hsum).
  rewrite app_nil_l in *.
  exists (new,
          LateInterestEngine.mkCloseSummary k (length (default [] (by_close !! k)))
            (length (filter (fun p => close_number p < k)
                       (LateInterestEngine.partners lists))) tc ta diff).
  unfold close_report, allocates. cbn [fst snd].
  cbn [LateInterestEngine.cs_close_number LateInterestEngine.new_lps_count
       LateInterestEngine.existing_lps_count LateInterestEngine.cs_total_collected
       LateInterestEngine.cs_total_allocated LateInterestEngine.difference
       LateInterestEngine.all_new_lp_results LateInterestEngine.close_summaries
       LateInterestEngine.grand_total_collected
       LateInterestEngine.grand_total_allocated
       LateInterestEngine.all_allocations_by_close].
  destruct (filter _ (LateInterestEngine.partners lists)) as [|p ps] eqn:Hex.
  { injection Halloc as <- <- <-. simpl. repeat split; done. }
  cbn [length Nat.eqb negb andb].
  destruct (Dec.gtb tc Dec.zero) eqn:Hgt.
  - apply bind_Ok in Halloc as ([allocs ta'] & _ & Halloc).
    apply bind_Ok in Halloc as (gta' & Hgta & Halloc).
    injection Halloc as <- <- <-.
    repeat split; try done. by eexists.
  - injection Halloc as <- <- <-. repeat split; done.
Qed.

Lemma closes_loop_report dec_power self lists by_close increases closes acc acc' :
  LateInterestEngine.closes_loop dec_power self lists by_close increases closes acc
    = Ok acc' ->
  exists reports,
    Forall2 (close_report dec_power self lists by_close) closes reports /\
    LateInterestEngine.all_new_lp_results acc'
      = LateInterestEngine.all_new_lp_results acc ++ concat (map fst reports) /\
    LateInterestEngine.close_summaries acc'
      = LateInterestEngine.close_summaries acc ++ map snd reports /\
    foldl (fun acc x => a ← acc; Dec.add a x)
      (Ok (LateInterestEngine.grand_total_collected acc))
      (map LateInterestEngine.cs_total_collected (map snd reports))
      = Ok (LateInterestEngine.grand_total_collected acc') /\
    foldl (fun acc x => a ← acc; Dec.add a x)
      (Ok (LateInterestEngine.grand_total_allocated acc))
      (map LateInterestEngine.cs_total_allocated
         (filter (fun s => allocates s = true) (map snd reports)))
      = Ok (LateInterestEngine.grand_total_allocated acc') /\
    (Forall (fun s => allocates s = false) (map snd reports) ->
     LateInterestEngine.all_allocations_by_close acc'
       = LateInterestEngine.all_allocations_by_close acc).
Proof.
  revert acc. induction closes as [|k closes IH]; simpl; intros acc H.
  - injection H as <-. exists []. simpl. rewrite !app_nil_r. repeat split; done.
  - apply bind_Ok in H as (acc1 & H1 & H).
    apply process_close_report in H1 as (rep & Hrep & Hr1 & Hs1 & Hc1 & Ha1).
    apply IH in H as (reports & Hreps & Hr & Hs & Hc & Ha & Hn).
    exists (rep :: reports). simpl.
    split; [by constructor|].
    split; [by rewrite Hr, Hr1, <- app_assoc|].
    split; [by rewrite Hs, Hs1, <- app_assoc|].
    split; [by rewrite Hc1|].
    destruct (allocates rep.2) eqn:Hal.
    + destruct Ha1 as [Ha1 _]. rewrite filter_cons_True by done. simpl.
      rewrite Ha1. split; [done|]. intros Hall.
      apply Forall_cons in Hall as [Hall _]. congruence.
    + destruct Ha1 as [Ha1 Hb1]. rewrite filter_cons_False by congruence.
      rewrite <- Ha1. split; [done|]. intros Hall.
      apply Forall_cons in Hall as [_ Hall]. rewrite Hn by done. done.
Qed.

Lemma calculation_report dec_power self today lists increases out :
  LateInterestEngine.calculation dec_power self today lists increases = Ok out ->
  exists reports,
    Forall2 (close_report dec_power self lists
               (LateInterestEngine.group_by_close (LateInterestEngine.partners lists)))
      (LateInterestEngine.closes_to_process
         (LateInterestEngine.group_by_close (LateInterestEngine.partners lists)))
      reports /\
    LateInterestEngine.new_lps out = concat (map fst reports) /\
    LateInterestEngine.summary_by_close out = map snd reports /\
    Dec.sum (map LateInterestEngine.cs_total_collected (map snd reports))
      = Ok (LateInterestEngine.total_late_interest_collected out) /\
    Dec.sum (map LateInterestEngine.cs_total_allocated
               (filter (fun s => allocates s = true) (map snd reports)))
      = Ok (LateInterestEngine.total_late_interest_allocated out) /\
    (Forall (fun s => allocates s = false) (map snd reports) ->
     LateInterestEngine.existing_lps out = []).
Proof.
  unfold LateInterestEngine.calculation. intros H.
  apply bind_Ok in H as (acc & Hloop & H).
  apply bind_Ok in H as (agg & Hagg & H). injection H as <-. simpl.
  apply closes_loop_report in Hloop as (reports & Hreps & Hr & Hs & Hc & Ha & Hn).
  simpl in *. exists reports. repeat split; try done.
  intros Hall. rewrite Hn in Hagg by done. by injection Hagg as <-.
Qed.

(** ** Stability of the sort *)

Section Stability.
Context {A : Type} (le : A -> A -> bool) (P : A -> Prop) `{!forall x, Decision (P x)}.
Hypothesis le_same : forall x y, P x -> P y -> le x y = true.

Lemma insert_sorted_filter (x : A) (l : list A) :
  filter P (insert_sorted le x l) = filter P (x :: l).
Proof.
  induction l as [|y l IH]; simpl; [done|].
  destruct (le x y) eqn:Hxy; [done|].
  rewrite filter_cons, IH, !filter_cons.
  destruct (decide (P y)) as [Hy|Hy]; [|done].
  destruct (decide (P x)) as [Hx|Hx]; [|done].
  rewrite le_same in Hxy by done. done.
Qed.

(** The elements of a class whose members compare as equal keep their
    relative order. *)
Lemma stable_sort_filter (l : list A) :
  filter P (stable_sort le l) = filter P l.
Proof.
  induction l as [|x l IH]; simpl; [done|].
  by rewrite insert_sorted_filter, !filter_cons, IH.
Qed.
End Stability.

Lemma sort_by_filter {A : Type} (key : A -> Z) (k : Z) (l : list A) :
  filter (fun x => key x = k) (sort_by key l) = filter (fun x => key x = k) l.
Proof.
  apply stable_sort_filter. intros x y -> ->. apply Z.leb_refl.
Qed.

Lemma sort_by_reverse_filter {A : Type} (key : A -> Z) (k : Z) (l : list A) :
  filter (fun x => key x = k) (sort_by_reverse key l)
  = filter (fun x => key x = k) l.
Proof.
  apply stable_sort_filter. intros x y -> ->. apply Z.leb_refl.
Qed.

(** ** The summaries and records of a run *)

Lemma group_default (l : list Partner) (k : Z) :
  default [] (LateInterestEngine.group_by_close l !! k)
  = filter (fun p => close_number p = k) l.
Proof. rewrite group_by_close_lookup. by destruct (filter _ l). Qed.

Lemma filter_nonempty_length {A : Type} (P : A -> Prop) `{!forall x, Decision (P x)}
    (l : list A) (x : A) :
  x ∈ l -> P x -> (0 < length (filter P l))%nat.
Proof.
  intros Hx HP. assert (Hin : x ∈ filter P l) by (by apply list_elem_of_filter).
  destruct (filter P l); [by apply elem_of_nil in Hin|simpl; lia].
Qed.

(** X12: The grand totals of a run are the sums of the per-close totals: the
    total collected over all the close summaries, the total allocated
    over the summaries of the closes that allocate (existing partners
    and a positive amount collected); every other summary shows
    [Decimal('0')] allocated, and the difference of every summary is
    its collected less its allocated amount. *)
Theorem grand_totals_are_sums_over_the_closes
    (dec_power : Decimal -> Decimal -> result Decimal)
    (self : LateInterestEngine.t) (today : date)
    (lists : LateInterestEngine.Lists)
    (commitment_increases : option (gmap string Decimal))
    (out : LateInterestEngine.EngineOutput) :
  (LateInterestEngine.run_complete_calculation dec_power self today lists
     commitment_increases).2 = Ok out ->
  Dec.sum (map LateInterestEngine.cs_total_collected
             (LateInterestEngine.summary_by_close out))
    = Ok (LateInterestEngine.total_late_interest_collected out) /\
  Dec.sum (map LateInterestEngine.cs_total_allocated
             (filter (fun s => allocates s = true)
                (LateInterestEngine.summary_by_close out)))
    = Ok (LateInterestEngine.total_late_interest_allocated out) /\
  Forall (fun s =>
    Dec.sub (LateInterestEngine.cs_total_collected s)
        (LateInterestEngine.cs_total_allocated s)
      = Ok (LateInterestEngine.difference s) /\
    (allocates s = false -> LateInterestEngine.cs_total_allocated s = Dec.zero))
    (LateInterestEngine.summary_by_close out).
Proof.
  simpl. intros H.
  apply calculation_report in H as (reports & Hreps & _ & -> & Hc & Ha & _).
  split; [done|]. split; [done|].
  clear Hc Ha. induction Hreps as [|k rep ks reps Hrep _ IH]; simpl; [constructor|].
  constructor; [|done]. destruct Hrep as (_ & _ & _ & _ & _ & Hd & Hz). done.
Qed.

Lemma grand_totals_are_sums_over_the_closes_witness :
  exists out,
    (LateInterestEngine.run_complete_calculation no_power example_engine 0
       (LateInterestEngine.mkLists example_partners example_calls) None).2 = Ok out /\
    Dec.sum (map LateInterestEngine.cs_total_collected
               (LateInterestEngine.summary_by_close out))
      = Ok (LateInterestEngine.total_late_interest_collected out) /\
    Dec.sum (map LateInterestEngine.cs_total_allocated
               (filter (fun s => allocates s = true)
                  (LateInterestEngine.summary_by_close out)))
      = Ok (LateInterestEngine.total_late_interest_allocated out) /\
    Forall (fun s =>
      Dec.sub (LateInterestEngine.cs_total_collected s)
          (LateInterestEngine.cs_total_allocated s)
        = Ok (LateInterestEngine.difference s) /\
      (allocates s = false -> LateInterestEngine.cs_total_allocated s = Dec.zero))
      (LateInterestEngine.summary_by_close out).
Proof.
  eexists. split; [vm_compute; reflexivity|].
  apply (grand_totals_are_sums_over_the_closes no_power example_engine 0
           (LateInterestEngine.mkLists example_partners example_calls) None).
  vm_compute. reflexivity.
Defined.

(** X13: Every close summary of a run counts the partners of its close as new
    LPs and the partners of lower closes as existing LPs, both counted
    in the caller's list, and neither count is zero. *)
Theorem close_summary_counts
    (dec_power : Decimal -> Decimal -> result Decimal)
    (self : LateInterestEngine.t) (today : date)
    (lists : LateInterestEngine.Lists)
    (commitment_increases : option (gmap string Decimal))
    (out : LateInterestEngine.EngineOutput) :
  (LateInterestEngine.run_complete_calculation dec_power self today lists
     commitment_increases).2 = Ok out ->
  Forall (fun s =>
    LateInterestEngine.new_lps_count s
      = length (filter (fun p => close_number p = LateInterestEngine.cs_close_number s)
                  (LateInterestEngine.partners lists)) /\
    LateInterestEngine.existing_lps_count s
      = length (filter (fun p => close_number p < LateInterestEngine.cs_close_number s)
                  (LateInterestEngine.partners lists)) /\
    (0 < LateInterestEngine.new_lps_count s)%nat /\
    (0 < LateInterestEngine.existing_lps_count s)%nat)
    (LateInterestEngine.summary_by_close out).
Proof.
  simpl. intros H.
  apply calculation_report in H as (reports & Hreps & _ & -> & _).
  simpl in Hreps.
  set (sorted := sort_by close_number (LateInterestEngine.partners lists)) in *.
  assert (Hperm : sorted ≡ₚ LateInterestEngine.partners lists)
    by apply sort_by_perm.
  assert (Hin : forall k,
    k ∈ LateInterestEngine.closes_to_process (LateInterestEngine.group_by_close sorted) ->
    (exists p, p ∈ sorted /\ close_number p = k) /\
    (exists p, p ∈ sorted /\ close_number p < k)).
  { intros k Hk. unfold LateInterestEngine.closes_to_process in Hk.
    apply elem_of_drop_1_sorted in Hk as (Hk & h & Hh & Hlt);
      [|apply all_closes_sorted].
    apply elem_of_all_closes in Hk. split; [done|].
    apply elem_of_all_closes in Hh as (p & Hp & <-). eauto. }
  revert Hreps Hin. generalize (LateInterestEngine.closes_to_process
                                  (LateInterestEngine.group_by_close sorted)).
  intros closes Hreps.
  induction Hreps as [|k rep ks reps Hrep _ IH]; intros Hin; simpl; [constructor|].
  constructor; [|apply IH; intros k' Hk'; apply Hin; by right].
  destruct Hrep as (_ & Hk & Hn & He & _). simpl in Hn, He.
  rewrite group_default in Hn. rewrite Hk, Hn, He.
  destruct (Hin k) as ((p & Hp & Hpk) & (q & Hq & Hqk)); [by left|].
  split; [by rewrite Hperm|]. split; [by rewrite Hperm|].
  split; [by apply (filter_nonempty_length _ _ p)|
          by apply (filter_nonempty_length _ _ q)].
Qed.

Lemma close_summary_counts_witness :
  exists out,
    (LateInterestEngine.run_complete_calculation no_power example_engine 0
       (LateInterestEngine.mkLists example_partners example_calls) None).2 = Ok out /\
    map (fun s => (LateInterestEngine.cs_close_number s,
                   LateInterestEngine.new_lps_count s,
                   LateInterestEngine.existing_lps_count s))
      (LateInterestEngine.summary_by_close out) = [(2, 1%nat, 2%nat)] /\
    Forall (fun s =>
      LateInterestEngine.new_lps_count s
        = length (filter
                    (fun p => close_number p = LateInterestEngine.cs_close_number s)
                    example_partners) /\
      LateInterestEngine.existing_lps_count s
        = length (filter
                    (fun p => close_number p < LateInterestEngine.cs_close_number s)
                    example_partners) /\
      (0 < LateInterestEngine.new_lps_count s)%nat /\
      (0 < LateInterestEngine.existing_lps_count s)%nat)
      (LateInterestEngine.summary_by_close out).
Proof.
  eexists. split; [vm_compute; reflexivity|].
  split; [vm_compute; reflexivity|].
  apply (close_summary_counts no_power example_engine 0
           (LateInterestEngine.mkLists example_partners example_calls) None).
  vm_compute. reflexivity.
Defined.

Lemma Forall2_Forall_r_impl {A B : Type} (P : A -> B -> Prop) (R : A -> Prop)
    (Q : B -> Prop) (l : list A) (k : list B) :
  Forall2 P l k -> Forall R l -> (forall x y, R x -> P x y -> Q y) -> Forall Q k.
Proof.
  intros H Hl HQ. induction H as [|x y l k Hxy _ IH]; [constructor|].
  apply Forall_cons in Hl as [Hx Hl]. constructor; eauto.
Qed.

Lemma new_lp_calculation_identity dec_power self new_lp capital_calls r :
  LateInterestCalculator.calculate_late_interest_for_new_lp dec_power self
    new_lp capital_calls = Ok r ->
  (nlp_partner_name r, nlp_issue_date r, nlp_commitment r, nlp_close_number r)
  = (name new_lp, issue_date new_lp, commitment new_lp, close_number new_lp).
Proof.
  unfold LateInterestCalculator.calculate_late_interest_for_new_lp. intros H.
  apply bind_Ok in H as ([[b tc] tl] & _ & H).
  apply bind_Ok in H as (tc' & _ & H).
  apply bind_Ok in H as (tl' & _ & H).
  by injection H as <-.
Qed.

(** X14: The new-LP records of a run follow the closes processed, in
    ascending order of close number, and within a close the order of the
    caller's list (the sort is stable); each carries the name, issue
    date, commitment and close number of its partner. *)
Theorem new_lp_records_follow_the_closes
    (dec_power : Decimal -> Decimal -> result Decimal)
    (self : LateInterestEngine.t) (today : date)
    (lists : LateInterestEngine.Lists)
    (commitment_increases : option (gmap string Decimal))
    (out : LateInterestEngine.EngineOutput) :
  (LateInterestEngine.run_complete_calculation dec_power self today lists
     commitment_increases).2 = Ok out ->
  map (fun r => (nlp_partner_name r, nlp_issue_date r, nlp_commitment r,
                 nlp_close_number r)) (LateInterestEngine.new_lps out)
  = map (fun p => (name p, issue_date p, commitment p, close_number p))
      (concat
         (map (fun k => filter (fun p => close_number p = k)
                          (LateInterestEngine.partners lists))
            (LateInterestEngine.closes_to_process
               (LateInterestEngine.group_by_close
                  (sort_by close_number (LateInterestEngine.partners lists)))))).
Proof.
  simpl. intros H.
  apply calculation_report in H as (reports & Hreps & -> & _).
  simpl in Hreps.
  induction Hreps as [|k rep ks reps Hrep _ IH]; simpl; [done|].
  rewrite !map_app, IH. f_equal.
  destruct Hrep as (Hcalcs & _). simpl in Hcalcs.
  rewrite group_default, sort_by_filter in Hcalcs.
  induction Hcalcs as [|p r ps rs Hr _ IH']; simpl; [done|].
  apply new_lp_calculation_identity in Hr. by rewrite Hr, IH'.
Qed.

Lemma new_lp_records_follow_the_closes_witness :
  exists out,
    (LateInterestEngine.run_complete_calculation no_power example_engine 0
       (LateInterestEngine.mkLists example_partners example_calls) None).2 = Ok out /\
    map (fun r => (nlp_partner_name r, nlp_issue_date r, nlp_commitment r,
                   nlp_close_number r)) (LateInterestEngine.new_lps out)
    = [("New Investor LLC", mkdate 2022 7 1, dec 3000000 0, 2)].
Proof.
  eexists. split; [vm_compute; reflexivity|].
  rewrite (new_lp_records_follow_the_closes no_power example_engine 0
             (LateInterestEngine.mkLists example_partners example_calls) None).
  - vm_compute. reflexivity.
  - vm_compute. reflexivity.
Defined.

(** X15: The new-LP records of a run come in one block per close summary, in
    the order of the summaries; the records of a block carry the close
    number of the summary, which counts them, and the total collected of
    the summary is the sum of their late interest due. *)
Theorem close_totals_are_sums_of_their_records
    (dec_power : Decimal -> Decimal -> result Decimal)
    (self : LateInterestEngine.t) (today : date)
    (lists : LateInterestEngine.Lists)
    (commitment_increases : option (gmap string Decimal))
    (out : LateInterestEngine.EngineOutput) :
  (LateInterestEngine.run_complete_calculation dec_power self today lists
     commitment_increases).2 = Ok out ->
  exists blocks,
    LateInterestEngine.new_lps out = concat blocks /\
    Forall2 (fun block s =>
      Forall (fun r => nlp_close_number r = LateInterestEngine.cs_close_number s)
        block /\
      length block = LateInterestEngine.new_lps_count s /\
      Dec.sum (map total_late_interest_due block)
        = Ok (LateInterestEngine.cs_total_collected s))
      blocks (LateInterestEngine.summary_by_close out).
Proof.
  simpl. intros H.
  apply calculation_report in H as (reports & Hreps & -> & -> & _).
  exists (map fst reports). split; [done|].
  simpl in Hreps.
  induction Hreps as [|k rep ks reps Hrep _ IH]; simpl; [constructor|].
  constructor; [|done].
  destruct Hrep as (Hcalcs & Hk & Hn & _ & Hsum & _). simpl in Hcalcs, Hn.
  split; [|split; [|done]].
  - assert (Hg : Forall (fun p => close_number p = k)
                   (default [] (LateInterestEngine.group_by_close
                                  (sort_by close_number
                                     (LateInterestEngine.partners lists)) !! k))).
    { rewrite group_default, Forall_forall. by intros p [? _]%list_elem_of_filter. }
    rewrite Hk. eapply Forall2_Forall_r_impl; [exact Hcalcs|exact Hg|].
    intros p r Hp Hr. apply new_lp_calculation_identity in Hr.
    by injection Hr as _ _ _ ->.
  - rewrite Hn. symmetry. by eapply Forall2_length.
Qed.

Lemma close_totals_are_sums_of_their_records_witness :
  exists out,
    (LateInterestEngine.run_complete_calculation no_power example_engine 0
       (LateInterestEngine.mkLists example_partners example_calls) None).2 = Ok out /\
    exists blocks,
      LateInterestEngine.new_lps out = concat blocks /\
      Forall2 (fun block s =>
        Forall (fun r => nlp_close_number r = LateInterestEngine.cs_close_number s)
          block /\
        length block = LateInterestEngine.new_lps_count s /\
        Dec.sum (map total_late_interest_due block)
          = Ok (LateInterestEngine.cs_total_collected s))
        blocks (LateInterestEngine.summary_by_close out).
Proof.
  eexists. split; [vm_compute; reflexivity|].
  apply (close_totals_are_sums_of_their_records no_power example_engine 0
           (LateInterestEngine.mkLists example_partners example_calls) None).
  vm_compute. reflexivity.
Defined.

(** ** A run with interest through the due date only *)

Lemma add_zero_int (x y r : Decimal) :
  Dec.add x y = Ok r -> Dec.d_int x = 0 -> Dec.d_int y = 0 -> Dec.d_int r = 0.
Proof.
  unfold Dec.add, Dec.signed_at. intros H Hx Hy.
  rewrite Hx, Hy, !Z.mul_0_l, !Z.mul_0_r in H. simpl in H.
  unfold Dec._fix, Dec.is_zero in H. simpl in H. by injection H as <-.
Qed.

Lemma sum_zero_int (l : list Decimal) (a r : Decimal) :
  Forall (fun x => Dec.d_int x = 0) l -> Dec.d_int a = 0 ->
  foldl (fun acc x => a ← acc; Dec.add a x) (Ok a) l = Ok r -> Dec.d_int r = 0.
Proof.
  intros Hl. revert a. induction Hl as [|x l Hx _ IH]; simpl; intros a Ha H.
  - by injection H as <-.
  - destruct (Dec.add a x) as [a'|] eqn:Hadd.
    + apply (IH a'); [by eapply add_zero_int|done].
    + assert (Hr : forall l', foldl (fun acc x => a ← acc; Dec.add a x)
                               (Raise e) l' = Raise e)
        by (intros l'; induction l'; simpl; auto).
      rewrite Hr in H. done.
Qed.

Lemma gtb_zero_int (x : Decimal) : Dec.d_int x = 0 -> Dec.gtb x Dec.zero = false.
Proof.
  unfold Dec.gtb, Dec.ltb, Dec.compare, Dec.signed_at. intros ->.
  simpl. by rewrite !Z.mul_0_l, !Z.mul_0_r.
Qed.

(** X16: With [end_date_calculation = DUE_DATE] no late interest is collected
    in a run, so nothing is allocated: the collected total is zero, the
    allocated total is [Decimal('0')], no summary shows an allocation
    and the list of existing LPs is empty. *)
Theorem due_date_mode_allocates_nothing
    (dec_power : Decimal -> Decimal -> result Decimal)
    (a : FundAssumptions) (self : LateInterestEngine.t) (today : date)
    (lists : LateInterestEngine.Lists)
    (commitment_increases : option (gmap string Decimal))
    (out : LateInterestEngine.EngineOutput) :
  LateInterestEngine.__init__ a = Ok self ->
  end_date_calculation a = DUE_DATE ->
  (LateInterestEngine.run_complete_calculation dec_power self today lists
     commitment_increases).2 = Ok out ->
  LateInterestEngine.existing_lps out = [] /\
  LateInterestEngine.total_late_interest_allocated out = Dec.zero /\
  Dec.d_int (LateInterestEngine.total_late_interest_collected out) = 0 /\
  Forall (fun r => Dec.d_int (total_late_interest_due r) = 0)
    (LateInterestEngine.new_lps out) /\
  Forall (fun s => LateInterestEngine.cs_total_allocated s = Dec.zero)
    (LateInterestEngine.summary_by_close out).
Proof.
  intros Hinit He H. simpl in H.
  assert (Hcalc : end_date_calculation
                    (LateInterestCalculator.assumptions
                       (LateInterestEngine.late_calc self)) = DUE_DATE).
  { unfold LateInterestEngine.__init__ in Hinit.
    apply bind_Ok in Hinit as (lc & Hlc & Hinit). injection Hinit as <-. simpl.
    unfold LateInterestCalculator.__init__ in Hlc.
    apply bind_Ok in Hlc as (rc & _ & Hlc). by injection Hlc as <-. }
  apply calculation_report in H as (reports & Hreps & -> & -> & Hc & Ha & Hn).
  simpl in Hreps.
  assert (Hzero : Forall (fun rep =>
            Forall (fun r => Dec.d_int (total_late_interest_due r) = 0) rep.1 /\
            Dec.d_int (LateInterestEngine.cs_total_collected rep.2) = 0 /\
            allocates rep.2 = false /\
            LateInterestEngine.cs_total_allocated rep.2 = Dec.zero) reports).
  { clear Hc Ha Hn.
    induction Hreps as [|k rep ks reps Hrep _ IH]; constructor; [|done].
    destruct Hrep as (Hcalcs & _ & _ & _ & Hsum & _ & Hz).
    assert (Hb : Forall (fun r => Dec.d_int (total_late_interest_due r) = 0) rep.1).
    { eapply (Forall2_Forall_r_impl _ (fun _ => True));
        [exact Hcalcs|by apply Forall_true|].
      intros p r _ Hr. by apply due_date_calculation_inv in Hr as [_ ?]. }
    assert (Htc : Dec.d_int (LateInterestEngine.cs_total_collected rep.2) = 0).
    { eapply (sum_zero_int _ Dec.zero); [|reflexivity|exact Hsum]. by apply Forall_fmap. }
    assert (Hal : allocates rep.2 = false).
    { unfold allocates. rewrite gtb_zero_int by done. apply andb_false_r. }
    auto. }
  assert (Hall : Forall (fun s => allocates s = false) (map snd reports)).
  { apply Forall_fmap. eapply Forall_impl; [exact Hzero|]. by intros rep (_ & _ & ? & _). }
  split; [by apply Hn|].
  split.
  { assert (Hnil : filter (fun s => allocates s = true) (map snd reports) = []).
    { clear -Hall. induction Hall as [|s l Hs _ IH]; [done|].
      rewrite filter_cons_False by congruence. done. }
    rewrite Hnil in Ha. by injection Ha as <-. }
  split.
  { eapply (sum_zero_int _ Dec.zero); [|reflexivity|exact Hc].
    rewrite <- list_fmap_compose. apply Forall_fmap.
    eapply Forall_impl; [exact Hzero|]. by intros rep (_ & ? & _). }
  split.
  - apply Forall_concat, Forall_fmap.
    eapply Forall_impl; [exact Hzero|]. by intros rep (? & _).
  - apply Forall_fmap. eapply Forall_impl; [exact Hzero|]. by intros rep (_ & _ & _ & ?).
Qed.

Lemma due_date_mode_allocates_nothing_witness :
  exists self out,
    LateInterestEngine.__init__ due_date_assumptions = Ok self /\
    (LateInterestEngine.run_complete_calculation no_power self 0
       (LateInterestEngine.mkLists example_partners example_calls) None).2 = Ok out /\
    map LateInterestEngine.cs_close_number (LateInterestEngine.summary_by_close out)
      = [2] /\
    LateInterestEngine.existing_lps out = [] /\
    LateInterestEngine.total_late_interest_allocated out = Dec.zero /\
    Dec.d_int (LateInterestEngine.total_late_interest_collected out) = 0 /\
    Forall (fun r => Dec.d_int (total_late_interest_due r) = 0)
      (LateInterestEngine.new_lps out) /\
    Forall (fun s => LateInterestEngine.cs_total_allocated s = Dec.zero)
      (LateInterestEngine.summary_by_close out).
Proof.
  eexists. eexists. split; [vm_compute; reflexivity|].
  split; [vm_compute; reflexivity|]. split; [vm_compute; reflexivity|].
  eapply (due_date_mode_allocates_nothing no_power due_date_assumptions _ 0
           (LateInterestEngine.mkLists example_partners example_calls) None).
  - vm_compute. reflexivity.
  - reflexivity.
  - vm_compute. reflexivity.
Defined.

(** ** Order of the inputs *)

Lemma NoDup_fmap_eq {A B : Type} (f : A -> B) (l : list A) (x y : A) :
  NoDup (map f l) -> x ∈ l -> y ∈ l -> f x = f y -> x = y.
Proof.
  induction l as [|z l IH]; simpl; [by intros _ ?%elem_of_nil|].
  intros [Hz Hnd]%NoDup_cons Hx Hy Hf.
  apply elem_of_cons in Hx as [->|Hx]; apply elem_of_cons in Hy as [->|Hy].
  - done.
  - exfalso. apply Hz. rewrite Hf. apply list_elem_of_fmap. eauto.
  - exfalso. apply Hz. rewrite <- Hf. apply list_elem_of_fmap. eauto.
  - by apply IH.
Qed.

Lemma NoDup_fmap_filter {A B : Type} (f : A -> B) (P : A -> Prop)
    `{!forall x, Decision (P x)} (l : list A) :
  NoDup (map f l) -> NoDup (map f (filter P l)).
Proof.
  induction l as [|z l IH]; simpl; [done|].
  intros [Hz Hnd]%NoDup_cons. rewrite filter_cons.
  destruct (decide (P z)); [|by apply IH].
  simpl. apply NoDup_cons. split; [|by apply IH].
  intros (y & Hy & [_ Hin]%list_elem_of_filter)%list_elem_of_fmap.
  apply Hz. apply list_elem_of_fmap. eauto.
Qed.

(** Two lists in the same order of distinct keys, with the same
    elements, are equal. *)
Lemma sorted_by_key_unique {A : Type} (key : A -> Z) (R : Z -> Z -> Prop)
    (l1 l2 : list A) :
  (forall a b, R a b -> R b a -> a = b) ->
  StronglySorted (fun a b => R (key a) (key b)) l1 ->
  StronglySorted (fun a b => R (key a) (key b)) l2 ->
  l1 ≡ₚ l2 -> NoDup (map key l1) -> l1 = l2.
Proof.
  intros Hanti Hs1. revert l2.
  induction Hs1 as [|x l1 Hs1 IH Hx]; intros l2 Hs2 Hperm Hnd.
  { by apply Permutation_nil_l in Hperm. }
  destruct Hs2 as [|y l2 Hs2 Hy].
  { by apply Permutation_nil_r in Hperm. }
  assert (Hxy : x = y).
  { assert (Hyin : y ∈ x :: l1) by (rewrite Hperm; by left).
    assert (Hxin : x ∈ y :: l2) by (rewrite <- Hperm; by left).
    apply elem_of_cons in Hyin as [->|Hyin]; [done|].
    apply elem_of_cons in Hxin as [->|Hxin]; [done|].
    rewrite Forall_forall in Hx, Hy.
    apply (NoDup_fmap_eq key (x :: l1)); [done|by left|by right|].
    apply Hanti; [by apply Hx|by apply Hy]. }
  subst y. f_equal. apply IH; [done|by eapply Permutation_cons_inv|].
  by apply NoDup_cons in Hnd as [_ ?].
Qed.

Lemma sort_by_permutation {A : Type} (key : A -> Z) (l1 l2 : list A) :
  l1 ≡ₚ l2 -> NoDup (map key l1) -> sort_by key l1 = sort_by key l2.
Proof.
  intros Hperm Hnd.
  apply (sorted_by_key_unique key Z.le); [lia|apply sort_by_sorted..| |].
  - by rewrite !sort_by_perm.
  - rewrite sort_by_perm. done.
Qed.

Lemma sort_by_reverse_permutation {A : Type} (key : A -> Z) (l1 l2 : list A) :
  l1 ≡ₚ l2 -> NoDup (map key l1) ->
  sort_by_reverse key l1 = sort_by_reverse key l2.
Proof.
  intros Hperm Hnd.
  apply (sorted_by_key_unique key (fun a b => b <= a));
    [lia|apply sort_by_reverse_sorted..| |].
  - by rewrite !sort_by_reverse_perm.
  - rewrite sort_by_reverse_perm. done.
Qed.

Lemma missed_calls_permutation (new_lp : Partner) (calls1 calls2 : list CapitalCall) :
  calls1 ≡ₚ calls2 -> NoDup (map call_number calls1) ->
  LateInterestCalculator.missed_calls new_lp calls1
  = LateInterestCalculator.missed_calls new_lp calls2.
Proof.
  intros Hperm Hnd. unfold LateInterestCalculator.missed_calls.
  apply sort_by_permutation; [by rewrite Hperm|by apply NoDup_fmap_filter].
Qed.

Lemma new_lp_loop_ext dec_power self calls1 calls2 lps calcs tc results :
  (forall lp,
     LateInterestCalculator.calculate_late_interest_for_new_lp dec_power
       (LateInterestEngine.late_calc self) lp calls1
     = LateInterestCalculator.calculate_late_interest_for_new_lp dec_power
         (LateInterestEngine.late_calc self) lp calls2) ->
  LateInterestEngine.new_lp_loop dec_power self calls1 lps calcs tc results
  = LateInterestEngine.new_lp_loop dec_power self calls2 lps calcs tc results.
Proof.
  intros Hext. revert calcs tc results.
  induction lps as [|lp lps IH]; intros calcs tc results; [done|].
  simpl. rewrite Hext.
  destruct (LateInterestCalculator.calculate_late_interest_for_new_lp _ _ _ _)
    as [calc|]; [|done].
  cbn [mbind result_bind]. destruct (Dec.add _ _) as [tc'|]; [|done].
  cbn [mbind result_bind]. apply IH.
Qed.

Lemma closes_loop_ext dec_power self partners calls1 calls2 by_close increases
    closes acc :
  (forall lp,
     LateInterestCalculator.calculate_late_interest_for_new_lp dec_power
       (LateInterestEngine.late_calc self) lp calls1
     = LateInterestCalculator.calculate_late_interest_for_new_lp dec_power
         (LateInterestEngine.late_calc self) lp calls2) ->
  LateInterestEngine.closes_loop dec_power self
    (LateInterestEngine.mkLists partners calls1) by_close increases closes acc
  = LateInterestEngine.closes_loop dec_power self
      (LateInterestEngine.mkLists partners calls2) by_close increases closes acc.
Proof.
  intros Hext. revert acc.
  induction closes as [|k closes IH]; intros acc; [done|].
  simpl. unfold LateInterestEngine.process_close. simpl.
  rewrite (new_lp_loop_ext dec_power self calls1 calls2) by done.
  destruct (LateInterestEngine.new_lp_loop _ _ _ _ _ _ _) as [[[calcs tc] results]|];
    [|done].
  cbn [mbind result_bind].
  destruct (Dec.add _ tc) as [gtc|]; [|done]. cbn [mbind result_bind].
  match goal with
  | |- (?m ≫= _) ≫= _ = _ => destruct m as [[[bc ta] gta]|]; [|done]
  end.
  cbn [mbind result_bind].
  destruct (Dec.sub tc ta) as [diff|]; [|done]. cbn [mbind result_bind].
  apply IH.
Qed.

(** X17: When the call numbers are distinct, the order in which the capital
    calls are passed does not matter: the calculation of an LP, and the
    result of a whole run, are the same for any reordering of the
    list. *)
Theorem capital_call_order_is_irrelevant
    (dec_power : Decimal -> Decimal -> result Decimal)
    (self : LateInterestEngine.t) (today : date) (partners : list Partner)
    (calls1 calls2 : list CapitalCall)
    (commitment_increases : option (gmap string Decimal)) :
  calls1 ≡ₚ calls2 -> NoDup (map call_number calls1) ->
  (forall new_lp,
     LateInterestCalculator.calculate_late_interest_for_new_lp dec_power
       (LateInterestEngine.late_calc self) new_lp calls1
     = LateInterestCalculator.calculate_late_interest_for_new_lp dec_power
         (LateInterestEngine.late_calc self) new_lp calls2) /\
  (LateInterestEngine.run_complete_calculation dec_power self today
     (LateInterestEngine.mkLists partners calls1) commitment_increases).2
  = (LateInterestEngine.run_complete_calculation dec_power self today
       (LateInterestEngine.mkLists partners calls2) commitment_increases).2.
Proof.
  intros Hperm Hnd.
  assert (Hext : forall new_lp,
     LateInterestCalculator.calculate_late_interest_for_new_lp dec_power
       (LateInterestEngine.late_calc self) new_lp calls1
     = LateInterestCalculator.calculate_late_interest_for_new_lp dec_power
         (LateInterestEngine.late_calc self) new_lp calls2).
  { intros new_lp. unfold LateInterestCalculator.calculate_late_interest_for_new_lp.
    by rewrite (missed_calls_permutation new_lp calls1 calls2). }
  split; [exact Hext|].
  simpl. unfold LateInterestEngine.calculation. simpl.
  by rewrite (closes_loop_ext dec_power self _ calls1 calls2).
Qed.

Lemma capital_call_order_is_irrelevant_witness :
  LateInterestCalculator.calculate_late_interest_for_new_lp no_power
    prime_calculator boundary_lp example_calls
  = LateInterestCalculator.calculate_late_interest_for_new_lp no_power
      prime_calculator boundary_lp (rev example_calls).
Proof.
  refine (proj1 (capital_call_order_is_irrelevant no_power example_engine 0
                   example_partners example_calls (rev example_calls) None _ _)
            boundary_lp).
  - apply Permutation_rev.
  - apply (bool_decide_unpack _). vm_compute. exact I.
Defined.

(** X18: When the effective dates are distinct, the order in which the rate
    history is passed does not matter: the calculator built is the
    same. *)
Theorem rate_history_order_is_irrelevant
    (compounding : InterestCompounding) (history1 history2 : list PrimeRateChange)
    (spread flat_rate : option Decimal) :
  history1 ≡ₚ history2 -> NoDup (map effective_date history1) ->
  InterestRateCalculator.__init__ compounding (Some history1) spread flat_rate
  = InterestRateCalculator.__init__ compounding (Some history2) spread flat_rate.
Proof.
  intros Hperm Hnd. unfold InterestRateCalculator.__init__.
  destruct flat_rate; [done|].
  by rewrite (sort_by_reverse_permutation effective_date history1 history2).
Qed.

Lemma rate_history_order_is_irrelevant_witness :
  InterestRateCalculator.__init__ SIMPLE (Some two_rate_history)
    (Some (dec 20 (-1))) None
  = InterestRateCalculator.__init__ SIMPLE (Some two_rate_sorted)
      (Some (dec 20 (-1))) None.
Proof.
  apply (rate_history_order_is_irrelevant SIMPLE two_rate_history two_rate_sorted).
  - apply Permutation_swap.
  - apply (bool_decide_unpack _). vm_compute. exact I.
Defined.

(** ** The calculation of several LPs *)

Lemma multiple_new_lps_Ok dec_power self lps capital_calls rs :
  LateInterestCalculator.calculate_for_multiple_new_lps dec_power self lps
    capital_calls = Ok rs <->
  Forall2 (fun lp r =>
    LateInterestCalculator.calculate_late_interest_for_new_lp dec_power self lp
      capital_calls = Ok r) lps rs.
Proof.
  revert rs. induction lps as [|lp lps IH]; intros rs; simpl.
  - split; [intros [= <-]; constructor|]. intros H. by inversion H.
  - split.
    + intros H. apply bind_Ok in H as (r & Hr & H).
      apply bind_Ok in H as (rs' & Hrs & H). injection H as <-.
      constructor; [done|]. by apply IH.
    + intros H. inversion H as [|? r ? rs' Hr Hrs]; subst.
      apply IH in Hrs. by rewrite Hr, Hrs.
Qed.

Lemma multiple_new_lps_Raise dec_power self lps capital_calls e :
  LateInterestCalculator.calculate_for_multiple_new_lps dec_power self lps
    capital_calls = Raise e ->
  exists before lp after calcs,
    lps = before ++ lp :: after /\
    Forall2 (fun lp calc =>
      LateInterestCalculator.calculate_late_interest_for_new_lp dec_power self lp
        capital_calls = Ok calc) before calcs /\
    LateInterestCalculator.calculate_late_interest_for_new_lp dec_power self lp
      capital_calls = Raise e.
Proof.
  induction lps as [|lp lps IH]; simpl; [done|]. intros H.
  apply bind_Raise in H as [H|(r & Hr & H)].
  { exists [], lp, lps, []. split; [done|]. split; [constructor|done]. }
  apply bind_Raise in H as [H|(rs & _ & H)]; [|done].
  apply IH in H as (before & lp' & after & calcs & -> & Hb & Hraise).
  exists (lp :: before), lp', after, (r :: calcs).
  split; [done|]. split; [by constructor|done].
Qed.

Lemma multiple_new_lps_first_failure dec_power self before lp after capital_calls
    calcs e :
  Forall2 (fun lp calc =>
    LateInterestCalculator.calculate_late_interest_for_new_lp dec_power self lp
      capital_calls = Ok calc) before calcs ->
  LateInterestCalculator.calculate_late_interest_for_new_lp dec_power self lp
    capital_calls = Raise e ->
  LateInterestCalculator.calculate_for_multiple_new_lps dec_power self
    (before ++ lp :: after) capital_calls = Raise e.
Proof.
  intros Hb Hraise. induction Hb as [|b c before calcs Hc _ IH]; simpl.
  - by rewrite Hraise.
  - by rewrite Hc, IH.
Qed.

(** X19: [calculate_for_multiple_new_lps] returns one calculation per LP, in
    the order of the LPs, when every one of them returns; otherwise it
    raises what the first LP that fails raises. *)
Theorem multiple_new_lps_outcomes
    (dec_power : Decimal -> Decimal -> result Decimal)
    (self : LateInterestCalculator.t) (new_lps : list Partner)
    (capital_calls : list CapitalCall) :
  (forall calcs,
     LateInterestCalculator.calculate_for_multiple_new_lps dec_power self new_lps
       capital_calls = Ok calcs <->
     Forall2 (fun lp calc =>
       LateInterestCalculator.calculate_late_interest_for_new_lp dec_power self lp
         capital_calls = Ok calc) new_lps calcs) /\
  (forall e,
     LateInterestCalculator.calculate_for_multiple_new_lps dec_power self new_lps
       capital_calls = Raise e <->
     exists before lp after calcs,
       new_lps = before ++ lp :: after /\
       Forall2 (fun lp calc =>
         LateInterestCalculator.calculate_late_interest_for_new_lp dec_power self lp
           capital_calls = Ok calc) before calcs /\
       LateInterestCalculator.calculate_late_interest_for_new_lp dec_power self lp
         capital_calls = Raise e).
Proof.
  split; [intros calcs; apply multiple_new_lps_Ok|].
  intros e. split; [apply multiple_new_lps_Raise|].
  intros (before & lp & after & calcs & -> & Hb & Hraise).
  by eapply multiple_new_lps_first_failure.
Qed.

(** X20: The new-LP records of a run are what
    [calculate_for_multiple_new_lps] returns for the partners of the
    closes processed, taken close by close in the order of the caller's
    list. *)
Theorem run_new_lps_are_the_batch_calculation
    (dec_power : Decimal -> Decimal -> result Decimal)
    (self : LateInterestEngine.t) (today : date)
    (lists : LateInterestEngine.Lists)
    (commitment_increases : option (gmap string Decimal))
    (out : LateInterestEngine.EngineOutput) :
  (LateInterestEngine.run_complete_calculation dec_power self today lists
     commitment_increases).2 = Ok out ->
  LateInterestCalculator.calculate_for_multiple_new_lps dec_power
    (LateInterestEngine.late_calc self)
    (concat
       (map (fun k => filter (fun p => close_number p = k)
                        (LateInterestEngine.partners lists))
          (LateInterestEngine.closes_to_process
             (LateInterestEngine.group_by_close
                (sort_by close_number (LateInterestEngine.partners lists))))))
    (LateInterestEngine.capital_calls lists)
  = Ok (LateInterestEngine.new_lps out).
Proof.
  simpl. intros H.
  apply calculation_report in H as (reports & Hreps & -> & _).
  simpl in Hreps. apply multiple_new_lps_Ok.
  induction Hreps as [|k rep ks reps Hrep _ IH]; simpl; [constructor|].
  apply Forall2_app; [|done].
  destruct Hrep as (Hcalcs & _). simpl in Hcalcs.
  by rewrite group_default, sort_by_filter in Hcalcs.
Qed.

Lemma run_new_lps_are_the_batch_calculation_witness :
  exists out,
    (LateInterestEngine.run_complete_calculation no_power example_engine 0
       (LateInterestEngine.mkLists example_partners example_calls) None).2 = Ok out /\
    LateInterestCalculator.calculate_for_multiple_new_lps no_power prime_calculator
      [mkPartner "New Investor LLC" (mkdate 2022 7 1) (dec 3000000 0) 2]
      example_calls
    = Ok (LateInterestEngine.new_lps out).
Proof.
  eexists. split; [vm_compute; reflexivity|].
  apply (run_new_lps_are_the_batch_calculation no_power example_engine 0
           (LateInterestEngine.mkLists example_partners example_calls) None).
  vm_compute. reflexivity.
Defined.

(** ** A variable rate that does not change within the period *)

(** X21: When no entry of the history takes effect within
    [(start_date, end_date]], the variable-rate accrual is one period at
    the rate in effect on [start_date], over the inclusive day count: the
    interest of a flat-rate accrual at that rate, added to
    [Decimal('0')]; the rate reported is the one implied by that
    interest. *)
Theorem variable_rate_without_change_accrues_as_flat
    (self : InterestRateCalculator.t) (history : list PrimeRateChange)
    (principal : Decimal) (start_date end_date : date) :
  InterestRateCalculator.is_flat_rate self = false ->
  InterestRateCalculator.rate_history self = Some history ->
  start_date <= end_date ->
  Forall (fun rc => ~ (start_date < effective_date rc <= end_date)) history ->
  InterestRateCalculator._calculate_simple_interest self principal start_date end_date
  = (rate ← InterestRateCalculator.get_rate_at_date self start_date;
     '(interest, _) ←
       InterestRateCalculator._calculate_simple_interest
         (InterestRateCalculator.mk SIMPLE true (Some rate) None Dec.zero)
         principal start_date end_date;
     total_interest ← Dec.add Dec.zero interest;
     weighted_avg_rate ←
       implied_flat_rate total_interest principal (days end_date start_date + 1);
     Ok (total_interest, weighted_avg_rate)).
Proof.
  intros Hflat Hh Hle Hnone.
  unfold InterestRateCalculator._calculate_simple_interest,
    InterestRateCalculator.rate_changes_in_period, implied_flat_rate.
  rewrite Hflat, Hh. cbn [InterestRateCalculator.is_flat_rate
                          InterestRateCalculator.flat_rate].
  destruct (days end_date start_date + 1 <=? 0) eqn:Hd; [unfold days in Hd; lia|].
  assert (Hnil : filter (fun rc => start_date < effective_date rc <= end_date)
                   history = []).
  { clear -Hnone. induction Hnone as [|rc l Hrc _ IH]; [done|].
    by rewrite filter_cons_False. }
  rewrite Hnil. cbn [mbind result_bind].
  change (sort_by effective_date []) with (@nil PrimeRateChange).
  cbn [InterestRateCalculator.simple_segments mbind result_bind].
  destruct (0 <? days end_date start_date + 1) eqn:Hd'; [|lia].
  destruct (InterestRateCalculator.get_rate_at_date self start_date) as [r|];
    [|done].
  cbn [mbind result_bind].
  destruct (period_interest principal r _) as [i|]; [|done].
  cbn [mbind result_bind].
  destruct (Dec.add Dec.zero i) as [t|]; [|done].
  cbn [mbind result_bind].
  destruct (Dec.div t principal) as [q|]; [|done].
  cbn [mbind result_bind].
  destruct (Dec.div Dec.d365 _) as [y|]; [|done].
  cbn [mbind result_bind].
  destruct (Dec.mul q y) as [qy|]; [|done].
  cbn [mbind result_bind].
  by destruct (Dec.mul qy Dec.hundred).
Qed.

Lemma variable_rate_without_change_accrues_as_flat_witness :
  InterestRateCalculator._calculate_simple_interest two_rate_calculator
    (dec 1000000 0) (mkdate 2023 2 1) (mkdate 2023 6 30)
  = Ok (dec 4109589041095890410958904110 (-23),
        dec 1000000000000000000000000000 (-26)).
Proof.
  rewrite (variable_rate_without_change_accrues_as_flat two_rate_calculator
             two_rate_sorted (dec 1000000 0) (mkdate 2023 2 1) (mkdate 2023 6 30)
             eq_refl eq_refl).
  - vm_compute. reflexivity.
  - vm_compute. discriminate.
  - repeat constructor; vm_compute; intros [H1 H2]; congruence.
Defined.

(** ** Insertion-ordered dictionaries *)

Lemma dict_get_set_eq {K V : Type} `{EqDecision K} (k : K) (v : V) (d : list (K * V)) :
  dict_get k (dict_set k v d) = Some v.
Proof.
  induction d as [|[k' v'] d IH]; simpl.
  - by rewrite decide_True.
  - destruct (decide (k = k')); simpl.
    + by rewrite decide_True.
    + by rewrite decide_False.
Qed.

Lemma dict_get_set_ne {K V : Type} `{EqDecision K} (k k0 : K) (v : V)
    (d : list (K * V)) :
  k0 <> k -> dict_get k0 (dict_set k v d) = dict_get k0 d.
Proof.
  intros Hne. induction d as [|[k' v'] d IH]; simpl.
  - by rewrite decide_False.
  - destruct (decide (k = k')) as [->|]; simpl.
    + by rewrite !decide_False.
    + by rewrite IH.
Qed.

Lemma dict_get_is_Some {K V : Type} `{EqDecision K} (k : K) (d : list (K * V)) :
  is_Some (dict_get k d) <-> k ∈ map fst d.
Proof.
  induction d as [|[k' v'] d IH]; simpl.
  - split; [by intros [? ?]|by intros ?%elem_of_nil].
  - destruct (decide (k = k')) as [->|Hne].
    + split; [intros _; by left|by eexists].
    + rewrite IH. split; [by right|].
      intros [?|?]%elem_of_cons; [done|done].
Qed.

Lemma dict_keys_set {K V : Type} `{EqDecision K} (k : K) (v : V) (d : list (K * V)) :
  map fst (dict_set k v d)
  = if decide (k ∈ map fst d) then map fst d else map fst d ++ [k].
Proof.
  induction d as [|[k' v'] d IH]; [done|].
  cbn [dict_set map fst].
  destruct (decide (k = k')) as [->|Hne]; cbn [map fst].
  - rewrite decide_True; [done|by left].
  - rewrite IH. destruct (decide (k ∈ map fst d)) as [Hin|Hin].
    + rewrite decide_True; [done|by right].
    + rewrite decide_False; [done|].
      intros [?|?]%elem_of_cons; done.
Qed.

Lemma dict_get_elem_of {K V : Type} `{EqDecision K} (k : K) (v : V)
    (d : list (K * V)) :
  NoDup (map fst d) -> (k, v) ∈ d -> dict_get k d = Some v.
Proof.
  induction d as [|[k' v'] d IH]; simpl; [by intros _ ?%elem_of_nil|].
  intros [Hk Hnd]%NoDup_cons [[= -> ->]|Hin]%elem_of_cons.
  - by rewrite decide_True.
  - destruct (decide (k = k')) as [->|Hne]; [|by apply IH].
    exfalso. apply Hk. apply list_elem_of_fmap. by exists (k', v).
Qed.

(** ** First occurrences *)

Lemma elem_of_first_occurrences {A : Type} `{EqDecision A} (l : list A) (x : A) :
  x ∈ first_occurrences l <-> x ∈ l.
Proof.
  unfold first_occurrences.
  by rewrite elem_of_reverse, elem_of_remove_dups, elem_of_reverse.
Qed.

Lemma NoDup_first_occurrences {A : Type} `{EqDecision A} (l : list A) :
  NoDup (first_occurrences l).
Proof.
  unfold first_occurrences. rewrite reverse_Permutation. apply NoDup_remove_dups.
Qed.

Lemma first_occurrences_snoc {A : Type} `{EqDecision A} (l : list A) (x : A) :
  first_occurrences (l ++ [x])
  = if decide (x ∈ first_occurrences l) then first_occurrences l
    else first_occurrences l ++ [x].
Proof.
  unfold first_occurrences. rewrite reverse_snoc. simpl.
  destruct (decide_rel elem_of x (reverse l)) as [Hin|Hin].
  - rewrite decide_True; [done|].
    by rewrite elem_of_reverse, elem_of_remove_dups.
  - rewrite decide_False.
    + by rewrite reverse_cons.
    + by rewrite elem_of_reverse, elem_of_remove_dups.
Qed.

(** ** Aggregation across closes *)

Lemma sum_snoc (l : list Decimal) (x : Decimal) :
  Dec.sum (l ++ [x]) = (a ← Dec.sum l; Dec.add a x).
Proof. unfold Dec.sum. by rewrite foldl_app. Qed.

Lemma aggregate_one_inv k a d d' seen :
  map fst d = first_occurrences (map (fun ka => partner_name ka.2) seen) ->
  (forall n pa, dict_get n d = Some pa -> entry_of seen n (total_allocation pa) pa) ->
  AllocationCalculator.aggregate_one k a d = Ok d' ->
  map fst d' = first_occurrences (map (fun ka => partner_name ka.2) (seen ++ [(k, a)])) /\
  (forall n pa, dict_get n d' = Some pa ->
     entry_of (seen ++ [(k, a)]) n (total_allocation pa) pa).
Proof.
  intros Hkeys Hentries H. unfold AllocationCalculator.aggregate_one in H.
  apply bind_Ok in H as (total & Htotal & H). injection H as <-.
  split.
  { rewrite dict_keys_set, map_app. cbn [map snd].
    rewrite first_occurrences_snoc, Hkeys. done. }
  intros n pa Hpa.
  destruct (decide (n = partner_name a)) as [->|Hne].
  - rewrite dict_get_set_eq in Hpa. injection Hpa as <-.
    unfold entry_of. rewrite filter_app, (filter_cons_True _ (k, a) []) by done.
    rewrite filter_nil.
    cbn [partner_name ela_commitment ela_close_number total_allocation
         allocation_by_admitting_close].
    destruct (dict_get (partner_name a) d) as [old|] eqn:Hold.
    + destruct (Hentries _ _ Hold) as (Hn & Hsum & (first & Hfirst & Hc & Hcl) & Hbk & Hbv).
      split; [done|].
      rewrite map_app. cbn [map snd]. rewrite sum_snoc, Hsum. split; [done|].
      split.
      { exists first. split; [|done].
        destruct (filter _ seen); [done|]. done. }
      split.
      { rewrite dict_keys_set, map_app. cbn [map fst].
        rewrite first_occurrences_snoc, Hbk. done. }
      intros k'. destruct (decide (k' = k)) as [->|Hk].
      * rewrite dict_get_set_eq, filter_app, (filter_cons_True _ (k, a) []) by done.
        by rewrite filter_nil, last_snoc.
      * rewrite dict_get_set_ne, filter_app, (filter_cons_False _ (k, a) []) by done.
        by rewrite filter_nil, app_nil_r.
    + assert (Hnil : filter (fun ka => partner_name ka.2 = partner_name a) seen = []).
      { destruct (filter _ seen) as [|ka l] eqn:Hf; [done|]. exfalso.
        assert (Hin : ka ∈ filter (fun ka => partner_name ka.2 = partner_name a) seen)
          by (rewrite Hf; by left).
        apply list_elem_of_filter in Hin as [Hname Hin].
        assert (Hkey : partner_name a ∈ map fst d).
        { rewrite Hkeys. apply elem_of_first_occurrences.
          apply list_elem_of_fmap. by exists ka. }
        apply dict_get_is_Some in Hkey as [? Hkey]. congruence. }
      rewrite Hnil. cbn [app map total_allocation ela_commitment ela_close_number
                         allocation_by_admitting_close partner_name] in *.
      split; [done|]. split; [exact Htotal|].
      split; [by exists (k, a)|].
      split; [done|].
      intros k'. simpl. destruct (decide (k' = k)) as [->|Hk].
      * by rewrite filter_cons_True.
      * by rewrite filter_cons_False.
  - rewrite dict_get_set_ne in Hpa by done.
    apply Hentries in Hpa. unfold entry_of in *.
    rewrite filter_app, (filter_cons_False _ (k, a) []) by (simpl; congruence).
    by rewrite filter_nil, app_nil_r.
Qed.

Lemma aggregate_close_inv k allocs d d' seen :
  map fst d = first_occurrences (map (fun ka => partner_name ka.2) seen) ->
  (forall n pa, dict_get n d = Some pa -> entry_of seen n (total_allocation pa) pa) ->
  AllocationCalculator.aggregate_close k allocs d = Ok d' ->
  map fst d'
  = first_occurrences (map (fun ka => partner_name ka.2) (seen ++ map (pair k) allocs)) /\
  (forall n pa, dict_get n d' = Some pa ->
     entry_of (seen ++ map (pair k) allocs) n (total_allocation pa) pa).
Proof.
  revert d seen. induction allocs as [|a allocs IH]; simpl; intros d seen Hk He H.
  - injection H as <-. by rewrite app_nil_r.
  - apply bind_Ok in H as (d1 & H1 & H).
    destruct (aggregate_one_inv _ _ _ _ _ Hk He H1) as [Hk1 He1].
    destruct (IH _ _ Hk1 He1 H) as [Hk2 He2].
    by rewrite <- app_assoc in Hk2, He2.
Qed.

Lemma aggregate_closes_inv items d d' seen :
  map fst d = first_occurrences (map (fun ka => partner_name ka.2) seen) ->
  (forall n pa, dict_get n d = Some pa -> entry_of seen n (total_allocation pa) pa) ->
  AllocationCalculator.aggregate_closes items d = Ok d' ->
  map fst d'
  = first_occurrences
      (map (fun ka => partner_name ka.2) (seen ++ allocations_seen items)) /\
  (forall n pa, dict_get n d' = Some pa ->
     entry_of (seen ++ allocations_seen items) n (total_allocation pa) pa).
Proof.
  revert d seen. induction items as [|[k allocs] items IH]; simpl;
    intros d seen Hk He H.
  - injection H as <-. unfold allocations_seen. simpl. by rewrite app_nil_r.
  - apply bind_Ok in H as (d1 & H1 & H).
    destruct (aggregate_close_inv _ _ _ _ _ Hk He H1) as [Hk1 He1].
    destruct (IH _ _ Hk1 He1 H) as [Hk2 He2].
    unfold allocations_seen in *. simpl. by rewrite <- app_assoc in Hk2, He2.
Qed.

Lemma round_totals_inv self values out :
  AllocationCalculator.round_totals self values = Ok out ->
  Forall2 (fun pa rec =>
    partner_name rec = partner_name pa /\
    ela_commitment rec = ela_commitment pa /\
    ela_close_number rec = ela_close_number pa /\
    allocation_by_admitting_close rec = allocation_by_admitting_close pa /\
    _round_amount (total_allocation pa)
      (sum_rounding (AllocationCalculator.assumptions self))
      = Ok (total_allocation rec)) values out.
Proof.
  revert out. induction values as [|pa values IH]; simpl; intros out H.
  - injection H as <-. constructor.
  - apply bind_Ok in H as (total & Htotal & H).
    apply bind_Ok in H as (rest & Hrest & H). injection H as <-.
    constructor; [by simpl|by apply IH].
Qed.

(** X22: [aggregate_allocations_across_closes] returns one record per partner
    name, in the order in which the names first appear; the record of a
    partner holds the sum of all its allocations, rounded to
    [sum_rounding], the commitment and close number of the first of
    them, and for every close under which it has an allocation (in order
    of first appearance) the amount of the last allocation filed under
    that close. *)
Theorem aggregation_across_closes
    (self : AllocationCalculator.t)
    (allocations_by_close : list (Z * list ExistingLPAllocation))
    (out : list ExistingLPAllocation) :
  AllocationCalculator.aggregate_allocations_across_closes self allocations_by_close
    = Ok out ->
  map partner_name out
  = first_occurrences
      (map (fun ka => partner_name ka.2) (allocations_seen allocations_by_close)) /\
  NoDup (map partner_name out) /\
  Forall (fun rec =>
    exists total,
      entry_of (allocations_seen allocations_by_close) (partner_name rec) total rec /\
      _round_amount total (sum_rounding (AllocationCalculator.assumptions self))
        = Ok (total_allocation rec)) out.
Proof.
  unfold AllocationCalculator.aggregate_allocations_across_closes. intros H.
  apply bind_Ok in H as (d & Hd & H).
  destruct (aggregate_closes_inv allocations_by_close [] d []) as [Hkeys Hentries];
    [done|done|done|].
  rewrite app_nil_l in Hkeys. 
  assert (Hent : Forall (fun e => entry_of (allocations_seen allocations_by_close)
                                    e.1 (total_allocation e.2) e.2) d).
  { rewrite Forall_forall. intros [n pa] Hin. apply (Hentries n pa).
    apply dict_get_elem_of; [|done]. rewrite Hkeys. apply NoDup_first_occurrences. }
  apply round_totals_inv in H.
  assert (Hnames : map partner_name out = map fst d).
  { clear Hkeys Hentries Hd. revert out H.
    induction Hent as [|[n pa] d' He _ IH]; intros out H.
    - by apply Forall2_nil_inv_l in H as ->.
    - simpl in H. apply Forall2_cons_inv_l in H as (rec & out' & (Hn & _) & H & ->).
      destruct He as [Hpn _]. simpl in *. by rewrite Hn, (IH _ H), Hpn. }
  split; [by rewrite Hnames|].
  split; [rewrite Hnames, Hkeys; apply NoDup_first_occurrences|].
  clear Hnames Hkeys Hentries Hd. revert out H.
  induction Hent as [|[n pa] d' He _ IH]; intros out H.
  - apply Forall2_nil_inv_l in H as ->. constructor.
  - simpl in H.
    apply Forall2_cons_inv_l in H as (rec & out' & (Hn & Hc & Hcl & Hb & Hr) & H & ->).
    constructor; [|by apply IH].
    exists (total_allocation pa). split; [|done].
    destruct He as (Hpn & Hsum & Hfirst & Hbk & Hbv). simpl in *.
    unfold entry_of. rewrite Hn, Hpn, Hc, Hcl, Hb. done.
Qed.

Lemma aggregation_across_closes_witness :
  map partner_name increase_allocations = ["Partner A"; "Partner B"] /\
  AllocationCalculator.aggregate_allocations_across_closes cent_calculator
    [(2, increase_allocations); (3, increase_allocations)]
  = Ok [mkExistingLPAllocation "Partner A" (dec 2000000 0) 1 (dec 600000 (-2))
          [(2, dec 300000 (-2)); (3, dec 300000 (-2))];
        mkExistingLPAllocation "Partner B" (dec 2000000 0) 1 (dec 1200000 (-2))
          [(2, dec 600000 (-2)); (3, dec 600000 (-2))]] /\
  NoDup (map partner_name
           [mkExistingLPAllocation "Partner A" (dec 2000000 0) 1 (dec 600000 (-2))
              [(2, dec 300000 (-2)); (3, dec 300000 (-2))];
            mkExistingLPAllocation "Partner B" (dec 2000000 0) 1 (dec 1200000 (-2))
              [(2, dec 600000 (-2)); (3, dec 600000 (-2))]]).
Proof.
  split; [reflexivity|]. split; [vm_compute; reflexivity|].
  refine (proj1 (proj2 (aggregation_across_closes cent_calculator
                          [(2, increase_allocations); (3, increase_allocations)]
                          _ _))).
  vm_compute. reflexivity.
Defined.

(** ** Results within the precision of the context *)










(** ** A zero principal at a variable rate, in compound mode *)

(** X24: On finite decimals (no NaN and no Infinity among the rates of
    the history, the spread, the principal and the values the power
    function returns, which is all a [Decimal] of this development
    holds), with a variable rate and [start_date <= end_date], the
    compound accrual of a principal of zero never returns either,
    whatever finite value the power function returns: if nothing raises
    before, the effective-rate formula divides the balance by the
    principal, and a division by a zero raises under the default traps.
    (A quiet NaN rate or spread is outside this statement: in Python
    NaN / 0 is NaN and nothing raises.) *)
Theorem zero_principal_compound_variable_rate_raises
    (dec_power : Decimal -> Decimal -> result Decimal)
    (self : InterestRateCalculator.t) (history : list PrimeRateChange)
    (principal : Decimal) (start_date end_date : date) :
  InterestRateCalculator.compounding self = COMPOUND ->
  InterestRateCalculator.is_flat_rate self = false ->
  InterestRateCalculator.rate_history self = Some history ->
  start_date <= end_date ->
  Dec.is_zero principal = true ->
  exists e,
    InterestRateCalculator.calculate_interest dec_power self principal
      start_date end_date = Raise e.
Proof.
  intros Hc Hflat Hh Hle Hz.
  unfold InterestRateCalculator.calculate_interest.
  destruct (end_date <? start_date) eqn:Hlt; [lia|]. rewrite Hc.
  unfold InterestRateCalculator._calculate_compound_interest,
    InterestRateCalculator.rate_changes_in_period.
  destruct (days end_date start_date + 1 <=? 0) eqn:Hd; [unfold days in Hd; lia|].
  rewrite Hflat, Hh. cbn [mbind result_bind].
  destruct (InterestRateCalculator.compound_segments _ _ _ _ _ _)
    as [[balance current]|e]; [|by eexists].
  cbn [mbind result_bind].
  match goal with
  | |- exists e, (?m ≫= _) = _ => destruct m as [balance'|e]; [|by eexists]
  end.
  cbn [mbind result_bind].
  destruct (Dec.sub balance' principal) as [interest|e]; [|by eexists].
  cbn [mbind result_bind].
  destruct (Dec.div (Dec.of_Z _) Dec.d365) as [t_total|e]; [|by eexists].
  cbn [mbind result_bind].
  destruct (Dec.div balance' principal) as [ratio|e] eqn:Hdiv; [|by eexists].
  exfalso. unfold Dec.div in Hdiv. rewrite Hz in Hdiv.
  by destruct (Dec.is_zero balance').
Qed.

Lemma zero_principal_compound_variable_rate_raises_witness :
  exists e,
    InterestRateCalculator.calculate_interest unit_power
      two_rate_compound_calculator (dec 0 0) two_rate_start two_rate_end = Raise e.
Proof.
  apply (zero_principal_compound_variable_rate_raises unit_power
           two_rate_compound_calculator two_rate_sorted (dec 0 0)
           two_rate_start two_rate_end).
  - reflexivity.
  - reflexivity.
  - reflexivity.
  - vm_compute. discriminate.
  - reflexivity.
Defined.
